(** * youtube-to-mp3: a shallow embedding of the backend and its properties

    The Python sources are embedded module by module:
    - [Py]             the few Python built-ins the code relies on
                       (truthiness, [str.split], [str.strip], slicing, indexing);
    - [Helpers]        [app/utils/helpers.py]      ([sanitize_filename]);
    - [Validators]     [app/utils/validators.py]   (the three extractors);
    - [Models]         [app/models.py];
    - [TaskManager]    [app/services/task_manager.py];
    - [YouTubeService] [app/services/youtube_service.py];
    - [Routes]         [app/api/routes.py].

    Conventions.
    - A Python [str] is a list of Unicode code points ([list N]); [py "..."]
      injects an ASCII literal.
    - A Python [int] is a [Z]; a Python [float] is idealised as an exact
      rational [Q] (rounding, infinities and NaN are not represented).
    - The registry dictionary [self.tasks] is a [gmap] from task ids to records;
      every method takes the dictionary and returns the new one.  The lock makes
      each method atomic, so one method call is one step.
    - Everything outside the repository (yt-dlp, the file system, [uuid4],
      [unicodedata.normalize], [float()]) is an explicit argument. *)

From Stdlib Require Import ZArith QArith Qabs Qround Lqa List Lia Bool Ascii String Sorted.
From stdpp Require Import base gmap strings list pretty.

Local Open Scope Z_scope.

(* ===================================================================== *)
(** ** Python built-ins *)
(* ===================================================================== *)

Module Py.

(** A Python string: its sequence of code points. *)
Abbreviation str := (list N).

(** An ASCII literal as a Python string. *)
Definition py (s : string) : str :=
  List.map N_of_ascii (list_ascii_of_string s).

(** [bool(s)] for an [Optional[str]]: [None] and [""] are falsy. *)
Definition truthy (o : option str) : bool :=
  match o with
  | Some (_ :: _) => true
  | _ => false
  end.

(** [a or b] on [Optional[str]] values. *)
Definition or_ (a b : option str) : option str :=
  if truthy a then a else b.

(** [c.isspace()] restricted to ASCII: TAB, LF, VT, FF, CR, the four
    separators FS GS RS US, and the space. *)
Definition isspace (c : N) : bool :=
  ((9 <=? c) && (c <=? 13) || (28 <=? c) && (c <=? 32))%N.

Definition space : N := 32%N.

(** [s.lstrip()], [s.rstrip()], [s.strip()]. *)
Fixpoint lstrip (s : str) : str :=
  match s with
  | c :: s' => if isspace c then lstrip s' else s
  | [] => []
  end.

Definition rstrip (s : str) : str := rev (lstrip (rev s)).

Definition strip (s : str) : str := rstrip (lstrip s).

(** [s.strip(chars)] for a one-character [chars]. *)
Fixpoint lstrip_char (x : N) (s : str) : str :=
  match s with
  | c :: s' => if N.eqb c x then lstrip_char x s' else s
  | [] => []
  end.

Definition strip_char (x : N) (s : str) : str :=
  rev (lstrip_char x (rev (lstrip_char x s))).

(** [s.split()]: the maximal runs of non-whitespace characters.  [cur] is
    the run being read, kept reversed. *)
Fixpoint split_aux (cur : str) (s : str) : list str :=
  match s with
  | [] => match cur with [] => [] | _ => [rev cur] end
  | c :: s' =>
      if isspace c
      then match cur with
           | [] => split_aux [] s'
           | _ => rev cur :: split_aux [] s'
           end
      else split_aux (c :: cur) s'
  end.

Definition split (s : str) : list str := split_aux [] s.

(** [sep.join(words)]. *)
Fixpoint join (sep : str) (words : list str) : str :=
  match words with
  | [] => []
  | [w] => w
  | w :: ws => w ++ sep ++ join sep ws
  end.

(** [s.replace(old, new)] for one-character [old] and [new]. *)
Definition replace (old new : N) (s : str) : str :=
  List.map (fun c => if N.eqb c old then new else c) s.

(** [s[:n]] for [n >= 0]. *)
Definition slice_to (n : nat) (s : str) : str := firstn n s.

(** [s.encode('ascii', 'ignore').decode('ascii')]. *)
Definition ascii_ignore (s : str) : str :=
  List.filter (fun c => (c <? 128)%N) s.

(** [sub in s]. *)
Fixpoint starts_with (p s : str) : bool :=
  match p, s with
  | [], _ => true
  | _ :: _, [] => false
  | a :: p', b :: s' => N.eqb a b && starts_with p' s'
  end.

Fixpoint contains (sub s : str) : bool :=
  starts_with sub s ||
  match s with
  | [] => false
  | _ :: s' => contains sub s'
  end.

(** [xs[i]] on a list: negative indices count from the end, anything out of
    range raises [IndexError] ([None] here). *)
Definition getitem {A} (xs : list A) (i : Z) : option A :=
  let n := Z.of_nat (length xs) in
  if (0 <=? i) && (i <? n) then nth_error xs (Z.to_nat i)
  else if (- n <=? i) && (i <? 0) then nth_error xs (Z.to_nat (n + i))
  else None.

(** [str(n)] for an [int]. *)
Definition str_of_int (n : Z) : str := py (pretty n).

(** [len(xs)]. *)
Definition len {A} (xs : list A) : Z := Z.of_nat (length xs).

End Py.

Import Py.

Arguments py : simpl never.
Arguments str_of_int : simpl never.

(* ===================================================================== *)
(** ** app/models.py *)
(* ===================================================================== *)

Module Models.

Inductive TaskStatus := PENDING | PROCESSING | COMPLETED | FAILED.

(** [TaskStatus] is a [str] enumeration: the value of a member. *)
Definition value (s : TaskStatus) : str :=
  match s with
  | PENDING => py "pending"
  | PROCESSING => py "processing"
  | COMPLETED => py "completed"
  | FAILED => py "failed"
  end.

Definition TaskStatus_eqb (a b : TaskStatus) : bool :=
  match a, b with
  | PENDING, PENDING | PROCESSING, PROCESSING
  | COMPLETED, COMPLETED | FAILED, FAILED => true
  | _, _ => false
  end.

Record VideoInfo := {
  id : str;
  title : str;
  duration : Z;
  thumbnail : str;
  selected : bool
}.

Record DownloadRequest := {
  url : str;
  is_playlist : bool
}.

Record PlaylistRequest := {
  pl_url : str;
  video_ids : list str
}.

Record TaskResponse := {
  task_id : str;
  status : TaskStatus;
  message : str;
  progress : Q;
  total_videos : Z;
  completed_videos : Z
}.

Record VideoInfoResponse := {
  resp_is_playlist : bool;
  videos : list VideoInfo;
  playlist_title : option str
}.

End Models.

(* ===================================================================== *)
(** ** app/services/task_manager.py *)
(* ===================================================================== *)

Module TaskManager.

Import Models.

(** The dictionary stored under a task id. *)
Record task := {
  status : TaskStatus;
  progress : Q;
  message : str;
  total_videos : Z;
  completed_videos : Z;
  file_paths : list str
}.

(** [self.tasks]. *)
Abbreviation tasks := (gmap str task).

(** [create_task]: [task_id] is the string [uuid.uuid4()] produced. *)
Definition create_task (ts : tasks) (task_id : str) (total_videos : Z)
  : tasks * str :=
  (<[task_id := {| status := PENDING;
                   progress := 0;
                   message := py "Task created";
                   total_videos := total_videos;
                   completed_videos := 0;
                   file_paths := [] |}]> ts,
   task_id).

(** The keyword arguments of one [update_task] call; [None] is the
    default of an argument that was not passed. *)
Record update := {
  u_status : option TaskStatus;
  u_progress : option Q;
  u_message : option str;
  u_completed_videos : option Z;
  u_file_path : option str
}.

(** The body of [update_task] on the record of a known task.  [if status:]
    is always taken for a member of [TaskStatus] (its value is a non-empty
    string); [if message:] and [if file_path:] test truthiness, the two
    numeric fields test [is not None]. *)
Definition apply_update (u : update) (t : task) : task :=
  let t1 :=
    match u_status u with
    | Some s => {| status := s; progress := progress t; message := message t;
                   total_videos := total_videos t;
                   completed_videos := completed_videos t;
                   file_paths := file_paths t |}
    | None => t
    end in
  let t2 :=
    match u_progress u with
    | Some p => {| status := status t1; progress := p; message := message t1;
                   total_videos := total_videos t1;
                   completed_videos := completed_videos t1;
                   file_paths := file_paths t1 |}
    | None => t1
    end in
  let t3 :=
    match u_message u with
    | Some m =>
        if truthy (Some m)
        then {| status := status t2; progress := progress t2; message := m;
                total_videos := total_videos t2;
                completed_videos := completed_videos t2;
                file_paths := file_paths t2 |}
        else t2
    | None => t2
    end in
  let t4 :=
    match u_completed_videos u with
    | Some c => {| status := status t3; progress := progress t3;
                   message := message t3;
                   total_videos := total_videos t3;
                   completed_videos := c;
                   file_paths := file_paths t3 |}
    | None => t3
    end in
  match u_file_path u with
  | Some f =>
      if truthy (Some f)
      then {| status := status t4; progress := progress t4;
              message := message t4;
              total_videos := total_videos t4;
              completed_videos := completed_videos t4;
              file_paths := file_paths t4 ++ [f] |}
      else t4
  | None => t4
  end.

Definition update_task (ts : tasks) (task_id : str) (u : update) : tasks :=
  match ts !! task_id with
  | None => ts
  | Some t => <[task_id := apply_update u t]> ts
  end.

Definition get_task (ts : tasks) (task_id : str) : TaskResponse :=
  match ts !! task_id with
  | None =>
      {| Models.task_id := task_id;
         Models.status := FAILED;
         Models.message := py "Task not found";
         Models.progress := 0;
         Models.total_videos := 0;
         Models.completed_videos := 0 |}
  | Some t =>
      {| Models.task_id := task_id;
         Models.status := status t;
         Models.message := message t;
         Models.progress := progress t;
         Models.total_videos := total_videos t;
         Models.completed_videos := completed_videos t |}
  end.

Definition get_task_files (ts : tasks) (task_id : str) : list str :=
  match ts !! task_id with
  | None => []
  | Some t => file_paths t
  end.

Definition cleanup_task (ts : tasks) (task_id : str) : tasks :=
  match ts !! task_id with
  | Some _ => delete task_id ts
  | None => ts
  end.

End TaskManager.

(* ===================================================================== *)
(** ** app/config.py *)
(* ===================================================================== *)

Module Config.

(** [str(settings.DOWNLOAD_DIR)] for [Path("./downloads")]. *)
Definition DOWNLOAD_DIR : str := py "downloads".

Definition AUDIO_FORMAT : str := py "mp3".

(** [str(settings.DOWNLOAD_DIR / name)] for a [name] without separator. *)
Definition in_download_dir (name : str) : str :=
  DOWNLOAD_DIR ++ py "/" ++ name.

End Config.

(* ===================================================================== *)
(** ** app/utils/helpers.py *)
(* ===================================================================== *)

Module Helpers.

(** [invalid_chars]: less-than, greater-than, colon, double quote, slash,
    backslash, bar, question mark, star, in the order of the source. *)
Definition invalid_chars : str := py "<>:" ++ [34%N] ++ py "/\|?*".

Definition underscore : N := 95%N.

(** [sanitize_filename].  [nfkd] stands for
    [unicodedata.normalize('NFKD', _)], whose table is not part of the
    repository. *)
Definition sanitize_filename (nfkd : str -> str) (filename : str) : str :=
  let filename := nfkd filename in
  let filename := ascii_ignore filename in
  let filename :=
    fold_left (fun f char => replace char underscore f) invalid_chars filename in
  let filename := join (py " ") (split filename) in
  strip (slice_to 200 filename).

End Helpers.

(* ===================================================================== *)
(** ** app/utils/validators.py *)
(* ===================================================================== *)

Module Validators.

(** The four regular expressions all have the shape
    [(?:lit_1|...|lit_k)([^&\n?#]+)]: one of several literal prefixes,
    then a greedy non-empty run of characters outside a fixed class. *)

(** The characters excluded by [[^&\n?#]]. *)
Definition terminators : str := py "&" ++ [10%N] ++ py "?#".

Definition in_class (c : N) : bool := negb (existsb (N.eqb c) terminators).

Fixpoint take_while (f : N -> bool) (s : str) : str :=
  match s with
  | c :: s' => if f c then c :: take_while f s' else []
  | [] => []
  end.

(** [([^&\n?#]+)] at the start of [s]: the longest run, which must not be
    empty.  Nothing follows the group in any of the patterns, so the greedy
    run is the match. *)
Definition group1 (s : str) : option str :=
  match take_while in_class s with
  | [] => None
  | g => Some g
  end.

(** The pattern anchored at the start of [s]; the alternatives are tried
    from left to right. *)
Fixpoint match_here (alts : list str) (s : str) : option str :=
  match alts with
  | [] => None
  | a :: alts' =>
      if starts_with a s
      then match group1 (skipn (length a) s) with
           | Some g => Some g
           | None => match_here alts' s
           end
      else match_here alts' s
  end.

(** [re.search(pattern, s)] followed by [.group(1)]: the match at the
    leftmost position that has one. *)
Fixpoint search (alts : list str) (s : str) : option str :=
  match match_here alts s with
  | Some g => Some g
  | None =>
      match s with
      | [] => None
      | _ :: s' => search alts s'
      end
  end.

(** The literal prefixes of the three video patterns. *)
Definition patterns : list (list str) :=
  [ [py "youtube.com/watch?v="; py "youtu.be/"];
    [py "youtube.com/embed/"];
    [py "youtube.com/v/"] ].

Fixpoint first_match (ps : list (list str)) (url : str) : option str :=
  match ps with
  | [] => None
  | pattern :: ps' =>
      match search pattern url with
      | Some g => Some g
      | None => first_match ps' url
      end
  end.

Definition extract_video_id (url : str) : option str :=
  first_match patterns url.

Definition extract_playlist_id (url : str) : option str :=
  search [py "list="] url.

Definition is_valid_youtube_url (url : str) : bool :=
  truthy (or_ (extract_video_id url) (extract_playlist_id url)).

End Validators.

(* ===================================================================== *)
(** ** app/services/youtube_service.py *)
(* ===================================================================== *)

Module YouTubeService.

Import Models.
Import TaskManager.

(** What a workflow does, in program order: its calls to the registry and
    to the outside (yt-dlp and the file system). *)
Inductive action :=
| GetVideoInfo (url : str)
| YdlDownload (url : str) (outtmpl : str)
| FileExists (path : str)
| UpdateTask (task_id : str) (u : update).

(** An [update_task] call passing none of the keyword arguments. *)
Definition no_update : update :=
  {| u_status := None; u_progress := None; u_message := None;
     u_completed_videos := None; u_file_path := None |}.

(** The dictionary yt-dlp hands to a progress hook: [d['status']] and
    [d.get('_percent_str')]. *)
Inductive hook_status := Downloading | Finished | OtherStatus.

Record hook_event := {
  h_status : hook_status;
  h_percent_str : option str
}.

Definition percent_sign : N := 37%N.

Section ProgressHook.

(** [float(s)]: [None] stands for [ValueError]. *)
Variable py_float : str -> option Q.
(** [f"{percent:.0f}"]. *)
Variable format_0f : Q -> str.

(** [progress_hook(d)] with the cell [last_percent[0]] passed in and out;
    the second component is the [update_task] call it schedules. *)
Definition progress_hook (last_percent : Q) (d : hook_event)
  : Q * option update :=
  match h_status d with
  | Downloading =>
      let percent_str :=
        strip_char percent_sign
          (match h_percent_str d with Some s => s | None => py "0%" end) in
      match py_float percent_str with
      | Some percent =>
          if Qle_bool 5 (Qabs (percent - last_percent))
          then (percent,
                Some {| u_status := None;
                        u_progress := Some (10 + percent * (7 # 10))%Q;
                        u_message :=
                          Some (py "Downloading: " ++ format_0f percent
                                ++ py "%");
                        u_completed_videos := None;
                        u_file_path := None |})
          else (last_percent, None)
      | None => (last_percent, None)
      end
  | Finished =>
      (last_percent,
       Some {| u_status := None;
               u_progress := Some 80%Q;
               u_message := Some (py "Converting to MP3...");
               u_completed_videos := None;
               u_file_path := None |})
  | OtherStatus => (last_percent, None)
  end.

(** The updates scheduled while yt-dlp reports [events], in order. *)
Fixpoint hook_updates (last_percent : Q) (events : list hook_event)
  : list update :=
  match events with
  | [] => []
  | d :: events' =>
      match progress_hook last_percent d with
      | (last_percent', Some u) => u :: hook_updates last_percent' events'
      | (last_percent', None) => hook_updates last_percent' events'
      end
  end.

End ProgressHook.

(** What the outside answers during one download: the result of
    [get_video_info] ([None] on any failure), the progress events of
    [ydl.download], the text of the exception it raised if it did, and
    whether the final file is there afterwards. *)
Record outcome := {
  o_info : option VideoInfo;
  o_events : list hook_event;
  o_error : option str;
  o_file_exists : bool
}.

Section Workflows.

Variable nfkd : str -> str.
Variable py_float : str -> option Q.
Variable format_0f : Q -> str.

(** [download_single_video].  The hook's updates are scheduled on the
    event loop during [ydl.download] and are listed where they were
    scheduled. *)
Definition download_single_video (w : outcome) (url task_id : str)
  : list action :=
  UpdateTask task_id
    {| u_status := Some PROCESSING;
       u_progress := Some 10%Q;
       u_message := Some (py "Fetching video information...");
       u_completed_videos := None;
       u_file_path := None |}
  :: GetVideoInfo url
  :: match o_info w with
     | None =>
         [UpdateTask task_id
            {| u_status := Some FAILED;
               u_progress := None;
               u_message := Some (py "Failed to fetch video information");
               u_completed_videos := None;
               u_file_path := None |}]
     | Some video_info =>
         let filename := Helpers.sanitize_filename nfkd (title video_info) in
         let output_path :=
           Config.in_download_dir (filename ++ py ".%(ext)s") in
         YdlDownload url output_path
         :: List.map (UpdateTask task_id)
              (hook_updates py_float format_0f 0 (o_events w))
         ++ match o_error w with
            | Some e =>
                [UpdateTask task_id
                   {| u_status := Some FAILED;
                      u_progress := None;
                      u_message := Some (py "Error: " ++ e);
                      u_completed_videos := None;
                      u_file_path := None |}]
            | None =>
                let final_file :=
                  Config.in_download_dir
                    (filename ++ py "." ++ Config.AUDIO_FORMAT) in
                FileExists final_file
                :: (if o_file_exists w
                    then [UpdateTask task_id
                            {| u_status := Some COMPLETED;
                               u_progress := Some 100%Q;
                               u_message := Some (py "Download completed!");
                               u_completed_videos := Some 1;
                               u_file_path := Some final_file |}]
                    else [UpdateTask task_id
                            {| u_status := Some FAILED;
                               u_progress := None;
                               u_message := Some (py "File conversion failed");
                               u_completed_videos := None;
                               u_file_path := None |}])
            end
     end.

(** The [for idx, video_id in enumerate(video_ids)] loop of
    [download_playlist]: the actions of the remaining items and the final
    value of [completed].  [w idx video_id] is what the outside answers
    for that item. *)
Fixpoint playlist_loop (w : nat -> str -> outcome) (task_id : str)
  (total : Z) (idx : nat) (video_ids : list str) (completed : Z)
  : list action * Z :=
  match video_ids with
  | [] => ([], completed)
  | video_id :: rest =>
      let url := py "https://www.youtube.com/watch?v=" ++ video_id in
      match o_info (w idx video_id) with
      | None =>
          let '(acts, c) :=
            playlist_loop w task_id total (S idx) rest completed in
          (GetVideoInfo url :: acts, c)
      | Some video_info =>
          let filename := Helpers.sanitize_filename nfkd (title video_info) in
          let output_path :=
            Config.in_download_dir (filename ++ py ".%(ext)s") in
          let before :=
            [GetVideoInfo url;
             UpdateTask task_id
               {| u_status := None;
                  u_progress := None;
                  u_message :=
                    Some (py "Downloading "
                          ++ str_of_int (Z.of_nat idx + 1) ++ py "/"
                          ++ str_of_int total ++ py ": "
                          ++ slice_to 50 (title video_info) ++ py "...");
                  u_completed_videos := None;
                  u_file_path := None |};
             YdlDownload url output_path] in
          match o_error (w idx video_id) with
          | Some _ =>
              let '(acts, c) :=
                playlist_loop w task_id total (S idx) rest completed in
              (before ++ acts, c)
          | None =>
              let final_file :=
                Config.in_download_dir
                  (filename ++ py "." ++ Config.AUDIO_FORMAT) in
              if o_file_exists (w idx video_id)
              then
                let completed := completed + 1 in
                let progress :=
                  (inject_Z completed / inject_Z total * 100)%Q in
                let '(acts, c) :=
                  playlist_loop w task_id total (S idx) rest completed in
                (before
                 ++ [FileExists final_file;
                     UpdateTask task_id
                       {| u_status := None;
                          u_progress := Some progress;
                          u_message := None;
                          u_completed_videos := Some completed;
                          u_file_path := Some final_file |}]
                 ++ acts, c)
              else
                let '(acts, c) :=
                  playlist_loop w task_id total (S idx) rest completed in
                (before ++ [FileExists final_file] ++ acts, c)
          end
      end
  end.

(** [download_playlist]. *)
Definition download_playlist (w : nat -> str -> outcome)
  (video_ids : list str) (task_id : str) : list action :=
  let total := len video_ids in
  let '(acts, completed) := playlist_loop w task_id total 0 video_ids 0 in
  UpdateTask task_id
    {| u_status := Some PROCESSING;
       u_progress := None;
       u_message :=
         Some (py "Starting download of " ++ str_of_int total
               ++ py " videos...");
       u_completed_videos := None;
       u_file_path := None |}
  :: acts
  ++ [if 0 <? completed
      then UpdateTask task_id
             {| u_status := Some COMPLETED;
                u_progress := Some 100%Q;
                u_message :=
                  Some (py "Completed! Downloaded " ++ str_of_int completed
                        ++ py "/" ++ str_of_int total ++ py " videos");
                u_completed_videos := None;
                u_file_path := None |}
      else UpdateTask task_id
             {| u_status := Some FAILED;
                u_progress := None;
                u_message :=
                  Some (py "No videos were downloaded successfully");
                u_completed_videos := None;
                u_file_path := None |}].

End Workflows.

(** The effect of one action on the registry. *)
Definition exec (ts : tasks) (a : action) : tasks :=
  match a with
  | UpdateTask task_id u => update_task ts task_id u
  | _ => ts
  end.

(** The registry after a whole workflow. *)
Definition run (ts : tasks) (acts : list action) : tasks :=
  fold_left exec acts ts.

(** The registry after each action of a workflow, the start included. *)
Fixpoint states (ts : tasks) (acts : list action) : list tasks :=
  ts :: match acts with
        | [] => []
        | a :: acts' => states (exec ts a) acts'
        end.

End YouTubeService.

(* ===================================================================== *)
(** ** app/api/routes.py *)
(* ===================================================================== *)

Module Routes.

Import Models.

(** How a handler ends: it returns, raises [HTTPException], or lets another
    exception escape (the framework answers 500). *)
Inductive result (A : Type) :=
| Ok (a : A)
| HTTPException (status_code : Z) (detail : str)
| Unhandled (exc : str).
Arguments Ok {A} a.
Arguments HTTPException {A} status_code detail.
Arguments Unhandled {A} exc.

(** What [background_tasks.add_task] was given. *)
Inductive background :=
| BgDownloadSingleVideo (url task_id : str)
| BgDownloadPlaylist (video_ids : list str) (task_id : str)
| BgCleanupFile (file_path : str) (delay : Z).

Record FileResponse := {
  path : str;
  filename : str;
  media_type : str
}.

(** [Path(p).name]: the last component of [p], where empty components and
    [.] components do not count. *)
Fixpoint components (cur : str) (p : str) : list str :=
  match p with
  | [] => [rev cur]
  | c :: p' =>
      if N.eqb c 47 then rev cur :: components [] p'
      else components (c :: cur) p'
  end.

Definition is_component (c : str) : bool :=
  match c with
  | [] => false
  | [46%N] => false
  | _ => true
  end.

Definition path_name (p : str) : str :=
  List.last (List.filter is_component (components [] p)) [].

Definition str_eqb (a b : str) : bool := bool_decide (a = b).

Section Handlers.

(** The metadata service, as the handlers see it. *)
Variable service_get_playlist_info : str -> option str * list VideoInfo.
Variable service_get_video_info : str -> option VideoInfo.

(** [POST /api/info]. *)
Definition get_video_info (request : DownloadRequest)
  : result VideoInfoResponse :=
  let url := url request in
  if negb (Validators.is_valid_youtube_url url)
  then HTTPException 400 (py "Invalid YouTube URL")
  else if contains (py "list=") url
  then
    let '(playlist_title, videos) := service_get_playlist_info url in
    match videos with
    | [] => HTTPException 404 (py "Playlist not found or empty")
    | _ =>
        Ok {| resp_is_playlist := true;
              videos := videos;
              playlist_title := playlist_title |}
    end
  else
    match service_get_video_info url with
    | None => HTTPException 404 (py "Video not found")
    | Some video =>
        Ok {| resp_is_playlist := false;
              videos := [video];
              playlist_title := None |}
    end.

End Handlers.

(** [POST /api/download]; [uuid] is what [uuid.uuid4()] produces when the
    handler gets that far.  Returns the registry, the background work
    scheduled, and the answer. *)
Definition download_video (ts : TaskManager.tasks) (uuid : str)
  (request : DownloadRequest)
  : TaskManager.tasks * list background * result TaskResponse :=
  let url := url request in
  if negb (Validators.is_valid_youtube_url url)
  then (ts, [], HTTPException 400 (py "Invalid YouTube URL"))
  else
    let '(ts, task_id) := TaskManager.create_task ts uuid 1 in
    (ts, [BgDownloadSingleVideo url task_id],
     Ok (TaskManager.get_task ts task_id)).

(** [POST /api/download-playlist]. *)
Definition download_playlist (ts : TaskManager.tasks) (uuid : str)
  (request : PlaylistRequest)
  : TaskManager.tasks * list background * result TaskResponse :=
  match video_ids request with
  | [] => (ts, [], HTTPException 400 (py "No videos selected"))
  | _ =>
      let '(ts, task_id) :=
        TaskManager.create_task ts uuid (len (video_ids request)) in
      (ts, [BgDownloadPlaylist (video_ids request) task_id],
       Ok (TaskManager.get_task ts task_id))
  end.

(** [GET /api/task/{task_id}]. *)
Definition get_task_status (ts : TaskManager.tasks) (task_id : str)
  : result TaskResponse :=
  Ok (TaskManager.get_task ts task_id).

(** [GET /api/download-single/{task_id}/{file_index}]; [exists_] is
    [Path.exists] on the disk at the time of the request. *)
Definition download_single_from_playlist (ts : TaskManager.tasks)
  (exists_ : str -> bool) (task_id : str) (file_index : Z)
  : result (FileResponse * list background) :=
  let task := TaskManager.get_task ts task_id in
  if negb (str_eqb (value (status task)) (py "completed"))
  then HTTPException 400 (py "Task not completed")
  else
    let files := TaskManager.get_task_files ts task_id in
    if match files with [] => true | _ => false end
       || (len files <=? file_index)
    then HTTPException 404 (py "File not found")
    else
      match getitem files file_index with
      | None => Unhandled (py "IndexError")
      | Some file_path =>
          if negb (exists_ file_path)
          then HTTPException 404 (py "File not found")
          else
            let safe_filename := ascii_ignore (path_name file_path) in
            let safe_filename :=
              if truthy (Some safe_filename) then safe_filename
              else py "audio_" ++ str_of_int file_index ++ py ".mp3" in
            Ok ({| path := file_path;
                   filename := safe_filename;
                   media_type := py "audio/mpeg" |},
                [BgCleanupFile file_path 30])
      end.

End Routes.

(* ===================================================================== *)
(** ** Sequences of registry operations *)
(* ===================================================================== *)

Module Registry.

Import Models.
Import TaskManager.

(** The record [create_task] stores. *)
Definition fresh_task (total_videos : Z) : task :=
  {| status := PENDING; progress := 0; message := py "Task created";
     total_videos := total_videos; completed_videos := 0; file_paths := [] |}.

(** The answer of [get_task] for an id the registry does not hold. *)
Definition not_found (task_id : str) : TaskResponse :=
  {| Models.task_id := task_id;
     Models.status := FAILED;
     Models.message := py "Task not found";
     Models.progress := 0;
     Models.total_videos := 0;
     Models.completed_videos := 0 |}.

(** One call of [create_task] (with the id [uuid4] gave) or of
    [update_task]. *)
Inductive op :=
| Create (uuid : str) (total_videos : Z)
| Update (task_id : str) (u : update).

Definition step (ts : tasks) (o : op) : tasks :=
  match o with
  | Create uuid n => fst (create_task ts uuid n)
  | Update task_id u => update_task ts task_id u
  end.

Definition run_ops (ts : tasks) (ops : list op) : tasks :=
  fold_left step ops ts.

(** [uuid4] never repeats an id: each [Create] of the sequence gets an id
    the registry does not hold at that moment. *)
Fixpoint fresh_ids (ts : tasks) (ops : list op) : Prop :=
  match ops with
  | [] => True
  | o :: ops' =>
      match o with
      | Create uuid _ => ts !! uuid = None
      | Update _ _ => True
      end /\ fresh_ids (step ts o) ops'
  end.

(** The update of the registry's documentation, word for word: every field
    that is passed is stored, a passed file path is appended. *)
Definition update_as_documented (u : update) (t : task) : task :=
  {| status := default (status t) (u_status u);
     progress := default (progress t) (u_progress u);
     message := default (message t) (u_message u);
     total_videos := total_videos t;
     completed_videos := default (completed_videos t) (u_completed_videos u);
     file_paths :=
       match u_file_path u with
       | Some f => file_paths t ++ [f]
       | None => file_paths t
       end |}.

End Registry.

(* ===================================================================== *)
(** ** Concrete stand-ins for the outside, used to run the code *)
(* ===================================================================== *)

Module Samples.

(** A fragment of NFKD: e-acute, the fi ligature, the no-break space and
    the Roman numeral nine are decomposed, everything else is kept. *)
Definition nfkd (s : str) : str :=
  flat_map (fun c =>
    if N.eqb c 233 then [101; 769]
    else if N.eqb c 64257 then [102; 105]
    else if N.eqb c 160 then [32]
    else if N.eqb c 8552 then [73; 88]
    else [c])%N s.

Definition digit (c : N) : option Z :=
  if ((48 <=? c) && (c <=? 57))%N then Some (Z.of_N c - 48) else None.

(** The digits at the start of [s]: their value, their number, the rest. *)
Fixpoint read_digits (acc : Z) (n : nat) (s : str) : Z * nat * str :=
  match s with
  | c :: s' =>
      match digit c with
      | Some d => read_digits (10 * acc + d) (S n) s'
      | None => (acc, n, s)
      end
  | [] => (acc, n, [])
  end.

(** [float(s)] on plain decimal notation: surrounding whitespace, a sign,
    digits with an optional fraction.  Everything else is rejected. *)
Definition float_of_decimal (s : str) : option Q :=
  let s := strip s in
  let '(sign, s) :=
    match s with
    | 45%N :: s' => (-1, s')
    | 43%N :: s' => (1, s')
    | _ => (1, s)
    end in
  let '(ip, ni, rest) := read_digits 0 0 s in
  match rest with
  | [] => if Nat.eqb ni 0 then None else Some (inject_Z (sign * ip))
  | 46%N :: frac =>
      let '(fp, nf, rest') := read_digits 0 0 frac in
      match rest' with
      | [] =>
          if Nat.eqb (ni + nf) 0 then None
          else Some (Qred (Qmake (sign * (ip * 10 ^ Z.of_nat nf + fp))
                             (Z.to_pos (10 ^ Z.of_nat nf))))
      | _ => None
      end
  | _ => None
  end.

(** The integer nearest to [q], ties to the even one. *)
Definition round_half_even (q : Q) : Z :=
  let f := Qfloor q in
  match Qcompare (q - inject_Z f) (1 # 2) with
  | Lt => f
  | Gt => f + 1
  | Eq => if Z.even f then f else f + 1
  end.

(** [f"{q:.0f}"]; a negative value that rounds to zero prints [-0]. *)
Definition format_0f (q : Q) : str :=
  let n := round_half_even q in
  if (n =? 0) && negb (Qle_bool 0 q) then py "-0" else str_of_int n.

Definition downloading (percent_str : string) : YouTubeService.hook_event :=
  {| YouTubeService.h_status := YouTubeService.Downloading;
     YouTubeService.h_percent_str := Some (py percent_str) |}.

Definition finished : YouTubeService.hook_event :=
  {| YouTubeService.h_status := YouTubeService.Finished;
     YouTubeService.h_percent_str := None |}.

Definition video (id title : string) : Models.VideoInfo :=
  {| Models.id := py id; Models.title := py title; Models.duration := 0;
     Models.thumbnail := []; Models.selected := true |}.

(** A download that succeeds. *)
Definition success (title : string) : YouTubeService.outcome :=
  {| YouTubeService.o_info := Some (video "abc123" title);
     YouTubeService.o_events :=
       [downloading " 10.0%"; downloading " 12.0%"; downloading " 60.0%";
        downloading "100.0%"; finished];
     YouTubeService.o_error := None;
     YouTubeService.o_file_exists := true |}.

(** A video whose metadata cannot be fetched. *)
Definition unavailable : YouTubeService.outcome :=
  {| YouTubeService.o_info := None;
     YouTubeService.o_events := [];
     YouTubeService.o_error := None;
     YouTubeService.o_file_exists := false |}.

End Samples.

(* ===================================================================== *)
(** ** Vocabulary for the life of a task *)
(* ===================================================================== *)

Module Lifecycle.

Import Models.
Import TaskManager.
Import YouTubeService.

(** [completed] and [failed] end a task. *)
Definition terminal (s : TaskStatus) : bool :=
  match s with
  | COMPLETED | FAILED => true
  | PENDING | PROCESSING => false
  end.

(** An [update_task] call that passes a status. *)
Definition status_changing (a : action) : bool :=
  match a with
  | UpdateTask _ u => match u_status u with Some _ => true | None => false end
  | _ => false
  end.

(** The videos a workflow asked metadata for, in order. *)
Fixpoint attempted (acts : list action) : list str :=
  match acts with
  | [] => []
  | GetVideoInfo url :: acts' => url :: attempted acts'
  | _ :: acts' => attempted acts'
  end.

Definition watch_url (video_id : str) : str :=
  py "https://www.youtube.com/watch?v=" ++ video_id.

(** An item is successful when its metadata was fetched, its download
    returned, and its output file is there. *)
Definition succeeded (o : outcome) : bool :=
  match o_info o, o_error o with
  | Some _, None => o_file_exists o
  | _, _ => false
  end.

(** The number of successful items among [video_ids], the first of which
    has index [idx]. *)
Fixpoint successes (w : nat -> str -> outcome) (idx : nat)
  (video_ids : list str) : Z :=
  match video_ids with
  | [] => 0
  | video_id :: rest =>
      (if succeeded (w idx video_id) then 1 else 0)
      + successes w (S idx) rest
  end.

(** Along the actions [acts] run from [ts], task [task_id] stays in the
    registry with total [n] and never more than [n] completed videos, and
    once its status is terminal no later action passes a status. *)
Definition respects_lifecycle (task_id : str) (n : Z) (ts : tasks)
  (acts : list action) : Prop :=
  (forall ts', In ts' (states ts acts) ->
     exists t, ts' !! task_id = Some t
               /\ total_videos t = n /\ completed_videos t <= n)
  /\ (forall pre a post t,
        acts = pre ++ a :: post ->
        run ts (pre ++ [a]) !! task_id = Some t ->
        terminal (status t) = true ->
        Forall (fun a' => status_changing a' = false) post).

(** What the updates of the playlist loop look like: all for [task_id], none
    passes a status, and a completed count they pass lies between the counter
    at entry and that counter plus the number of items left. *)
Definition loop_update (task_id : str) (completed : Z) (left : nat)
  (a : action) : Prop :=
  match a with
  | UpdateTask target u =>
      target = task_id /\ u_status u = None
      /\ match u_completed_videos u with
         | Some k => completed <= k <= completed + Z.of_nat left
         | None => True
         end
  | _ => True
  end.

End Lifecycle.

(* ===================================================================== *)
(** ** Vocabulary for the progress reports *)
(* ===================================================================== *)

Module Progress.

Import TaskManager.
Import YouTubeService.

Section Levels.

Variable py_float : str -> option Q.

(** The percent a [downloading] event reports, when [float] accepts it. *)
Definition reported_percent (d : hook_event) : option Q :=
  match h_status d with
  | Downloading =>
      py_float
        (strip_char percent_sign
           (match h_percent_str d with Some s => s | None => py "0%" end))
  | _ => None
  end.

(** How far the download is according to an event: the percent a
    [downloading] event reports, 100 for a [finished] event. *)
Definition level (d : hook_event) : option Q :=
  match h_status d with
  | Downloading => reported_percent d
  | Finished => Some 100%Q
  | OtherStatus => None
  end.

Fixpoint levels (events : list hook_event) : list Q :=
  match events with
  | [] => []
  | d :: events' =>
      match level d with
      | Some l => l :: levels events'
      | None => levels events'
      end
  end.

End Levels.

(** The progress values a list of updates passes, in order. *)
Fixpoint applied_progress (us : list update) : list Q :=
  match us with
  | [] => []
  | u :: us' =>
      match u_progress u with
      | Some p => p :: applied_progress us'
      | None => applied_progress us'
      end
  end.

(** Each value is at least the one before it. *)
Definition nondecreasing (l : list Q) : Prop := Sorted Qle l.

End Progress.

(* ===================================================================== *)
(** ** Vocabulary for the URL patterns *)
(* ===================================================================== *)

Module Urls.

Import Validators.

(** The pattern has no match that starts inside [pre], in the string
    [pre ++ rest]. *)
Definition no_match_before (alts : list str) (pre rest : str) : Prop :=
  forall i, (i < length pre)%nat ->
            match_here alts (skipn i (pre ++ rest)) = None.

(** What may follow an identifier: the end of the URL or one of the
    characters that stop the capture group. *)
Definition id_ends (suf : str) : Prop :=
  match suf with
  | [] => True
  | c :: _ => in_class c = false
  end.

(** The alternatives of the first video pattern. *)
Definition watch_pattern : list str :=
  [py "youtube.com/watch?v="; py "youtu.be/"].

End Urls.

(* ===================================================================== *)
(** ** Vocabulary for file names *)
(* ===================================================================== *)

Module Filenames.

(** Every character is ASCII. *)
Definition is_ascii (s : str) : Prop := Forall (fun c => (c < 128)%N) s.

(** A word of [str.split]: not empty, no whitespace. *)
Definition word (w : str) : Prop :=
  w <> [] /\ Forall (fun c => isspace c = false) w.

(** The string does not start with whitespace. *)
Definition starts_clean (s : str) : Prop :=
  match s with
  | [] => True
  | c :: _ => isspace c = false
  end.

(** Every whitespace character is a space, and what follows it, if anything,
    is not whitespace. *)
Fixpoint single_spaced (s : str) : Prop :=
  match s with
  | [] => True
  | c :: s' =>
      (isspace c = true -> c = space /\ starts_clean s') /\ single_spaced s'
  end.

(** The loop of [sanitize_filename] over [invalid_chars], for any list of
    characters. *)
Abbreviation replace_all chars s :=
  (fold_left (fun f char => replace char Helpers.underscore f) chars s).

End Filenames.

(* ===================================================================== *)
(** ** A concrete run *)
(* ===================================================================== *)

Module Scenario.

Import Models.
Import TaskManager.

(** The registry after [POST /api/download] has created task [t] and its
    download has succeeded with the file [downloads/Song.mp3]. *)
Definition registry_after_download : tasks :=
  let '(ts, _, _) :=
    Routes.download_video ∅ (py "t")
      {| url := py "https://www.youtube.com/watch?v=abc123";
         is_playlist := false |} in
  YouTubeService.run ts
    (YouTubeService.download_single_video Samples.nfkd Samples.float_of_decimal
       Samples.format_0f (Samples.success "Song")
       (py "https://www.youtube.com/watch?v=abc123") (py "t")).

End Scenario.

(* ===================================================================== *)
(** ** app/utils/helpers.py, continued *)
(* ===================================================================== *)

Module Durations.

(** [f"{n:02d}"]: the decimal digits of [n], with its sign, padded with a
    zero on the left up to two characters. *)
Definition format_02d (n : Z) : str :=
  let s := str_of_int n in
  if (length s <? 2)%nat then py "0" ++ s else s.

(** [format_duration]; [//] and [%] round towards minus infinity, as
    [Z.div] and [Z.modulo] do for a positive divisor. *)
Definition format_duration (seconds : Z) : str :=
  let hours := seconds / 3600 in
  let minutes := (seconds mod 3600) / 60 in
  let secs := seconds mod 60 in
  if 0 <? hours
  then format_02d hours ++ py ":" ++ format_02d minutes ++ py ":"
       ++ format_02d secs
  else format_02d minutes ++ py ":" ++ format_02d secs.

End Durations.

Module Retention.

(** [settings.FILE_RETENTION_HOURS]. *)
Definition FILE_RETENTION_HOURS : Z := 1.

(** What [cleanup_old_files] meets for one entry of
    [download_dir.glob("*")]: the answer of [is_file()], the [st_mtime] of
    [stat()] ([None] when [stat] raises), and whether [unlink()] succeeds. *)
Record dir_entry := {
  e_path : str;
  e_is_file : bool;
  e_mtime : option Q;
  e_unlink_ok : bool
}.

(** The loop of [cleanup_old_files] over the entries in the order [glob]
    yields them; the result lists the files it deleted.  The [try] encloses
    the whole loop, so the first exception ends the sweep. *)
Fixpoint sweep (current_time retention_seconds : Q) (entries : list dir_entry)
  : list str :=
  match entries with
  | [] => []
  | file_path :: rest =>
      if e_is_file file_path
      then match e_mtime file_path with
           | None => []
           | Some st_mtime =>
               let file_age := (current_time - st_mtime)%Q in
               if negb (Qle_bool file_age retention_seconds)
               then if e_unlink_ok file_path
                    then e_path file_path
                         :: sweep current_time retention_seconds rest
                    else []
               else sweep current_time retention_seconds rest
           end
      else sweep current_time retention_seconds rest
  end.

Definition cleanup_old_files (current_time : Q) (entries : list dir_entry)
  : list str :=
  let retention_seconds := inject_Z (FILE_RETENTION_HOURS * 3600) in
  sweep current_time retention_seconds entries.

(** An entry the sweep is meant to delete: a regular file older than the
    retention window. *)
Definition expired (current_time : Q) (e : dir_entry) : Prop :=
  e_is_file e = true
  /\ exists st_mtime, e_mtime e = Some st_mtime
       /\ (inject_Z (FILE_RETENTION_HOURS * 3600) < current_time - st_mtime)%Q.

End Retention.

(* ===================================================================== *)
(** ** app/services/youtube_service.py, continued: the metadata lookups *)
(* ===================================================================== *)

Module Metadata.

Import Models.

(** A key of a dictionary returned by yt-dlp: missing, present with [None],
    or present with a value of the type [VideoInfo] declares for it. *)
Inductive field (A : Type) :=
| Absent
| Null
| Val (a : A).
Arguments Absent {A}.
Arguments Null {A}.
Arguments Val {A} a.

Record raw_info := {
  r_id : field str;
  r_title : field str;
  r_duration : field Z;
  r_thumbnail : field str
}.

(** [d.get(key, default)]: the default only replaces a missing key. *)
Definition get {A} (f : field A) (default : A) : option A :=
  match f with
  | Absent => Some default
  | Null => None
  | Val a => Some a
  end.

(** The construction [VideoInfo(id=info['id'], title=info['title'],
    duration=info.get('duration', 0), thumbnail=info.get('thumbnail', ''),
    selected=True)]; [None] stands for the exception raised when a required
    key is missing ([KeyError]) or a value is [None] (validation error). *)
Definition make_video_info (info : raw_info) : option VideoInfo :=
  match r_id info, r_title info with
  | Val id, Val title =>
      match get (r_duration info) 0, get (r_thumbnail info) [] with
      | Some duration, Some thumbnail =>
          Some {| id := id; title := title; duration := duration;
                  thumbnail := thumbnail; selected := true |}
      | _, _ => None
      end
  | _, _ => None
  end.

(** [get_video_info]; [extracted] is what [ydl.extract_info] returned, [None]
    when it raised. *)
Definition get_video_info (extracted : option raw_info) : option VideoInfo :=
  match extracted with
  | None => None
  | Some info => make_video_info info
  end.

(** The result of a flat extraction: the title and, if the key [entries] is
    there, the entries; an entry that is [None] or empty is [None] here. *)
Record raw_playlist := {
  p_title : field str;
  p_entries : option (list (option raw_info))
}.

(** The loop over [info['entries']]; [None] when building a [VideoInfo]
    raised. *)
Fixpoint playlist_videos (entries : list (option raw_info))
  : option (list VideoInfo) :=
  match entries with
  | [] => Some []
  | None :: rest => playlist_videos rest
  | Some entry :: rest =>
      match make_video_info entry with
      | None => None
      | Some video =>
          match playlist_videos rest with
          | None => None
          | Some videos => Some (video :: videos)
          end
      end
  end.

(** [get_playlist_info]. *)
Definition get_playlist_info (extracted : option raw_playlist)
  : option str * list VideoInfo :=
  match extracted with
  | None => (None, [])
  | Some info =>
      match p_entries info with
      | None => (None, [])
      | Some entries =>
          let playlist_title :=
            match p_title info with
            | Absent => Some (py "Playlist")
            | Null => None
            | Val t => Some t
            end in
          match playlist_videos entries with
          | None => (None, [])
          | Some videos => (playlist_title, videos)
          end
      end
  end.

(** The entries that are not empty. *)
Fixpoint present (entries : list (option raw_info)) : list raw_info :=
  match entries with
  | [] => []
  | None :: rest => present rest
  | Some entry :: rest => entry :: present rest
  end.

End Metadata.

(* ===================================================================== *)
(** ** app/api/routes.py, continued *)
(* ===================================================================== *)

Module Downloads.

Import Models.
Import Routes.

(** What [GET /api/download-file/{task_id}] answers with: one file, or the
    HTML page of links.  The page is a fixed template; it is given here by
    the values put into it: the number of recorded files, the task id, and
    for each file that exists its number (from one) and its path.  The link
    of the item numbered [idx] is
    [/api/download-single/{task_id}/{idx-1}]. *)
Inductive download :=
| Stream (response : FileResponse)
| Page (n_files : Z) (task_id : str) (items : list (Z * str)).

(** The loop [for idx, file_path in enumerate(files, 1)]. *)
Fixpoint page_items (exists_ : str -> bool) (idx : Z) (files : list str)
  : list (Z * str) :=
  match files with
  | [] => []
  | file_path :: rest =>
      if exists_ file_path
      then (idx, file_path) :: page_items exists_ (idx + 1) rest
      else page_items exists_ (idx + 1) rest
  end.

(** [GET /api/download-file/{task_id}]. *)
Definition download_file (ts : TaskManager.tasks) (exists_ : str -> bool)
  (task_id : str) : result (download * list background) :=
  let task := TaskManager.get_task ts task_id in
  if negb (str_eqb (value (status task)) (py "completed"))
  then HTTPException 400 (py "Task not completed")
  else
    let files := TaskManager.get_task_files ts task_id in
    match files with
    | [] => HTTPException 404 (py "No files found")
    | [file_path] =>
        if negb (exists_ file_path)
        then HTTPException 404 (py "File not found: " ++ path_name file_path)
        else
          let safe_filename := ascii_ignore (path_name file_path) in
          let safe_filename :=
            if truthy (Some safe_filename) then safe_filename
            else py "audio_" ++ task_id ++ py ".mp3" in
          Ok (Stream {| path := file_path;
                        filename := safe_filename;
                        media_type := py "audio/mpeg" |},
              [BgCleanupFile file_path 10])
    | _ => Ok (Page (len files) task_id (page_items exists_ 1 files), [])
    end.

End Downloads.

(* ===================================================================== *)
(** ** Vocabulary for what a workflow leaves behind *)
(* ===================================================================== *)

Module Outcomes.

Import Models.
Import TaskManager.
Import YouTubeService.

(** The file [download_dir / f"{filename}.{AUDIO_FORMAT}"] of a video with
    the given title. *)
Definition final_file (nfkd : str -> str) (title : str) : str :=
  Config.in_download_dir
    (Helpers.sanitize_filename nfkd title ++ py "." ++ Config.AUDIO_FORMAT).

(** The final files of the successful items of a playlist, in order. *)
Fixpoint produced_files (nfkd : str -> str) (w : nat -> str -> outcome)
  (idx : nat) (video_ids : list str) : list str :=
  match video_ids with
  | [] => []
  | video_id :: rest =>
      match o_info (w idx video_id), o_error (w idx video_id) with
      | Some video_info, None =>
          if o_file_exists (w idx video_id)
          then final_file nfkd (title video_info)
               :: produced_files nfkd w (S idx) rest
          else produced_files nfkd w (S idx) rest
      | _, _ => produced_files nfkd w (S idx) rest
      end
  end.

(** The [update_task] calls among the actions of a workflow. *)
Fixpoint updates_of (acts : list action) : list update :=
  match acts with
  | [] => []
  | UpdateTask _ u :: acts' => u :: updates_of acts'
  | _ :: acts' => updates_of acts'
  end.

(** Every [update_task] call of the actions is for [task_id]. *)
Definition only_for (task_id : str) (acts : list action) : Prop :=
  Forall (fun a => match a with
                   | UpdateTask target _ => target = task_id
                   | _ => True
                   end) acts.

End Outcomes.

(* ===================================================================== *)
(** * Properties *)
(* ===================================================================== *)

Import Models.
Import TaskManager.
Import Registry.

(** ** The task registry *)

Section RegistryFacts.

Implicit Types (ts : tasks) (t : task) (u : update) (task_id : str).

Lemma update_task_known ts task_id u t :
  ts !! task_id = Some t ->
  update_task ts task_id u !! task_id = Some (apply_update u t).
Proof.
  intros Hin. unfold update_task. rewrite Hin. apply lookup_insert_eq.
Qed.

Lemma update_task_other ts task_id other u :
  other <> task_id ->
  update_task ts task_id u !! other = ts !! other.
Proof.
  intros Hne. unfold update_task.
  destruct (ts !! task_id); [|reflexivity].
  apply lookup_insert_ne. congruence.
Qed.

Lemma update_task_unknown ts task_id u :
  ts !! task_id = None -> update_task ts task_id u = ts.
Proof. intros Hout. unfold update_task. now rewrite Hout. Qed.

Lemma cleanup_task_gone ts task_id : cleanup_task ts task_id !! task_id = None.
Proof.
  unfold cleanup_task. destruct (ts !! task_id) eqn:E; [|exact E].
  apply lookup_delete_eq.
Qed.

Lemma cleanup_task_other ts task_id other :
  other <> task_id -> cleanup_task ts task_id !! other = ts !! other.
Proof.
  intros Hne. unfold cleanup_task. destruct (ts !! task_id); [|reflexivity].
  apply lookup_delete_ne. congruence.
Qed.

(** The file list after [apply_update]: unchanged, or one path longer. *)
Lemma apply_update_file_paths u t :
  file_paths (apply_update u t) =
    if truthy (u_file_path u)
    then file_paths t ++ [default [] (u_file_path u)]
    else file_paths t.
Proof.
  destruct u as [[s|] [p|] [[|mc m]|] [c|] [[|fc f]|]]; exact eq_refl.
Qed.

Lemma apply_update_total_videos u t :
  total_videos (apply_update u t) = total_videos t.
Proof.
  destruct u as [[s|] [p|] [[|mc m]|] [c|] [[|fc f]|]]; exact eq_refl.
Qed.

Lemma apply_update_status u t :
  status (apply_update u t) = default (status t) (u_status u).
Proof.
  destruct u as [[s|] [p|] [[|mc m]|] [c|] [[|fc f]|]]; exact eq_refl.
Qed.

Lemma apply_update_completed_videos u t :
  completed_videos (apply_update u t) =
    default (completed_videos t) (u_completed_videos u).
Proof.
  destruct u as [[s|] [p|] [[|mc m]|] [c|] [[|fc f]|]]; exact eq_refl.
Qed.

Lemma apply_update_progress u t :
  progress (apply_update u t) = default (progress t) (u_progress u).
Proof.
  destruct u as [[s|] [p|] [[|mc m]|] [c|] [[|fc f]|]]; exact eq_refl.
Qed.

Lemma apply_update_message u t :
  message (apply_update u t) =
    if truthy (u_message u) then default [] (u_message u) else message t.
Proof.
  destruct u as [[s|] [p|] [[|mc m]|] [c|] [[|fc f]|]]; exact eq_refl.
Qed.

(** A step of the registry keeps every record it holds, and its file list
    is a prefix of the new one, provided a [Create] gets a new id. *)
Lemma step_file_paths ts o task_id t :
  ts !! task_id = Some t ->
  match o with Create uuid _ => ts !! uuid = None | Update _ _ => True end ->
  exists t', step ts o !! task_id = Some t'
             /\ file_paths t `prefix_of` file_paths t'.
Proof.
  intros Hin Hfresh. destruct o as [uuid n | other u]; simpl.
  - exists t. split; [|reflexivity].
    rewrite lookup_insert_ne; [exact Hin|]. intros ->. congruence.
  - destruct (decide (task_id = other)) as [->|Hne].
    + exists (apply_update u t). split; [now apply update_task_known|].
      rewrite apply_update_file_paths.
      destruct (truthy (u_file_path u)); [|reflexivity].
      now apply prefix_app_r.
    + exists t. split; [|reflexivity].
      now rewrite update_task_other.
Qed.

Lemma run_ops_file_paths ops : forall ts task_id t,
  fresh_ids ts ops ->
  ts !! task_id = Some t ->
  exists t', run_ops ts ops !! task_id = Some t'
             /\ file_paths t `prefix_of` file_paths t'.
Proof.
  induction ops as [|o ops IH]; intros ts task_id t Hfresh Hin.
  - exists t. split; [exact Hin | reflexivity].
  - destruct Hfresh as [Ho Hrest].
    destruct (step_file_paths ts o task_id t Hin Ho) as (t1 & Hin1 & Hpre1).
    destruct (IH (step ts o) task_id t1 Hrest Hin1) as (t2 & Hin2 & Hpre2).
    exists t2. split; [exact Hin2|]. now transitivity (file_paths t1).
Qed.

End RegistryFacts.

(** C3. [get_task] on an id the registry does not hold (never created, or
    removed by [cleanup_task]) returns the response with status [FAILED] and
    message "Task not found"; it is a total function, so nothing is raised,
    and the handler of [GET /api/task/{task_id}] returns that response instead
    of raising an [HTTPException]. *)
Theorem get_task_unknown_id (ts ts' : tasks) (task_id : str) :
  ts !! task_id = None ->
  get_task ts task_id = not_found task_id
  /\ get_task (cleanup_task ts' task_id) task_id = not_found task_id
  /\ get_task (∅ : tasks) task_id = not_found task_id
  /\ Models.status (get_task ts task_id) = FAILED
  /\ Models.message (get_task ts task_id) = py "Task not found"
  /\ Routes.get_task_status ts task_id = Routes.Ok (not_found task_id)
  /\ Routes.get_task_status (cleanup_task ts' task_id) task_id
     = Routes.Ok (not_found task_id).
Proof.
  intros Hout.
  assert (Hget : forall r : tasks, r !! task_id = None ->
                 get_task r task_id = not_found task_id).
  { intros r Hr. unfold get_task. now rewrite Hr. }
  pose proof (cleanup_task_gone ts' task_id) as Hgone.
  unfold Routes.get_task_status.
  rewrite !(Hget ts Hout), !(Hget _ Hgone), (Hget ∅ (lookup_empty _)).
  repeat split; reflexivity.
Qed.

Lemma get_task_unknown_id_witness :
  let ts : tasks := <[py "a" := fresh_task 1]> ∅ in
  get_task ts (py "b") = not_found (py "b")
  /\ Routes.get_task_status (cleanup_task ts (py "a")) (py "a")
     = Routes.Ok (not_found (py "a")).
Proof.
  intros ts.
  assert (Hb : ts !! py "b" = None) by (vm_compute; reflexivity).
  assert (Ha : (∅ : tasks) !! py "a" = None) by apply lookup_empty.
  split.
  - exact (proj1 (get_task_unknown_id ts ts (py "b") Hb)).
  - exact (proj2 (proj2 (proj2 (proj2 (proj2 (proj2
             (get_task_unknown_id ∅ ts (py "a") Ha))))))).
Defined.

(** C4, as documented, fails for an empty message: [update_task(id,
    message="")] passes the message field, yet [if message:] skips the
    assignment and the stored message stays "Task created" (and likewise an
    empty file path is not appended). *)
Lemma update_task_as_documented_counterexample :
  ~ (forall (ts : tasks) (task_id : str) (u : update) (t : task),
        ts !! task_id = Some t ->
        update_task ts task_id u !! task_id = Some (update_as_documented u t)).
Proof.
  intros H.
  specialize (H (<[py "t" := fresh_task 1]> ∅) (py "t")
                {| u_status := None; u_progress := None; u_message := Some [];
                   u_completed_videos := None; u_file_path := None |}
                (fresh_task 1) (lookup_insert_eq _ _ _)).
  rewrite (update_task_known _ _ _ _ (lookup_insert_eq _ _ _)) in H.
  vm_compute in H. discriminate H.
Qed.

(** C4, amended.  On a known task, [update_task] stores the status, the
    progress and the completed count whenever they are passed, and the message
    only when it is passed and not empty; a file path that is passed and not empty
    is appended at the end of the file list, which is otherwise kept; the total
    and the records of all other tasks are kept.  On an unknown id the call
    returns normally and leaves the registry as it was. *)
Theorem update_task_frame (ts : tasks) (task_id : str) (u : update) :
  (forall t, ts !! task_id = Some t ->
     exists t', update_task ts task_id u !! task_id = Some t'
       /\ status t' = default (status t) (u_status u)
       /\ progress t' = default (progress t) (u_progress u)
       /\ message t' =
            (if truthy (u_message u) then default [] (u_message u)
             else message t)
       /\ completed_videos t' =
            default (completed_videos t) (u_completed_videos u)
       /\ file_paths t' =
            (if truthy (u_file_path u)
             then file_paths t ++ [default [] (u_file_path u)]
             else file_paths t)
       /\ total_videos t' = total_videos t)
  /\ (forall other, other <> task_id ->
        update_task ts task_id u !! other = ts !! other)
  /\ (ts !! task_id = None -> update_task ts task_id u = ts).
Proof.
  split; [|split].
  - intros t Hin. exists (apply_update u t).
    split; [now apply update_task_known|].
    rewrite apply_update_status, apply_update_progress, apply_update_message,
      apply_update_completed_videos, apply_update_file_paths,
      apply_update_total_videos.
    repeat split; reflexivity.
  - intros other Hne. now apply update_task_other.
  - apply update_task_unknown.
Qed.

Lemma update_task_frame_witness :
  exists t',
    update_task (<[py "t" := fresh_task 2]> ∅) (py "t")
      {| u_status := None; u_progress := Some (50 # 1);
         u_message := None; u_completed_videos := Some 1;
         u_file_path := Some (py "downloads/a.mp3") |} !! py "t" = Some t'
    /\ status t' = PENDING
    /\ message t' = py "Task created"
    /\ completed_videos t' = 1
    /\ file_paths t' = [py "downloads/a.mp3"]
    /\ update_task (∅ : tasks) (py "t") YouTubeService.no_update = ∅.
Proof.
  destruct (update_task_frame (<[py "t" := fresh_task 2]> ∅) (py "t")
      {| u_status := None; u_progress := Some (50 # 1);
         u_message := None; u_completed_videos := Some 1;
         u_file_path := Some (py "downloads/a.mp3") |})
    as [Hknown _].
  destruct (Hknown (fresh_task 2) (lookup_insert_eq _ _ _))
    as (t' & Hin & Hs & _ & Hm & Hc & Hf & _).
  exists t'. repeat split; assumption || reflexivity.
Defined.

(** C10.  The file list of a task only grows at its end: [create_task]
    stores an empty list; an [update_task] call leaves the list of every task
    as it was or appends exactly one path to it; hence over any sequence of
    [create_task] and [update_task] calls (each [create_task] getting a new
    id, as [uuid4] provides) the record stays in the registry and its earlier
    list is a prefix of its later one.  [cleanup_task] removes the record, and
    only that record. *)
Theorem file_paths_append_only (ts : tasks) (task_id : str) (t : task) :
  ts !! task_id = Some t ->
  (forall uuid n,
     fst (create_task ts uuid n) !! uuid = Some (fresh_task n)
     /\ file_paths (fresh_task n) = [])
  /\ (forall other u,
        exists t', update_task ts other u !! task_id = Some t'
          /\ (file_paths t' = file_paths t
              \/ exists f, file_paths t' = file_paths t ++ [f]))
  /\ (forall ops, fresh_ids ts ops ->
        exists t', run_ops ts ops !! task_id = Some t'
          /\ file_paths t `prefix_of` file_paths t')
  /\ cleanup_task ts task_id !! task_id = None
  /\ (forall other, other <> task_id ->
        cleanup_task ts task_id !! other = ts !! other).
Proof.
  intros Hin. repeat split.
  - apply lookup_insert_eq.
  - intros other u. destruct (decide (task_id = other)) as [->|Hne].
    + exists (apply_update u t). split; [now apply update_task_known|].
      rewrite apply_update_file_paths.
      destruct (truthy (u_file_path u)); [right; eauto | left; reflexivity].
    + exists t. split; [now rewrite update_task_other | now left].
  - intros ops Hfresh. now apply run_ops_file_paths.
  - apply cleanup_task_gone.
  - apply cleanup_task_other.
Qed.

Lemma file_paths_append_only_witness :
  exists t',
    run_ops (<[py "t" := fresh_task 2]> ∅)
      [Update (py "t")
         {| u_status := None; u_progress := None; u_message := None;
            u_completed_videos := Some 1;
            u_file_path := Some (py "downloads/a.mp3") |};
       Create (py "s") 1;
       Update (py "t")
         {| u_status := None; u_progress := None; u_message := None;
            u_completed_videos := Some 2;
            u_file_path := Some (py "downloads/b.mp3") |}] !! py "t" = Some t'
    /\ file_paths (fresh_task 2) `prefix_of` file_paths t'.
Proof.
  refine (proj1 (proj2 (proj2
    (file_paths_append_only (<[py "t" := fresh_task 2]> ∅) (py "t")
       (fresh_task 2) (lookup_insert_eq _ _ _)))) _ _).
  vm_compute. repeat split; reflexivity.
Defined.

(** ** The HTTP handlers *)

(** C9.  Two requests with the same URL get the same treatment from
    [POST /api/info] and from [POST /api/download], whatever their
    [is_playlist] fields: the same answer, the same registry, the same
    background work.  Whether [POST /api/info] answers for a playlist is
    decided by the substring [list=] of the URL alone. *)
Theorem is_playlist_never_consulted
  (service_get_playlist_info : str -> option str * list VideoInfo)
  (service_get_video_info : str -> option VideoInfo)
  (ts : tasks) (uuid : str) (r1 r2 : DownloadRequest) :
  url r1 = url r2 ->
  Routes.get_video_info service_get_playlist_info service_get_video_info r1
  = Routes.get_video_info service_get_playlist_info service_get_video_info r2
  /\ Routes.download_video ts uuid r1 = Routes.download_video ts uuid r2
  /\ (forall resp,
        Routes.get_video_info service_get_playlist_info service_get_video_info r1
        = Routes.Ok resp ->
        resp_is_playlist resp = contains (py "list=") (url r1)).
Proof.
  intros Hurl. unfold Routes.get_video_info, Routes.download_video.
  rewrite <- Hurl. repeat split.
  intros resp.
  destruct (Validators.is_valid_youtube_url (url r1)); simpl; [|discriminate].
  destruct (contains (py "list=") (url r1)).
  - destruct (service_get_playlist_info (url r1)) as [pt [|v vs]];
      [discriminate|]. now intros [= <-].
  - destruct (service_get_video_info (url r1)); [|discriminate].
    now intros [= <-].
Qed.

Lemma is_playlist_never_consulted_witness :
  Routes.get_video_info (fun _ => (None, [])) (fun _ => Some (Samples.video "abc123" "T"))
    {| url := py "https://www.youtube.com/watch?v=abc123"; is_playlist := true |}
  = Routes.get_video_info (fun _ => (None, [])) (fun _ => Some (Samples.video "abc123" "T"))
    {| url := py "https://www.youtube.com/watch?v=abc123"; is_playlist := false |}.
Proof.
  exact (proj1 (is_playlist_never_consulted
    (fun _ => (None, [])) (fun _ => Some (Samples.video "abc123" "T")) ∅ []
    {| url := py "https://www.youtube.com/watch?v=abc123"; is_playlist := true |}
    {| url := py "https://www.youtube.com/watch?v=abc123"; is_playlist := false |}
    eq_refl)).
Defined.

(** C6 for indices from zero on: the handler answers 400 unless the task is
    completed, 404 when the index is past the end of the file list or the file
    is gone, and otherwise returns the file as [audio/mpeg] and schedules
    [cleanup_file] with a delay of 30. *)
Lemma download_single_from_playlist_nonnegative
  (ts : tasks) (exists_ : str -> bool) (task_id : str) (file_index : Z) :
  0 <= file_index ->
  let r := Routes.download_single_from_playlist ts exists_ task_id file_index in
  let files := get_task_files ts task_id in
  (Models.status (get_task ts task_id) <> COMPLETED ->
     r = Routes.HTTPException 400 (py "Task not completed"))
  /\ (Models.status (get_task ts task_id) = COMPLETED ->
      len files <= file_index ->
      r = Routes.HTTPException 404 (py "File not found"))
  /\ (forall file_path,
        Models.status (get_task ts task_id) = COMPLETED ->
        nth_error files (Z.to_nat file_index) = Some file_path ->
        (exists_ file_path = false ->
           r = Routes.HTTPException 404 (py "File not found"))
        /\ (exists_ file_path = true ->
            exists name,
              r = Routes.Ok ({| Routes.path := file_path;
                                Routes.filename := name;
                                Routes.media_type := py "audio/mpeg" |},
                             [Routes.BgCleanupFile file_path 30]))).
Proof.
  intros Hnn r files. subst r. unfold Routes.download_single_from_playlist.
  fold files. split; [|split].
  - intros Hst. destruct (Models.status (get_task ts task_id));
      try reflexivity. congruence.
  - intros -> Hlen. simpl.
    replace (len files <=? file_index) with true
      by (symmetry; now apply Z.leb_le).
    now rewrite orb_true_r.
  - intros file_path -> Hnth. simpl.
    assert (Hlt : file_index < len files).
    { unfold len.
      assert (Z.to_nat file_index < length files)%nat
        by (apply nth_error_Some; congruence). lia. }
    destruct files as [|f0 fs] eqn:Ef; [destruct (Z.to_nat file_index); discriminate|].
    simpl orb.
    replace (len (f0 :: fs) <=? file_index) with false
      by (symmetry; apply Z.leb_gt; exact Hlt).
    unfold getitem.
    replace ((0 <=? file_index) && (file_index <? Z.of_nat (length (f0 :: fs))))
      with true
      by (symmetry; apply andb_true_iff; split;
          [now apply Z.leb_le | now apply Z.ltb_lt]).
    rewrite Hnth. split; intros ->; simpl; [reflexivity|eauto].
Qed.

(** C6, where the code departs from it: a negative index is not rejected.
    For the completed task [t] with the one file [downloads/Song.mp3], index
    [-1] is served that file (Python counts a negative index from the end),
    and index [-2] escapes as an [IndexError], neither being the 404 the
    check [file_index >= len(files)] is there to give. *)
Theorem download_single_from_playlist_negative_index :
  get_task_files Scenario.registry_after_download (py "t") = [py "downloads/Song.mp3"]
  /\ Routes.download_single_from_playlist Scenario.registry_after_download
       (fun _ => true) (py "t") (-1)
     = Routes.Ok ({| Routes.path := py "downloads/Song.mp3";
                     Routes.filename := py "Song.mp3";
                     Routes.media_type := py "audio/mpeg" |},
                  [Routes.BgCleanupFile (py "downloads/Song.mp3") 30])
  /\ Routes.download_single_from_playlist Scenario.registry_after_download
       (fun _ => true) (py "t") (-2)
     = Routes.Unhandled (py "IndexError").
Proof. vm_compute. repeat split. Qed.

(** ** The download workflows *)

Import YouTubeService.
Import Lifecycle.

Section WorkflowFacts.

Implicit Types (ts : tasks) (t : task) (acts : list action) (task_id : str).

Lemma run_app ts acts1 acts2 :
  run ts (acts1 ++ acts2) = run (run ts acts1) acts2.
Proof. apply fold_left_app. Qed.

Lemma run_cons ts a acts : run ts (a :: acts) = run (exec ts a) acts.
Proof. reflexivity. Qed.

(** An action keeps a known task in the registry. *)
Lemma exec_known ts a task_id t :
  ts !! task_id = Some t ->
  exists t', exec ts a !! task_id = Some t'
    /\ total_videos t' = total_videos t
    /\ match a with
       | UpdateTask target u =>
           if decide (target = task_id) then t' = apply_update u t else t' = t
       | _ => t' = t
       end.
Proof.
  intros Hin. destruct a as [u0|u0 o0|p0|target u]; simpl; eauto.
  destruct (decide (target = task_id)) as [->|Hne].
  - exists (apply_update u t).
    rewrite (update_task_known _ _ _ _ Hin), apply_update_total_videos. auto.
  - exists t. rewrite update_task_other by congruence. auto.
Qed.

(** An invariant of the record of [task_id] that every action of [acts]
    keeps holds in every state of the run. *)
Lemma states_invariant (P : task -> Prop) task_id acts : forall ts,
  (exists t, ts !! task_id = Some t /\ P t) ->
  Forall (fun a => match a with
                   | UpdateTask _ u => forall t, P t -> P (apply_update u t)
                   | _ => True
                   end) acts ->
  forall ts', In ts' (states ts acts) -> exists t, ts' !! task_id = Some t /\ P t.
Proof.
  induction acts as [|a acts IH]; intros ts (t & Hin & HP) Hall ts' Hts'.
  - destruct Hts' as [<-|[]]. eauto.
  - inversion Hall as [|? ? Ha Hrest]; subst.
    destruct Hts' as [<-|Hts']; [eauto|].
    apply (IH (exec ts a)); [|exact Hrest|exact Hts'].
    destruct (exec_known ts a task_id t Hin) as (t' & Hin' & _ & Ht').
    exists t'. split; [exact Hin'|].
    destruct a as [u0|u0 o0|p0|target u]; subst; try assumption.
    destruct (decide (target = task_id)); subst; auto.
Qed.

(** Actions that pass no status leave the status where it was. *)
Lemma run_quiet task_id acts : forall ts t,
  ts !! task_id = Some t ->
  Forall (fun a => status_changing a = false) acts ->
  exists t', run ts acts !! task_id = Some t' /\ status t' = status t.
Proof.
  induction acts as [|a acts IH]; intros ts t Hin Hq; [eauto|].
  inversion Hq as [|? ? Ha Hrest]; subst.
  destruct (exec_known ts a task_id t Hin) as (t1 & Hin1 & _ & Ht1).
  destruct (IH (exec ts a) t1 Hin1 Hrest) as (t2 & Hin2 & Hst2).
  exists t2. split; [exact Hin2|]. rewrite Hst2.
  destruct a as [u0|u0 o0|p0|target u]; subst; try reflexivity.
  destruct (decide (target = task_id)); subst; [|reflexivity].
  rewrite apply_update_status. simpl in Ha.
  destruct (u_status u); [discriminate|reflexivity].
Qed.

(** A workflow that passes [PROCESSING] first and no status afterwards until
    its last action cannot pass a status after a terminal one. *)
Lemma one_terminal_update ts task_id t u0 mid final :
  ts !! task_id = Some t ->
  u_status u0 = Some PROCESSING ->
  Forall (fun a => status_changing a = false) mid ->
  forall pre a post t',
    UpdateTask task_id u0 :: mid ++ [final] = pre ++ a :: post ->
    run ts (pre ++ [a]) !! task_id = Some t' ->
    terminal (status t') = true ->
    Forall (fun a' => status_changing a' = false) post.
Proof.
  intros Hin Hu0 Hmid pre a post t' Hsplit Hrun Hterm.
  induction post as [|x post' _] using rev_ind; [constructor|].
  exfalso.
  assert (Hpre : UpdateTask task_id u0 :: mid = pre ++ a :: post').
  { change (UpdateTask task_id u0 :: mid ++ [final])
      with ((UpdateTask task_id u0 :: mid) ++ [final]) in Hsplit.
    change (pre ++ a :: post' ++ [x]) with (pre ++ (a :: post') ++ [x]) in Hsplit.
    rewrite app_assoc in Hsplit.
    apply app_inj_tail in Hsplit. tauto. }
  assert (Hfirst : exists m, pre ++ [a] = UpdateTask task_id u0 :: m
                             /\ Forall (fun a => status_changing a = false) m).
  { destruct pre as [|p pre']; simpl in Hpre.
    - injection Hpre as <- _. exists []. split; [reflexivity|constructor].
    - injection Hpre as <- Hmid'. exists (pre' ++ [a]). split; [reflexivity|].
      rewrite Hmid' in Hmid. apply Forall_app in Hmid as [Hp Ha].
      apply Forall_app. split; [exact Hp|].
      inversion Ha; subst. now repeat constructor. }
  destruct Hfirst as (m & Hm & Hquiet). rewrite Hm in Hrun. simpl in Hrun.
  unfold run in Hrun. simpl in Hrun.
  pose proof (update_task_known ts task_id u0 t Hin) as Hin1.
  destruct (run_quiet task_id m _ _ Hin1 Hquiet) as (t2 & Hin2 & Hst2).
  unfold run in Hin2. rewrite Hin2 in Hrun. injection Hrun as <-.
  rewrite Hst2, apply_update_status, Hu0 in Hterm. discriminate.
Qed.

End WorkflowFacts.

Section PlaylistFacts.

Variable nfkd : str -> str.
Variable w : nat -> str -> outcome.
Variable task_id : str.
Variable total : Z.

(** Case analysis on what the outside answered for the item at the head of
    the list, exposing the recursive call of the loop. *)
Ltac item_cases idx video_id rest completed :=
  cbn [playlist_loop successes]; unfold succeeded;
  destruct (o_info (w idx video_id)) as [video_info|];
  [destruct (o_error (w idx video_id)) as [e|];
   [|destruct (o_file_exists (w idx video_id))]|].

(** What the loop adds to the counter. *)
Lemma playlist_loop_completed video_ids : forall idx completed,
  snd (playlist_loop nfkd w task_id total idx video_ids completed)
  = completed + successes w idx video_ids.
Proof.
  induction video_ids as [|video_id rest IH]; intros idx completed.
  - simpl. lia.
  - item_cases idx video_id rest completed.
    + specialize (IH (S idx) completed).
      destruct (playlist_loop nfkd w task_id total (S idx) rest completed).
      cbn [fst snd attempted app length] in *. lia.
    + specialize (IH (S idx) (completed + 1)).
      destruct (playlist_loop nfkd w task_id total (S idx) rest (completed + 1)).
      cbn [fst snd attempted app length] in *. lia.
    + specialize (IH (S idx) completed).
      destruct (playlist_loop nfkd w task_id total (S idx) rest completed).
      cbn [fst snd attempted app length] in *. lia.
    + specialize (IH (S idx) completed).
      destruct (playlist_loop nfkd w task_id total (S idx) rest completed).
      cbn [fst snd attempted app length] in *. lia.
Qed.

Lemma successes_bounds video_ids : forall idx,
  0 <= successes w idx video_ids <= len video_ids.
Proof.
  unfold len. induction video_ids as [|video_id rest IH]; intros idx.
  - simpl. lia.
  - cbn [successes length]. specialize (IH (S idx)).
    destruct (succeeded (w idx video_id)); lia.
Qed.

Lemma attempted_app acts1 acts2 :
  attempted (acts1 ++ acts2) = attempted acts1 ++ attempted acts2.
Proof.
  induction acts1 as [|a acts1 IH]; [reflexivity|].
  destruct a; simpl; now rewrite IH.
Qed.

(** Every item is asked for, in order, whatever happened to the others. *)
Lemma playlist_loop_attempted video_ids : forall idx completed,
  attempted (fst (playlist_loop nfkd w task_id total idx video_ids completed))
  = List.map watch_url video_ids.
Proof.
  induction video_ids as [|video_id rest IH]; intros idx completed;
    [reflexivity|].
  item_cases idx video_id rest completed.
  - specialize (IH (S idx) completed).
    destruct (playlist_loop nfkd w task_id total (S idx) rest completed).
    cbn [fst snd attempted app length] in *. now rewrite IH.
  - specialize (IH (S idx) (completed + 1)).
    destruct (playlist_loop nfkd w task_id total (S idx) rest (completed + 1)).
    cbn [fst snd attempted app length] in *. now rewrite IH.
  - specialize (IH (S idx) completed).
    destruct (playlist_loop nfkd w task_id total (S idx) rest completed).
    cbn [fst snd attempted app length] in *. now rewrite IH.
  - specialize (IH (S idx) completed).
    destruct (playlist_loop nfkd w task_id total (S idx) rest completed).
    cbn [fst snd attempted app length] in *. now rewrite IH.
Qed.

Lemma loop_update_weaken c1 n1 c2 n2 a :
  c2 <= c1 -> c1 + Z.of_nat n1 <= c2 + Z.of_nat n2 ->
  loop_update task_id c1 n1 a -> loop_update task_id c2 n2 a.
Proof.
  intros Hc Hn. destruct a as [| | |target u]; simpl; auto.
  intros (Ht & Hs & Hk). repeat split; auto.
  destruct (u_completed_videos u); [lia|exact I].
Qed.

Lemma playlist_loop_updates video_ids : forall idx completed,
  Forall (loop_update task_id completed (length video_ids))
    (fst (playlist_loop nfkd w task_id total idx video_ids completed)).
Proof.
  induction video_ids as [|video_id rest IH]; intros idx completed;
    [constructor|].
  item_cases idx video_id rest completed.
  - specialize (IH (S idx) completed).
    destruct (playlist_loop nfkd w task_id total (S idx) rest completed).
    cbn [fst snd attempted app length] in *. repeat (constructor; [simpl; auto|]).
    eapply Forall_impl; [exact IH|].
    intros a. apply loop_update_weaken; lia.
  - specialize (IH (S idx) (completed + 1)).
    destruct (playlist_loop nfkd w task_id total (S idx) rest (completed + 1)).
    cbn [fst snd attempted app length] in *. repeat (constructor; [simpl; auto; repeat split; auto; lia|]).
    eapply Forall_impl; [exact IH|].
    intros a. apply loop_update_weaken; lia.
  - specialize (IH (S idx) completed).
    destruct (playlist_loop nfkd w task_id total (S idx) rest completed).
    cbn [fst snd attempted app length] in *. repeat (constructor; [simpl; auto|]).
    eapply Forall_impl; [exact IH|].
    intros a. apply loop_update_weaken; lia.
  - specialize (IH (S idx) completed).
    destruct (playlist_loop nfkd w task_id total (S idx) rest completed).
    cbn [fst snd attempted app length] in *. repeat (constructor; [simpl; auto|]).
    eapply Forall_impl; [exact IH|].
    intros a. apply loop_update_weaken; lia.
Qed.

Lemma exec_update_known (ts : tasks) (u : update) (t : task) :
  ts !! task_id = Some t ->
  exec ts (UpdateTask task_id u) !! task_id = Some (apply_update u t).
Proof. apply update_task_known. Qed.

(** The record of the task after the loop: the status is untouched, and the
    completed count is the counter's final value as soon as one item
    succeeded. *)
Lemma playlist_loop_effect video_ids : forall idx completed (ts : tasks) t,
  ts !! task_id = Some t ->
  exists t',
    run ts (fst (playlist_loop nfkd w task_id total idx video_ids completed))
      !! task_id = Some t'
    /\ status t' = status t
    /\ completed_videos t' =
         (if successes w idx video_ids =? 0 then completed_videos t
          else completed + successes w idx video_ids).
Proof.
  induction video_ids as [|video_id rest IH]; intros idx completed ts t Hin.
  - exists t. cbn [playlist_loop fst run fold_left successes]. auto.
  - pose proof (successes_bounds rest (S idx)) as Hb.
    item_cases idx video_id rest completed.
    + match goal with |- context [UpdateTask task_id ?u] =>
        pose proof (exec_update_known ts u t Hin) as Hin1;
        destruct (IH (S idx) completed _ _ Hin1) as (t' & Hrun & Hst & Hc)
      end.
      destruct (playlist_loop nfkd w task_id total (S idx) rest completed).
      exists t'. cbn [fst snd run fold_left exec app] in *.
      rewrite Hrun, Hst, Hc, apply_update_status, apply_update_completed_videos.
      auto.
    + match goal with |- context [UpdateTask task_id ?u :: YdlDownload _ _ :: _] =>
        pose proof (exec_update_known ts u t Hin) as Hin1
      end.
      match goal with |- context [FileExists _ :: UpdateTask task_id ?u :: _] =>
        pose proof (exec_update_known _ u _ Hin1) as Hin2;
        destruct (IH (S idx) (completed + 1) _ _ Hin2) as (t' & Hrun & Hst & Hc)
      end.
      destruct (playlist_loop nfkd w task_id total (S idx) rest (completed + 1)).
      exists t'. cbn [fst snd run fold_left exec app] in *.
      rewrite Hrun, Hst, Hc, !apply_update_status,
        !apply_update_completed_videos.
      cbn [u_status u_completed_videos default from_option].
      repeat split; auto.
      destruct (successes w (S idx) rest =? 0) eqn:E0.
      * apply Z.eqb_eq in E0. rewrite E0. simpl. lia.
      * replace (1 + successes w (S idx) rest =? 0) with false
          by (symmetry; apply Z.eqb_neq; lia). lia.
    + match goal with |- context [UpdateTask task_id ?u] =>
        pose proof (exec_update_known ts u t Hin) as Hin1;
        destruct (IH (S idx) completed _ _ Hin1) as (t' & Hrun & Hst & Hc)
      end.
      destruct (playlist_loop nfkd w task_id total (S idx) rest completed).
      exists t'. cbn [fst snd run fold_left exec app] in *.
      rewrite Hrun, Hst, Hc, apply_update_status, apply_update_completed_videos.
      auto.
    + destruct (IH (S idx) completed _ _ Hin) as (t' & Hrun & Hst & Hc).
      destruct (playlist_loop nfkd w task_id total (S idx) rest completed).
      exists t'. cbn [fst snd run fold_left exec app] in *. rewrite Hrun. auto.
Qed.

End PlaylistFacts.

Section LifecycleFacts.

Variable nfkd : str -> str.
Variable py_float : str -> option Q.
Variable format_0f : Q -> str.

(** The hook only ever passes a progress and a message. *)
Lemma hook_updates_quiet events : forall last_percent,
  Forall (fun u => u_status u = None /\ u_completed_videos u = None)
    (hook_updates py_float format_0f last_percent events).
Proof.
  induction events as [|d events IH]; intros last_percent; [constructor|].
  cbn [hook_updates]. unfold progress_hook.
  destruct (h_status d).
  - destruct (py_float _) as [percent|]; [|apply IH].
    destruct (Qle_bool _ _); [|apply IH].
    constructor; [split; reflexivity | apply IH].
  - constructor; [split; reflexivity | apply IH].
  - apply IH.
Qed.

(** An update that passes no completed count, or one within the total,
    keeps the bound. *)
Lemma update_keeps_bound (n : Z) (u : update) (t : task) :
  match u_completed_videos u with Some k => k <= n | None => True end ->
  total_videos t = n /\ completed_videos t <= n ->
  total_videos (apply_update u t) = n /\ completed_videos (apply_update u t) <= n.
Proof.
  intros Hk [Htot Hc].
  rewrite apply_update_total_videos, apply_update_completed_videos.
  split; [exact Htot|]. destruct (u_completed_videos u); simpl; lia.
Qed.

(** [download_single_video] is one [PROCESSING] update, actions that pass no
    status, and one last update; no update passes a count above one. *)
Lemma download_single_video_shape (o : outcome) (url task_id : str) :
  exists u0 mid final,
    download_single_video nfkd py_float format_0f o url task_id
    = UpdateTask task_id u0 :: mid ++ [final]
    /\ u_status u0 = Some PROCESSING
    /\ Forall (fun a => status_changing a = false) mid
    /\ Forall (fun a => match a with
                        | UpdateTask _ u =>
                            match u_completed_videos u with
                            | Some k => k <= 1
                            | None => True
                            end
                        | _ => True
                        end)
         (download_single_video nfkd py_float format_0f o url task_id).
Proof.
  unfold download_single_video.
  pose proof (hook_updates_quiet (o_events o) 0) as Hq.
  set (hooks := hook_updates py_float format_0f 0 (o_events o)) in *.
  assert (Hq1 : Forall (fun a => status_changing a = false)
                  (List.map (UpdateTask task_id) hooks)).
  { apply Forall_map. eapply Forall_impl; [exact Hq|].
    intros u [Hs _]. simpl. now rewrite Hs. }
  assert (Hq2 : Forall (fun a => match a with
                        | UpdateTask _ u =>
                            match u_completed_videos u with
                            | Some k => k <= 1
                            | None => True
                            end
                        | _ => True
                        end) (List.map (UpdateTask task_id) hooks)).
  { apply Forall_map. eapply Forall_impl; [exact Hq|].
    intros u [_ Hc]. simpl. now rewrite Hc. }
  eexists. destruct (o_info o) as [video_info|].
  - destruct (o_error o) as [e|]; [|destruct (o_file_exists o)].
    + eexists (_ :: _ :: List.map (UpdateTask task_id) hooks), _.
      split; [reflexivity|]. split; [reflexivity|]. split.
      * repeat (constructor; [reflexivity|]). exact Hq1.
      * repeat (constructor; [exact I|]). apply Forall_app. split; [exact Hq2|].
        repeat constructor.
    + eexists (_ :: _ :: List.map (UpdateTask task_id) hooks ++ [_]), _.
      split; [cbn [app]; rewrite <- app_assoc; reflexivity|].
      split; [reflexivity|]. split.
      * repeat (constructor; [reflexivity|]). apply Forall_app.
        split; [exact Hq1 | repeat constructor].
      * repeat (constructor; [exact I|]). apply Forall_app. split; [exact Hq2|].
        repeat constructor. simpl. lia.
    + eexists (_ :: _ :: List.map (UpdateTask task_id) hooks ++ [_]), _.
      split; [cbn [app]; rewrite <- app_assoc; reflexivity|].
      split; [reflexivity|]. split.
      * repeat (constructor; [reflexivity|]). apply Forall_app.
        split; [exact Hq1 | repeat constructor].
      * repeat (constructor; [exact I|]). apply Forall_app. split; [exact Hq2|].
        repeat constructor.
  - eexists [_], _. split; [reflexivity|]. split; [reflexivity|].
    split; repeat constructor.
Qed.

(** The same for [download_playlist], with the number of ids as the bound. *)
Lemma download_playlist_shape (w : nat -> str -> outcome)
  (video_ids : list str) (task_id : str) :
  exists u0 mid final,
    download_playlist nfkd w video_ids task_id
    = UpdateTask task_id u0 :: mid ++ [final]
    /\ u_status u0 = Some PROCESSING
    /\ Forall (fun a => status_changing a = false) mid
    /\ Forall (fun a => match a with
                        | UpdateTask _ u =>
                            match u_completed_videos u with
                            | Some k => k <= len video_ids
                            | None => True
                            end
                        | _ => True
                        end)
         (download_playlist nfkd w video_ids task_id).
Proof.
  unfold download_playlist.
  pose proof (playlist_loop_updates nfkd w task_id (len video_ids)
                video_ids 0%nat 0) as Hloop.
  destruct (playlist_loop nfkd w task_id (len video_ids) 0 video_ids 0)
    as [acts completed].
  cbn [fst] in Hloop.
  eexists _, acts, _. split; [reflexivity|]. split; [reflexivity|]. split.
  - eapply Forall_impl; [exact Hloop|].
    intros [| | |target u]; simpl; auto. intros (_ & -> & _). reflexivity.
  - constructor; [exact I|]. apply Forall_app. split.
    + eapply Forall_impl; [exact Hloop|].
      intros [| | |target u]; simpl; auto. intros (_ & _ & Hk).
      destruct (u_completed_videos u); [unfold len; lia|exact I].
    + constructor; [|constructor]. destruct (0 <? completed); exact I.
Qed.

(** A workflow of that shape, started on a task that is not yet terminal and
    within its bound, respects the life of the task. *)
Lemma shape_respects_lifecycle (ts : tasks) (task_id : str) (t : task) (n : Z)
  (acts : list action) :
  ts !! task_id = Some t ->
  total_videos t = n -> completed_videos t <= n ->
  (exists u0 mid final,
     acts = UpdateTask task_id u0 :: mid ++ [final]
     /\ u_status u0 = Some PROCESSING
     /\ Forall (fun a => status_changing a = false) mid
     /\ Forall (fun a => match a with
                         | UpdateTask _ u =>
                             match u_completed_videos u with
                             | Some k => k <= n
                             | None => True
                             end
                         | _ => True
                         end) acts) ->
  respects_lifecycle task_id n ts acts.
Proof.
  intros Hin Htot Hc (u0 & mid & final & Hacts & Hu0 & Hmid & Hbound). split.
  - apply (states_invariant
             (fun t => total_videos t = n /\ completed_videos t <= n)).
    + eauto.
    + eapply Forall_impl; [exact Hbound|].
      intros [| | |target u]; auto. intros Hk t0. now apply update_keeps_bound.
  - intros pre a post t' Hsplit. rewrite Hacts in Hsplit.
    now apply (one_terminal_update ts task_id t u0 mid final Hin Hu0 Hmid
                 pre a post t').
Qed.

End LifecycleFacts.

(** C1.  [POST /api/download] creates a task with total 1 and hands it to
    [download_single_video]; [POST /api/download-playlist] creates a task with
    total [len(video_ids)] and hands it to [download_playlist].  Whatever the
    outside answers, in every state of the registry along the workflow the
    task is there with that total and at most that many completed videos, and
    after an update that leaves the task [completed] or [failed] the workflow
    issues no update that passes a status. *)
Theorem task_lifecycle (nfkd : str -> str) (py_float : str -> option Q)
  (format_0f : Q -> str) (ts : tasks) (uuid : str) :
  (forall (request : DownloadRequest) (o : outcome),
     Validators.is_valid_youtube_url (url request) = true ->
     exists ts1 resp,
       Routes.download_video ts uuid request
       = (ts1, [Routes.BgDownloadSingleVideo (url request) uuid], resp)
       /\ ts1 !! uuid = Some (fresh_task 1)
       /\ respects_lifecycle uuid 1 ts1
            (download_single_video nfkd py_float format_0f o
               (url request) uuid))
  /\ (forall (request : PlaylistRequest) (w : nat -> str -> outcome),
        video_ids request <> [] ->
        exists ts1 resp,
          Routes.download_playlist ts uuid request
          = (ts1, [Routes.BgDownloadPlaylist (video_ids request) uuid], resp)
          /\ ts1 !! uuid = Some (fresh_task (len (video_ids request)))
          /\ respects_lifecycle uuid (len (video_ids request)) ts1
               (download_playlist nfkd w (video_ids request) uuid)).
Proof.
  split.
  - intros request o Hvalid. unfold Routes.download_video.
    rewrite Hvalid. cbn [negb create_task].
    eexists _, _. split; [reflexivity|].
    assert (Hin : (<[uuid := fresh_task 1]> ts : tasks) !! uuid
                  = Some (fresh_task 1)) by apply lookup_insert_eq.
    split; [exact Hin|].
    apply (shape_respects_lifecycle _ _ _ _ _ Hin);
      [reflexivity | simpl; lia | apply download_single_video_shape].
  - intros request w Hne. unfold Routes.download_playlist.
    destruct (video_ids request) as [|v vs] eqn:Eids; [congruence|].
    cbn [create_task]. eexists _, _. split; [reflexivity|].
    assert (Hin : (<[uuid := fresh_task (len (v :: vs))]> ts : tasks) !! uuid
                  = Some (fresh_task (len (v :: vs)))) by apply lookup_insert_eq.
    split; [exact Hin|].
    apply (shape_respects_lifecycle _ _ _ _ _ Hin);
      [reflexivity | unfold len; simpl; lia | apply download_playlist_shape].
Qed.

Lemma task_lifecycle_witness :
  (exists ts1 resp,
     Routes.download_video ∅ (py "t")
       {| url := py "https://www.youtube.com/watch?v=abc123";
          is_playlist := false |}
     = (ts1, [Routes.BgDownloadSingleVideo
                (py "https://www.youtube.com/watch?v=abc123") (py "t")], resp)
     /\ ts1 !! py "t" = Some (fresh_task 1)
     /\ respects_lifecycle (py "t") 1 ts1
          (download_single_video Samples.nfkd Samples.float_of_decimal
             Samples.format_0f (Samples.success "Song")
             (py "https://www.youtube.com/watch?v=abc123") (py "t")))
  /\ (exists ts1 resp,
        Routes.download_playlist ∅ (py "t")
          {| pl_url := py "https://www.youtube.com/playlist?list=PL123";
             video_ids := [py "a"; py "b"; py "c"] |}
        = (ts1, [Routes.BgDownloadPlaylist [py "a"; py "b"; py "c"] (py "t")],
           resp)
        /\ ts1 !! py "t" = Some (fresh_task 3)
        /\ respects_lifecycle (py "t") 3 ts1
             (download_playlist Samples.nfkd
                (fun idx _ => if Nat.eqb idx 1 then Samples.unavailable
                              else Samples.success "Song")
                [py "a"; py "b"; py "c"] (py "t"))).
Proof.
  split.
  - apply (proj1 (task_lifecycle Samples.nfkd Samples.float_of_decimal
                    Samples.format_0f ∅ (py "t"))
             {| url := py "https://www.youtube.com/watch?v=abc123";
                is_playlist := false |}).
    vm_compute. reflexivity.
  - apply (proj2 (task_lifecycle Samples.nfkd Samples.float_of_decimal
                    Samples.format_0f ∅ (py "t"))
             {| pl_url := py "https://www.youtube.com/playlist?list=PL123";
                video_ids := [py "a"; py "b"; py "c"] |}).
    simpl. discriminate.
Defined.

(** C2.  Let [k] be the number of items of [video_ids] whose output file is
    there after their download.  If [k] is positive the task ends
    [completed] with progress 100, the message "Completed! Downloaded
    k/total videos" and [k] completed videos; if [k] is zero it ends [failed]
    with the message "No videos were downloaded successfully".  In both cases
    the metadata of every item was asked for, in order: no item's failure
    keeps a later item from being attempted. *)
Theorem playlist_outcome (nfkd : str -> str) (w : nat -> str -> outcome)
  (video_ids : list str) (task_id : str) (ts : tasks) (t : task) :
  ts !! task_id = Some t ->
  let k := successes w 0 video_ids in
  let acts := download_playlist nfkd w video_ids task_id in
  (0 < k ->
     exists t', run ts acts !! task_id = Some t'
       /\ status t' = COMPLETED
       /\ progress t' = 100%Q
       /\ message t' =
            py "Completed! Downloaded " ++ str_of_int k ++ py "/"
            ++ str_of_int (len video_ids) ++ py " videos"
       /\ completed_videos t' = k)
  /\ (k = 0 ->
        exists t', run ts acts !! task_id = Some t'
          /\ status t' = FAILED
          /\ message t' = py "No videos were downloaded successfully")
  /\ attempted acts = List.map watch_url video_ids.
Proof.
  intros Hin k acts. subst acts. unfold download_playlist.
  pose proof (playlist_loop_completed nfkd w task_id (len video_ids)
                video_ids 0%nat 0) as Hcount.
  pose proof (playlist_loop_attempted nfkd w task_id (len video_ids)
                video_ids 0%nat 0) as Hatt.
  match goal with |- context [UpdateTask task_id ?u :: _ ++ _] =>
    pose proof (exec_update_known task_id ts u t Hin) as Hin1
  end.
  destruct (playlist_loop_effect nfkd w task_id (len video_ids) video_ids
              0%nat 0 _ _ Hin1) as (t2 & Hrun2 & Hst2 & Hc2).
  destruct (playlist_loop nfkd w task_id (len video_ids) 0 video_ids 0)
    as [loop completed].
  cbn [fst snd] in *. fold k in Hcount, Hc2. rewrite Z.add_0_l in Hcount, Hc2.
  subst completed.
  rewrite run_cons, run_app. cbn [run fold_left] in *.
  repeat split.
  - intros Hk. replace (0 <? k) with true by (symmetry; now apply Z.ltb_lt).
    eexists. split; [apply (exec_update_known task_id _ _ _ Hrun2)|].
    rewrite apply_update_status, apply_update_progress, apply_update_message,
      apply_update_completed_videos, Hc2.
    replace (k =? 0) with false by (symmetry; apply Z.eqb_neq; lia).
    repeat split; reflexivity.
  - intros Hk. rewrite Hk. cbn [Z.ltb Z.compare].
    eexists. split; [apply (exec_update_known task_id _ _ _ Hrun2)|].
    rewrite apply_update_status, apply_update_message.
    split; reflexivity.
  - cbn [attempted]. rewrite attempted_app, Hatt.
    destruct (0 <? k); cbn [attempted]; apply app_nil_r.
Qed.

Lemma playlist_outcome_witness :
  exists t',
    run (<[py "t" := fresh_task 3]> ∅)
      (download_playlist Samples.nfkd
         (fun idx _ => if Nat.eqb idx 1 then Samples.unavailable
                       else Samples.success "Song")
         [py "a"; py "b"; py "c"] (py "t")) !! py "t" = Some t'
    /\ status t' = COMPLETED
    /\ progress t' = 100%Q
    /\ message t' = py "Completed! Downloaded 2/3 videos"
    /\ completed_videos t' = 2.
Proof.
  apply (proj1 (playlist_outcome Samples.nfkd
           (fun idx _ => if Nat.eqb idx 1 then Samples.unavailable
                         else Samples.success "Song")
           [py "a"; py "b"; py "c"] (py "t")
           (<[py "t" := fresh_task 3]> ∅) (fresh_task 3)
           (lookup_insert_eq _ _ _))).
  vm_compute. reflexivity.
Defined.

(** ** The progress hook *)

Import Progress.

Section HookFacts.

Variable py_float : str -> option Q.
Variable format_0f : Q -> str.

(** With levels that never decrease, all between [bound] and 100, the
    progress values of the hook never decrease and all lie above the value
    for [bound]. *)
Lemma hook_updates_sorted events : forall last_percent bound,
  Forall (fun l => bound <= l /\ l <= 100)%Q (levels py_float events) ->
  StronglySorted Qle (levels py_float events) ->
  StronglySorted Qle
    (applied_progress (hook_updates py_float format_0f last_percent events))
  /\ Forall (fun p => 10 + bound * (7 # 10) <= p)%Q
       (applied_progress (hook_updates py_float format_0f last_percent events)).
Proof.
  induction events as [|d events IH]; intros last_percent bound Hrange Hsorted.
  - split; constructor.
  - cbn [levels hook_updates] in *. unfold level, reported_percent in *.
    unfold progress_hook.
    destruct (h_status d).
    + destruct (py_float _) as [percent|]; [|now apply IH].
      inversion Hrange as [|? ? [Hlo Hhi] Hrange']; subst.
      inversion Hsorted as [|? ? Hsorted' Hall]; subst.
      assert (Hrest : Forall (fun l => percent <= l /\ l <= 100)%Q
                        (levels py_float events)).
      { rewrite Forall_forall in *. intros l Hl.
        split; [now apply Hall | now apply Hrange']. }
      destruct (Qle_bool 5 (Qabs (percent - last_percent))).
      * destruct (IH percent percent Hrest Hsorted') as [Hs Hb].
        cbn [applied_progress u_progress]. split.
        -- constructor; [exact Hs|exact Hb].
        -- constructor; [lra|].
           eapply Forall_impl; [exact Hb|]. intros p Hp. simpl in Hp. lra.
      * destruct (IH last_percent percent Hrest Hsorted') as [Hs Hb].
        split; [exact Hs|].
        eapply Forall_impl; [exact Hb|]. intros p Hp. simpl in Hp. lra.
    + inversion Hrange as [|? ? [Hlo Hhi] Hrange']; subst.
      inversion Hsorted as [|? ? Hsorted' Hall]; subst.
      assert (Hrest : Forall (fun l => 100 <= l /\ l <= 100)%Q
                        (levels py_float events)).
      { rewrite Forall_forall in *. intros l Hl.
        split; [now apply Hall | now apply Hrange']. }
      destruct (IH last_percent 100%Q Hrest Hsorted') as [Hs Hb].
      cbn [applied_progress u_progress]. split.
      * constructor; [exact Hs|].
        eapply Forall_impl; [exact Hb|]. intros p Hp. simpl in Hp. lra.
      * constructor; [lra|].
        eapply Forall_impl; [exact Hb|]. intros p Hp. simpl in Hp. lra.
    + now apply IH.
Qed.

End HookFacts.

(** C5, as stated, fails: the hook applies an update whenever the percent
    moved by five points in either direction.  When yt-dlp reports 50% and
    then 10%, the hook applies progress 45 and then progress 17. *)
Lemma progress_hook_monotone_counterexample :
  ~ (forall events,
       nondecreasing
         (applied_progress
            (hook_updates Samples.float_of_decimal Samples.format_0f 0 events))).
Proof.
  intros H.
  specialize (H [Samples.downloading " 50.0%"; Samples.downloading " 10.0%"]).
  vm_compute in H.
  inversion H as [|? ? _ Hhd]; subst.
  inversion Hhd as [|? ? Hle]; subst.
  apply Hle. reflexivity.
Qed.

(** C5, amended.  When the levels yt-dlp reports (the percent of a
    [downloading] event, 100 for a [finished] event) never decrease and never
    exceed 100, every progress value the hook applies is at least the value
    it applied before.  In all cases: a [downloading] event whose percent is
    less than five points away from the last applied percent, or is not a
    number, applies nothing; a [downloading] event that applies an update
    moved by at least five points and sets progress to [10 + percent * 0.7];
    a [finished] event sets progress to 80. *)
Theorem progress_hook_updates (py_float : str -> option Q)
  (format_0f : Q -> str) :
  (forall events,
     Sorted Qle (levels py_float events) ->
     Forall (fun l => l <= 100)%Q (levels py_float events) ->
     nondecreasing
       (applied_progress (hook_updates py_float format_0f 0 events)))
  /\ (forall last_percent d percent,
        reported_percent py_float d = Some percent ->
        (Qabs (percent - last_percent) < 5)%Q ->
        progress_hook py_float format_0f last_percent d = (last_percent, None))
  /\ (forall last_percent d,
        h_status d = Downloading ->
        reported_percent py_float d = None ->
        progress_hook py_float format_0f last_percent d = (last_percent, None))
  /\ (forall last_percent d last_percent' u,
        h_status d = Downloading ->
        progress_hook py_float format_0f last_percent d
        = (last_percent', Some u) ->
        exists percent,
          reported_percent py_float d = Some percent
          /\ (5 <= Qabs (percent - last_percent))%Q
          /\ last_percent' = percent
          /\ u_progress u = Some (10 + percent * (7 # 10))%Q)
  /\ (forall last_percent d,
        h_status d = Finished ->
        exists u,
          progress_hook py_float format_0f last_percent d
          = (last_percent, Some u)
          /\ u_progress u = Some 80%Q).
Proof.
  split; [|split; [|split; [|split]]].
  - intros events Hsorted Hmax. unfold nondecreasing.
    apply StronglySorted_Sorted.
    apply Sorted_StronglySorted in Hsorted; [|exact Qle_trans].
    destruct (levels py_float events) as [|l0 ls] eqn:Elevels.
    + apply (hook_updates_sorted py_float format_0f events 0%Q 0%Q);
        rewrite Elevels; constructor.
    + apply (hook_updates_sorted py_float format_0f events 0%Q l0);
        rewrite Elevels; [|exact Hsorted].
      inversion Hsorted as [|? ? _ Hall]; subst.
      inversion Hmax as [|? ? Hl0 Hls]; subst.
      constructor; [split; [apply Qle_refl|exact Hl0]|].
      rewrite Forall_forall in *. intros l Hl. split; auto.
  - intros last_percent d percent Hrep Hnear.
    unfold reported_percent in Hrep. unfold progress_hook.
    destruct (h_status d); try discriminate.
    rewrite Hrep.
    destruct (Qle_bool 5 (Qabs (percent - last_percent))) eqn:E; [|reflexivity].
    apply Qle_bool_iff in E. exfalso. apply (Qlt_not_le _ _ Hnear E).
  - intros last_percent d Hst Hrep.
    unfold reported_percent in Hrep. unfold progress_hook.
    rewrite Hst in *. now rewrite Hrep.
  - intros last_percent d last_percent' u Hst Hhook.
    unfold reported_percent. unfold progress_hook in Hhook.
    rewrite Hst in *.
    destruct (py_float _) as [percent|]; [|discriminate].
    destruct (Qle_bool 5 (Qabs (percent - last_percent))) eqn:E;
      [|discriminate].
    injection Hhook as <- <-. exists percent.
    apply Qle_bool_iff in E. repeat split; auto.
  - intros last_percent d Hst. unfold progress_hook. rewrite Hst.
    eexists. split; reflexivity.
Qed.

Lemma progress_hook_updates_witness :
  nondecreasing
    (applied_progress
       (hook_updates Samples.float_of_decimal Samples.format_0f 0
          [Samples.downloading " 10.0%"; Samples.downloading " 12.0%";
           Samples.downloading " 60.0%"; Samples.downloading "oops";
           Samples.downloading "100.0%"; Samples.finished]))
  /\ progress_hook Samples.float_of_decimal Samples.format_0f 10
       (Samples.downloading " 12.0%") = (10%Q, None).
Proof.
  split.
  - apply (proj1 (progress_hook_updates Samples.float_of_decimal
                    Samples.format_0f)).
    + vm_compute. repeat constructor; discriminate.
    + vm_compute. repeat constructor; discriminate.
  - apply (proj1 (proj2 (progress_hook_updates Samples.float_of_decimal
                           Samples.format_0f)) 10%Q
             (Samples.downloading " 12.0%") 12%Q).
    + vm_compute. reflexivity.
    + vm_compute. reflexivity.
Defined.

(** ** The URL validators *)

Import Validators.
Import Urls.

Section ValidatorFacts.

Implicit Types (alts : list str) (s g : str).

Lemma group1_nonempty s g : group1 s = Some g -> g <> [].
Proof.
  unfold group1. destruct (take_while in_class s); [discriminate|].
  intros [= <-]. discriminate.
Qed.

Lemma match_here_nonempty alts s g : match_here alts s = Some g -> g <> [].
Proof.
  induction alts as [|a alts IH]; [discriminate|]. cbn [match_here].
  destruct (starts_with a s); [|exact IH].
  destruct (group1 _) eqn:E; [|exact IH].
  intros [= <-]. now apply group1_nonempty in E.
Qed.

Lemma search_nonempty alts s g : search alts s = Some g -> g <> [].
Proof.
  induction s as [|c s IH]; cbn [search].
  - destruct (match_here alts []) eqn:E; [|discriminate].
    intros [= <-]. now apply match_here_nonempty in E.
  - destruct (match_here alts (c :: s)) eqn:E; [|exact IH].
    intros [= <-]. now apply match_here_nonempty in E.
Qed.

Lemma extract_video_id_nonempty url g : extract_video_id url = Some g -> g <> [].
Proof.
  unfold extract_video_id.
  induction patterns as [|pattern ps IH]; [discriminate|]. cbn [first_match].
  destruct (search pattern url) eqn:E; [|exact IH].
  intros [= <-]. now apply search_nonempty in E.
Qed.

(** A match at the very start is the one [search] returns. *)
Lemma search_here alts s g : match_here alts s = Some g -> search alts s = Some g.
Proof. intros H. destruct s; cbn [search]; now rewrite H. Qed.

(** [search] passes over a prefix in which no match starts. *)
Lemma search_skip alts pre : forall rest,
  no_match_before alts pre rest -> search alts (pre ++ rest) = search alts rest.
Proof.
  induction pre as [|c pre IH]; intros rest Hno; [reflexivity|].
  assert (H0 : match_here alts ((c :: pre) ++ rest) = None)
    by (apply (Hno 0%nat); simpl; lia).
  cbn [app search] in *. rewrite H0.
  apply IH. intros i Hi. apply (Hno (S i)). simpl. lia.
Qed.

Lemma starts_with_app a s : starts_with a (a ++ s) = true.
Proof.
  induction a as [|c a IH]; [now destruct s|].
  cbn [app starts_with]. now rewrite N.eqb_refl, IH.
Qed.

Lemma skipn_length_app a s : skipn (length a) (a ++ s) = s.
Proof. induction a as [|c a IH]; [reflexivity|exact IH]. Qed.

Lemma take_while_id g suf :
  Forall (fun c => in_class c = true) g -> id_ends suf ->
  take_while in_class (g ++ suf) = g.
Proof.
  intros Hg Hsuf. induction Hg as [|c g Hc Hg IH].
  - destruct suf as [|c suf]; [reflexivity|].
    cbn [app take_while]. simpl in Hsuf. now rewrite Hsuf.
  - cbn [app take_while]. now rewrite Hc, IH.
Qed.

(** The first alternative followed by an identifier matches, and captures
    the identifier. *)
Lemma match_here_id a alts g suf :
  g <> [] -> Forall (fun c => in_class c = true) g -> id_ends suf ->
  match_here (a :: alts) (a ++ g ++ suf) = Some g.
Proof.
  intros Hne Hg Hsuf. cbn [match_here].
  rewrite starts_with_app, skipn_length_app. unfold group1. rewrite (take_while_id g suf Hg Hsuf).
  destruct g; [congruence|reflexivity].
Qed.

Lemma is_valid_iff url :
  is_valid_youtube_url url = true
  <-> is_Some (extract_video_id url) \/ is_Some (extract_playlist_id url).
Proof.
  unfold is_valid_youtube_url, or_.
  destruct (extract_video_id url) as [v|] eqn:Ev.
  - apply extract_video_id_nonempty in Ev. destruct v; [congruence|].
    cbn [truthy]. split; [left; eauto | reflexivity].
  - cbn [truthy]. unfold extract_playlist_id.
    destruct (search [py "list="] url) as [p|] eqn:Ep.
    + apply search_nonempty in Ep. destruct p; [congruence|].
      cbn [truthy]. split; [right; eauto | reflexivity].
    + cbn [truthy]. split; [discriminate|].
      intros [[? [=]]|[? [=]]].
Qed.

End ValidatorFacts.

(** C8, as stated, fails: the video patterns ask for [youtube.com/] before
    [watch?v=], so a URL of another site that contains [watch?v=abc123] has no
    video id; and without a playlist id it is not even valid. *)
Lemma url_containing_watch_counterexample :
  ~ (forall url, contains (py "watch?v=abc123") url = true ->
                 extract_video_id url = Some (py "abc123")).
Proof.
  intros H.
  specialize (H (py "https://example.com/watch?v=abc123")).
  vm_compute in H. specialize (H eq_refl). discriminate H.
Qed.

(** C8, amended.  [is_valid_youtube_url] is true exactly when one of the two
    extractors returns a value.  For every URL in which the first match of
    the pattern for [youtube.com/watch?v=] or [youtu.be/] is
    [youtube.com/watch?v=abc123], followed by the end of the URL or by one of
    the characters that stop an identifier, [extract_video_id] returns
    [abc123]; for every URL in which the first match of the [list=] pattern
    is [list=PL123], followed likewise, [extract_playlist_id] returns [PL123].
    A URL for which both extractors return nothing is invalid; a URL
    [...youtube.com/watch?v=abc123&...list=PL123...] with these first matches
    yields both identifiers and is valid. *)
Theorem url_validation :
  (forall url,
     is_valid_youtube_url url = true
     <-> is_Some (extract_video_id url) \/ is_Some (extract_playlist_id url))
  /\ (forall pre suf,
        id_ends suf ->
        no_match_before watch_pattern pre
          (py "youtube.com/watch?v=abc123" ++ suf) ->
        extract_video_id (pre ++ py "youtube.com/watch?v=abc123" ++ suf)
        = Some (py "abc123"))
  /\ (forall pre suf,
        id_ends suf ->
        no_match_before [py "list="] pre (py "list=PL123" ++ suf) ->
        extract_playlist_id (pre ++ py "list=PL123" ++ suf)
        = Some (py "PL123"))
  /\ (forall url,
        extract_video_id url = None -> extract_playlist_id url = None ->
        is_valid_youtube_url url = false)
  /\ (forall pre mid suf,
        id_ends suf ->
        no_match_before watch_pattern pre
          (py "youtube.com/watch?v=abc123" ++ py "&" ++ mid
           ++ py "list=PL123" ++ suf) ->
        no_match_before [py "list="]
          (pre ++ py "youtube.com/watch?v=abc123" ++ py "&" ++ mid)
          (py "list=PL123" ++ suf) ->
        let url := pre ++ py "youtube.com/watch?v=abc123" ++ py "&" ++ mid
                   ++ py "list=PL123" ++ suf in
        extract_video_id url = Some (py "abc123")
        /\ extract_playlist_id url = Some (py "PL123")
        /\ is_valid_youtube_url url = true).
Proof.
  assert (Hvideo : forall pre suf,
            id_ends suf ->
            no_match_before watch_pattern pre
              (py "youtube.com/watch?v=abc123" ++ suf) ->
            extract_video_id (pre ++ py "youtube.com/watch?v=abc123" ++ suf)
            = Some (py "abc123")).
  { intros pre suf Hsuf Hno. unfold extract_video_id, patterns.
    cbn [first_match]. fold watch_pattern.
    rewrite (search_skip _ _ _ Hno).
    change (py "youtube.com/watch?v=abc123" ++ suf)
      with (py "youtube.com/watch?v=" ++ py "abc123" ++ suf).
    unfold watch_pattern.
    rewrite (search_here _ _ (py "abc123")); [reflexivity|].
    apply match_here_id; [discriminate | | exact Hsuf].
    vm_compute. repeat constructor. }
  assert (Hlist : forall pre suf,
            id_ends suf ->
            no_match_before [py "list="] pre (py "list=PL123" ++ suf) ->
            extract_playlist_id (pre ++ py "list=PL123" ++ suf)
            = Some (py "PL123")).
  { intros pre suf Hsuf Hno. unfold extract_playlist_id.
    rewrite (search_skip _ _ _ Hno).
    change (py "list=PL123" ++ suf) with (py "list=" ++ py "PL123" ++ suf).
    apply search_here.
    apply match_here_id; [discriminate | | exact Hsuf].
    vm_compute. repeat constructor. }
  split; [exact is_valid_iff|].
  split; [exact Hvideo|]. split; [exact Hlist|]. split.
  - intros url Hv Hp. unfold is_valid_youtube_url, or_. now rewrite Hv, Hp.
  - intros pre mid suf Hsuf Hno1 Hno2 url.
    assert (Ev : extract_video_id url = Some (py "abc123")).
    { apply (Hvideo pre (py "&" ++ mid ++ py "list=PL123" ++ suf));
        [reflexivity | exact Hno1]. }
    assert (Ep : extract_playlist_id url = Some (py "PL123")).
    { subst url.
      replace (pre ++ py "youtube.com/watch?v=abc123" ++ py "&" ++ mid
               ++ py "list=PL123" ++ suf)
        with ((pre ++ py "youtube.com/watch?v=abc123" ++ py "&" ++ mid)
              ++ py "list=PL123" ++ suf)
        by (now rewrite <- !app_assoc).
      now apply Hlist. }
    split; [exact Ev|]. split; [exact Ep|].
    apply is_valid_iff. left. rewrite Ev. eauto.
Qed.

Lemma url_validation_witness :
  extract_video_id (py "https://www.youtube.com/watch?v=abc123&list=PL123&index=2")
  = Some (py "abc123")
  /\ extract_playlist_id
       (py "https://www.youtube.com/watch?v=abc123&list=PL123&index=2")
     = Some (py "PL123")
  /\ is_valid_youtube_url
       (py "https://www.youtube.com/watch?v=abc123&list=PL123&index=2") = true.
Proof.
  apply (proj2 (proj2 (proj2 (proj2 url_validation)))
           (py "https://www.") [] (py "&index=2")).
  - reflexivity.
  - intros i Hi.
    do 12 (destruct i as [|i]; [vm_compute; reflexivity|]).
    vm_compute in Hi. lia.
  - intros i Hi.
    do 39 (destruct i as [|i]; [vm_compute; reflexivity|]).
    vm_compute in Hi. lia.
Defined.

(** ** File names *)

Import Filenames.

Section StringFacts.

Implicit Types (s cur w : str) (ws : list str) (P : N -> Prop).

Lemma lstrip_clean s : starts_clean s -> lstrip s = s.
Proof. destruct s as [|c s]; [reflexivity|]. simpl. now intros ->. Qed.

Lemma lstrip_Forall P s : Forall P s -> Forall P (lstrip s).
Proof.
  induction 1 as [|c s Hc Hs IH]; [constructor|].
  cbn [lstrip]. destruct (isspace c); [exact IH | now constructor].
Qed.

Lemma rstrip_Forall P s : Forall P s -> Forall P (rstrip s).
Proof.
  intros H. unfold rstrip.
  apply Forall_rev, lstrip_Forall, Forall_rev, H.
Qed.

Lemma rstrip_snoc s c :
  rstrip (s ++ [c]) = if isspace c then rstrip s else s ++ [c].
Proof.
  unfold rstrip. rewrite rev_unit. cbn [lstrip].
  destruct (isspace c); [reflexivity|].
  cbn [rev]. now rewrite rev_involutive.
Qed.

Lemma rstrip_length s : (length (rstrip s) <= length s)%nat.
Proof.
  induction s as [|c s IH] using rev_ind; [reflexivity|].
  rewrite rstrip_snoc, length_app. cbn [length].
  destruct (isspace c); [lia|]. rewrite length_app. cbn [length]. lia.
Qed.

Lemma lstrip_length s : (length (lstrip s) <= length s)%nat.
Proof.
  induction s as [|c s IH]; [reflexivity|].
  cbn [lstrip]. destruct (isspace c); cbn [length]; lia.
Qed.

Lemma join_cons sep w w' ws :
  join sep (w :: w' :: ws) = w ++ sep ++ join sep (w' :: ws).
Proof. reflexivity. Qed.

Lemma join_Forall P ws :
  P space -> Forall (Forall P) ws -> Forall P (join [space] ws).
Proof.
  intros Hsp. induction 1 as [|w ws Hw Hws IH]; [constructor|].
  destruct ws as [|w' ws]; [exact Hw|].
  rewrite join_cons. apply Forall_app. split; [exact Hw|].
  constructor; [exact Hsp | exact IH].
Qed.

Lemma split_aux_Forall P s : forall cur,
  Forall P cur -> Forall P s -> Forall (Forall P) (split_aux cur s).
Proof.
  induction s as [|c s IH]; intros cur Hcur Hs; cbn [split_aux].
  - destruct cur; [constructor|]. repeat constructor. now apply Forall_rev.
  - inversion Hs as [|? ? Hc Hs']; subst.
    destruct (isspace c).
    + destruct cur; [now apply IH|].
      constructor; [now apply Forall_rev | now apply IH].
    + apply IH; [now constructor | exact Hs'].
Qed.

(** [split] yields words. *)
Lemma split_aux_words s : forall cur,
  Forall (fun c => isspace c = false) cur -> Forall word (split_aux cur s).
Proof.
  assert (Hrev : forall cur c, Forall (fun c => isspace c = false) (c :: cur) ->
                               word (rev (c :: cur))).
  { intros cur c Hcur. split; [|now apply Forall_rev].
    cbn [rev]. intros E. now destruct (rev cur). }
  induction s as [|c s IH]; intros cur Hcur; cbn [split_aux].
  - destruct cur; [constructor|].
    constructor; [now apply Hrev | constructor].
  - destruct (isspace c) eqn:Ec.
    + destruct cur; [now apply IH|].
      constructor; [now apply Hrev | now apply IH].
    + apply IH. now constructor.
Qed.

Lemma single_spaced_app_word w s :
  Forall (fun c => isspace c = false) w -> single_spaced s ->
  single_spaced (w ++ s).
Proof.
  intros Hw Hs. induction Hw as [|c w Hc Hw IH]; [exact Hs|].
  cbn [app single_spaced]. split; [|exact IH]. congruence.
Qed.

(** Words joined by single spaces. *)
Lemma join_words ws :
  Forall word ws ->
  single_spaced (join [space] ws) /\ starts_clean (join [space] ws).
Proof.
  induction 1 as [|w ws [Hne Hw] Hws [IHs IHc]]; [split; exact I|].
  assert (Hstart : forall x, starts_clean (w ++ x)).
  { intros x. destruct w as [|c w]; [congruence|].
    inversion Hw; subst. assumption. }
  destruct ws as [|w' ws].
  - cbn [join]. split; [|rewrite <- (app_nil_r w); apply Hstart].
    rewrite <- (app_nil_r w). now apply single_spaced_app_word.
  - rewrite join_cons. split; [|apply Hstart].
    apply single_spaced_app_word; [exact Hw|].
    cbn [app single_spaced]. auto.
Qed.

Lemma single_spaced_firstn n : forall s,
  single_spaced s -> single_spaced (firstn n s).
Proof.
  induction n as [|n IH]; intros s Hs; [exact I|].
  destruct s as [|c s]; [exact I|].
  destruct Hs as [Hc Hs]. cbn [firstn single_spaced]. split; [|now apply IH].
  intros Hsp. destruct (Hc Hsp) as [-> Hstart]. split; [reflexivity|].
  destruct n; [exact I|]. destruct s; [exact I|exact Hstart].
Qed.

Lemma starts_clean_firstn n s : starts_clean s -> starts_clean (firstn n s).
Proof. destruct n, s; simpl; auto. Qed.

(** In a single-spaced string no two whitespace characters are adjacent. *)
Lemma single_spaced_adjacent a : forall c d b,
  single_spaced (a ++ c :: d :: b) -> isspace c = true -> isspace d = false.
Proof.
  induction a as [|x a IH]; intros c d b Hs Hc.
  - destruct Hs as [Hcd _]. now destruct (Hcd Hc).
  - destruct Hs as [_ Hs]. now apply (IH c d b).
Qed.

Lemma single_spaced_app_l a : forall b,
  single_spaced (a ++ b) -> single_spaced a.
Proof.
  induction a as [|x a IH]; intros b Hs; [exact I|].
  destruct Hs as [Hx Hs]. split; [|now apply (IH b)].
  intros Hsp. destruct (Hx Hsp) as [-> Hstart]. split; [reflexivity|].
  destruct a; [exact I | exact Hstart].
Qed.

(** Stripping a single-spaced string that starts clean removes at most one
    space at its end. *)
Lemma rstrip_single_spaced s :
  single_spaced s -> starts_clean s ->
  single_spaced (rstrip s) /\ starts_clean (rstrip s)
  /\ (forall init c, rstrip s = init ++ [c] -> isspace c = false).
Proof.
  intros Hs Hstart.
  destruct s as [|c s _] using rev_ind.
  { repeat split; auto. intros init c E. now destruct init. }
  rewrite rstrip_snoc. destruct (isspace c) eqn:Ec.
  - destruct s as [|d s _] using rev_ind.
    { simpl in Hstart. congruence. }
    assert (Hd : isspace d = false).
    { destruct (isspace d) eqn:Ed; [|reflexivity].
      rewrite <- app_assoc in Hs.
      pose proof (single_spaced_adjacent s d c [] Hs Ed). congruence. }
    rewrite rstrip_snoc, Hd.
    split; [now apply (single_spaced_app_l _ [c])|].
    split.
    + destruct s; simpl in *; assumption.
    + intros init x E. apply app_inj_tail in E as [_ <-]. exact Hd.
  - repeat split; auto.
    intros init x E. apply app_inj_tail in E as [_ <-]. exact Ec.
Qed.

Lemma split_aux_nonempty s : forall cur, cur <> [] -> split_aux cur s <> [].
Proof.
  induction s as [|c s IH]; intros cur Hne; cbn [split_aux].
  - now destruct cur.
  - destruct (isspace c); [now destruct cur|]. now apply IH.
Qed.

(** Joining the words of a single-spaced string that does not end with
    whitespace gives the string back. *)
Lemma join_split_aux s : forall cur,
  single_spaced s ->
  (forall init c, s = init ++ [c] -> isspace c = false) ->
  cur <> [] \/ starts_clean s ->
  join [space] (split_aux cur s) = rev cur ++ s.
Proof.
  induction s as [|c s IH]; intros cur Hs Hend Hcur; cbn [split_aux].
  - destruct cur; [reflexivity|]. cbn [join]. now rewrite app_nil_r.
  - destruct Hs as [Hc Hs].
    assert (Hend' : forall init x, s = init ++ [x] -> isspace x = false).
    { intros init x ->. now apply (Hend (c :: init) x). }
    destruct (isspace c) eqn:Ec.
    + destruct (Hc eq_refl) as [-> Hstart].
      destruct cur as [|k cur]; [destruct Hcur as [?|Hcl]; [congruence|]|].
      { simpl in Hcl. congruence. }
      destruct s as [|d s].
      { specialize (Hend [] space eq_refl). congruence. }
      pose proof (IH [] Hs Hend' (or_intror Hstart)) as IH0.
      destruct (split_aux [] (d :: s)) as [|w ws] eqn:Esplit.
      { exfalso. cbn [split_aux] in Esplit. simpl in Hstart.
        rewrite Hstart in Esplit.
        now apply (split_aux_nonempty s [d]) in Esplit. }
      rewrite join_cons, IH0. reflexivity.
    + assert (Hne : c :: cur <> []) by discriminate.
      rewrite (IH (c :: cur) Hs Hend' (or_introl Hne)).
      cbn [rev]. now rewrite <- app_assoc.
Qed.

End StringFacts.

Section SanitizeFacts.

Implicit Types (s : str) (chars : list N) (P : N -> Prop).

Lemma replace_Forall P old new s :
  P new -> Forall P s -> Forall P (replace old new s).
Proof.
  intros Hnew Hs. unfold replace. apply Forall_map.
  eapply Forall_impl; [exact Hs|]. intros c Hc. simpl.
  now destruct (N.eqb c old).
Qed.

Lemma replace_all_Forall P chars : forall s,
  P Helpers.underscore -> Forall P s -> Forall P (replace_all chars s).
Proof.
  induction chars as [|ch chars IH]; intros s Hu Hs; [exact Hs|].
  cbn [fold_left]. apply IH; [exact Hu|]. now apply replace_Forall.
Qed.

Lemma replace_removes old new s :
  new <> old -> Forall (fun c => c <> old) (replace old new s).
Proof.
  intros Hne. unfold replace. apply Forall_map, Forall_forall. intros c _.
  simpl. destruct (N.eqb_spec c old); assumption.
Qed.

(** After the loop over [invalid_chars] none of them is left. *)
Lemma replace_all_clean chars : forall s,
  ~ In Helpers.underscore chars ->
  Forall (fun c => ~ In c chars) (replace_all chars s).
Proof.
  induction chars as [|ch chars IH]; intros s Hu.
  - apply Forall_forall. intros c _ [].
  - cbn [fold_left].
    assert (Hne : Helpers.underscore <> ch) by (intros E; apply Hu; now left).
    assert (Hu' : ~ In Helpers.underscore chars)
      by (intros E; apply Hu; now right).
    pose proof (IH (replace ch Helpers.underscore s) Hu') as H1.
    pose proof (replace_all_Forall (fun c => c <> ch) chars _ Hne
                  (replace_removes ch Helpers.underscore s Hne)) as H2.
    rewrite Forall_forall in *. intros c Hc [E|E].
    + now apply (H2 c Hc).
    + now apply (H1 c Hc).
Qed.

Lemma replace_id old new s : Forall (fun c => c <> old) s -> replace old new s = s.
Proof.
  induction 1 as [|c s Hc Hs IH]; [reflexivity|].
  unfold replace in *. cbn [List.map]. rewrite IH.
  now destruct (N.eqb_spec c old).
Qed.

Lemma replace_all_id chars : forall s,
  Forall (fun c => ~ In c chars) s -> replace_all chars s = s.
Proof.
  induction chars as [|ch chars IH]; intros s Hs; [reflexivity|].
  cbn [fold_left]. rewrite replace_id.
  - apply IH. eapply Forall_impl; [exact Hs|]. intros c Hc E. apply Hc. now right.
  - eapply Forall_impl; [exact Hs|]. intros c Hc E. apply Hc. now left.
Qed.

Lemma ascii_ignore_ascii s : is_ascii (ascii_ignore s).
Proof.
  unfold is_ascii, ascii_ignore. apply List.Forall_forall. intros c Hc.
  apply filter_In in Hc as [_ Hc]. now apply N.ltb_lt.
Qed.

Lemma ascii_ignore_id s : is_ascii s -> ascii_ignore s = s.
Proof.
  induction 1 as [|c s Hc Hs IH]; [reflexivity|].
  unfold ascii_ignore in *. cbn [List.filter].
  apply N.ltb_lt in Hc. now rewrite Hc, IH.
Qed.

(** A property of characters that the space has goes through the
    normalisation of whitespace and the truncation. *)
Lemma tidy_Forall P n s :
  P space -> Forall P s ->
  Forall P (strip (slice_to n (join [space] (split s)))).
Proof.
  intros Hsp Hs. unfold strip, slice_to.
  apply rstrip_Forall, lstrip_Forall, Forall_take, join_Forall; [exact Hsp|].
  apply split_aux_Forall; [constructor | exact Hs].
Qed.

(** The shape of a whitespace-normalised, truncated string. *)
Lemma tidy_shape n s :
  let r := strip (slice_to n (join [space] (split s))) in
  single_spaced r /\ starts_clean r
  /\ (forall init c, r = init ++ [c] -> isspace c = false)
  /\ (length r <= n)%nat.
Proof.
  intros r. subst r. unfold strip, slice_to.
  destruct (join_words (split s)) as [Hs Hc].
  { apply split_aux_words. constructor. }
  apply (single_spaced_firstn n) in Hs. apply (starts_clean_firstn n) in Hc.
  rewrite (lstrip_clean _ Hc).
  destruct (rstrip_single_spaced _ Hs Hc) as (H1 & H2 & H3).
  repeat split; try assumption.
  etransitivity; [apply rstrip_length|].
  rewrite length_firstn. lia.
Qed.

(** A string of that shape is left alone by the normalisation. *)
Lemma tidy_id n s :
  single_spaced s -> starts_clean s ->
  (forall init c, s = init ++ [c] -> isspace c = false) ->
  (length s <= n)%nat ->
  strip (slice_to n (join [space] (split s))) = s.
Proof.
  intros Hs Hc Hend Hlen. unfold split.
  rewrite (join_split_aux s [] Hs Hend (or_intror Hc)). cbn [rev app].
  unfold slice_to, strip. rewrite firstn_all2 by exact Hlen.
  rewrite (lstrip_clean _ Hc).
  destruct s as [|c s _] using rev_ind; [reflexivity|].
  now rewrite rstrip_snoc, (Hend s c eq_refl).
Qed.

End SanitizeFacts.

(** The sample normalisation keeps ASCII strings. *)
Lemma sample_nfkd_ascii (s : str) : is_ascii s -> Samples.nfkd s = s.
Proof.
  induction 1 as [|c s Hc Hs IH]; [reflexivity|].
  unfold Samples.nfkd in *. cbn [flat_map]. rewrite IH.
  destruct (N.eqb_spec c 233); [lia|].
  destruct (N.eqb_spec c 64257); [lia|].
  destruct (N.eqb_spec c 160); [lia|].
  destruct (N.eqb_spec c 8552); [lia|]. reflexivity.
Qed.

(** C7.  The result of [sanitize_filename] is ASCII only, holds none of the
    nine invalid characters, is at most 200 characters long, neither starts
    nor ends with whitespace and has no two whitespace characters in a row;
    and, NFKD keeping ASCII strings as they are, sanitising the result again
    returns it unchanged. *)
Theorem sanitize_filename_properties (nfkd : str -> str) (filename : str) :
  let r := Helpers.sanitize_filename nfkd filename in
  is_ascii r
  /\ Forall (fun c => ~ In c Helpers.invalid_chars) r
  /\ (length r <= 200)%nat
  /\ (forall c rest, r = c :: rest -> isspace c = false)
  /\ (forall init c, r = init ++ [c] -> isspace c = false)
  /\ (forall a c d b, r = a ++ c :: d :: b ->
        ~ (isspace c = true /\ isspace d = true))
  /\ ((forall s, is_ascii s -> nfkd s = s) ->
      Helpers.sanitize_filename nfkd r = r).
Proof.
  intros r. subst r. unfold Helpers.sanitize_filename.
  change (py " ") with [space].
  set (x := replace_all Helpers.invalid_chars (ascii_ignore (nfkd filename))).
  set (r := strip (slice_to 200 (join [space] (split x)))).
  assert (Hx_ascii : is_ascii x).
  { apply (replace_all_Forall (fun c => (c < 128)%N));
      [reflexivity | apply ascii_ignore_ascii]. }
  assert (Hx_clean : Forall (fun c => ~ In c Helpers.invalid_chars) x).
  { apply replace_all_clean. vm_compute. intuition discriminate. }
  assert (Hr_ascii : is_ascii r)
    by (apply (tidy_Forall (fun c => (c < 128)%N)); [reflexivity|exact Hx_ascii]).
  assert (Hr_clean : Forall (fun c => ~ In c Helpers.invalid_chars) r).
  { apply (tidy_Forall (fun c => ~ In c Helpers.invalid_chars));
      [|exact Hx_clean]. vm_compute. intuition discriminate. }
  destruct (tidy_shape 200 x) as (Hs & Hc & Hend & Hlen). fold r in Hs, Hc, Hend, Hlen.
  split; [exact Hr_ascii|]. split; [exact Hr_clean|]. split; [exact Hlen|].
  split; [|split; [exact Hend|split]].
  - intros c rest E. rewrite E in Hc. exact Hc.
  - intros a c d b E [Hsc Hsd]. rewrite E in Hs.
    pose proof (single_spaced_adjacent a c d b Hs Hsc). congruence.
  - intros Hnfkd.
    rewrite (Hnfkd r Hr_ascii), (ascii_ignore_id r Hr_ascii),
      (replace_all_id _ r Hr_clean).
    now apply tidy_id.
Qed.

Lemma sanitize_filename_properties_witness :
  Helpers.sanitize_filename Samples.nfkd
    (Helpers.sanitize_filename Samples.nfkd
       ([32; 67; 97; 102; 233; 9; 10] ++ py "<Live>:  Part " ++ [8552; 32])%N)
  = Helpers.sanitize_filename Samples.nfkd
      ([32; 67; 97; 102; 233; 9; 10] ++ py "<Live>:  Part " ++ [8552; 32])%N.
Proof.
  exact (proj2 (proj2 (proj2 (proj2 (proj2 (proj2
    (sanitize_filename_properties Samples.nfkd
       ([32; 67; 97; 102; 233; 9; 10] ++ py "<Live>:  Part " ++ [8552; 32])%N))))))
    sample_nfkd_ascii).
Defined.

(* ===================================================================== *)
(** * Further properties of the code *)
(* ===================================================================== *)

(** ** The task registry, continued *)

(** X1.  Right after [create_task], [get_task] shows the new task as
    pending with progress 0, the message "Task created", the given total and
    no completed video, and [get_task_files] is empty, whatever the registry
    held under that id before. *)
Theorem create_then_get (ts : tasks) (uuid : str) (n : Z) :
  let '(ts', task_id) := create_task ts uuid n in
  task_id = uuid
  /\ get_task ts' task_id
     = {| Models.task_id := uuid;
          Models.status := PENDING;
          Models.message := py "Task created";
          Models.progress := 0;
          Models.total_videos := n;
          Models.completed_videos := 0 |}
  /\ get_task_files ts' task_id = []
  /\ (forall other, other <> uuid ->
        get_task ts' other = get_task ts other
        /\ get_task_files ts' other = get_task_files ts other).
Proof.
  cbn [create_task]. split; [reflexivity|].
  unfold get_task, get_task_files. rewrite !lookup_insert_eq.
  repeat split; try reflexivity.
  - now rewrite lookup_insert_ne by congruence.
  - now rewrite lookup_insert_ne by congruence.
Qed.

(** X2.  [cleanup_task] undoes [create_task] on a new id: the registry is
    the one before the creation.  On an id the registry does not hold it
    changes nothing, so a second [cleanup_task] of the same id does
    nothing. *)
Theorem create_then_cleanup (ts : tasks) (uuid : str) (n : Z) :
  ts !! uuid = None ->
  cleanup_task (fst (create_task ts uuid n)) uuid = ts
  /\ cleanup_task ts uuid = ts
  /\ (forall ts0 : tasks,
        cleanup_task (cleanup_task ts0 uuid) uuid = cleanup_task ts0 uuid).
Proof.
  intros Hnew. split; [|split].
  - cbn [create_task fst]. unfold cleanup_task.
    rewrite lookup_insert_eq, delete_insert_eq.
    now apply delete_id.
  - unfold cleanup_task. now rewrite Hnew.
  - intros ts0. unfold cleanup_task at 1.
    now rewrite cleanup_task_gone.
Qed.

Lemma create_then_cleanup_witness :
  cleanup_task (fst (create_task (<[py "a" := fresh_task 1]> ∅) (py "b") 3))
    (py "b")
  = <[py "a" := fresh_task 1]> ∅.
Proof.
  apply (create_then_cleanup (<[py "a" := fresh_task 1]> ∅) (py "b") 3).
  vm_compute. reflexivity.
Defined.

(** X3.  No registry method but [create_task] adds an id and none but
    [cleanup_task] removes one: [update_task] keeps the set of task ids,
    [create_task] adds exactly the new id, [cleanup_task] removes exactly the
    given one. *)
Theorem registry_ids (ts : tasks) (task_id : str) (u : update) (n : Z) :
  dom (update_task ts task_id u) = dom ts
  /\ dom (fst (create_task ts task_id n)) = {[task_id]} ∪ dom ts
  /\ dom (cleanup_task ts task_id) = dom ts ∖ {[task_id]}.
Proof.
  split; [|split].
  - unfold update_task. destruct (ts !! task_id) as [t|] eqn:E; [|reflexivity].
    rewrite dom_insert_L. apply subseteq_union_1_L, singleton_subseteq_l.
    apply elem_of_dom. eauto.
  - cbn [create_task fst]. apply dom_insert_L.
  - unfold cleanup_task. destruct (ts !! task_id) as [t|] eqn:E.
    + apply dom_delete_L.
    + symmetry. apply difference_disjoint_L, disjoint_singleton_r.
      now apply not_elem_of_dom.
Qed.

(** X4.  Updates of two different tasks can be applied in either order:
    the registry is the same. *)
Theorem update_task_commute (ts : tasks) (a b : str) (u v : update) :
  a <> b ->
  update_task (update_task ts a u) b v = update_task (update_task ts b v) a u.
Proof.
  intros Hne. apply map_eq. intros k.
  destruct (ts !! a) as [ta|] eqn:Ea; destruct (ts !! b) as [tb|] eqn:Eb.
  - destruct (decide (k = a)) as [->|Hka]; [|destruct (decide (k = b)) as [->|Hkb]].
    + rewrite update_task_other by congruence.
      rewrite (update_task_known ts a u ta Ea).
      assert (Hb' : update_task ts b v !! a = Some ta)
        by (now rewrite update_task_other by congruence).
      now rewrite (update_task_known _ a u ta Hb').
    + rewrite (update_task_other _ a b u) by congruence.
      assert (Ha' : update_task ts a u !! b = Some tb)
        by (now rewrite update_task_other by congruence).
      rewrite (update_task_known _ b v tb Ha').
      now rewrite (update_task_known ts b v tb Eb).
    + now rewrite !update_task_other by congruence.
  - rewrite (update_task_unknown ts b v Eb).
    apply (f_equal (fun m : tasks => m !! k)).
    apply update_task_unknown. now rewrite update_task_other by congruence.
  - rewrite (update_task_unknown ts a u Ea).
    apply (f_equal (fun m : tasks => m !! k)). symmetry.
    apply update_task_unknown. now rewrite update_task_other by congruence.
  - now rewrite (update_task_unknown ts a u Ea), (update_task_unknown ts b v Eb),
      (update_task_unknown ts a u Ea).
Qed.

Lemma update_task_commute_witness :
  let ts : tasks := <[py "a" := fresh_task 1]> (<[py "b" := fresh_task 2]> ∅) in
  let u := {| u_status := Some PROCESSING; u_progress := None;
              u_message := None; u_completed_videos := None;
              u_file_path := None |} in
  let v := {| u_status := None; u_progress := None; u_message := None;
              u_completed_videos := Some 1;
              u_file_path := Some (py "downloads/x.mp3") |} in
  update_task (update_task ts (py "a") u) (py "b") v
  = update_task (update_task ts (py "b") v) (py "a") u.
Proof.
  intros ts u v. apply (update_task_commute ts (py "a") (py "b") u v).
  vm_compute. discriminate.
Defined.

(** X5.  After any number of [update_task] calls on a task, its file list
    is the list it had followed by the non-empty file paths that were
    passed, in the order of the calls. *)
Theorem recorded_files_in_order (us : list update) :
  forall (ts : tasks) (task_id : str) (t : task),
    ts !! task_id = Some t ->
    get_task_files (fold_left (fun r u => update_task r task_id u) us ts) task_id
    = file_paths t
      ++ flat_map (fun u => match u_file_path u with
                            | Some (c :: f) => [c :: f]
                            | _ => []
                            end) us.
Proof.
  induction us as [|u us IH]; intros ts task_id t Hin.
  - cbn [fold_left flat_map]. unfold get_task_files.
    now rewrite Hin, app_nil_r.
  - cbn [fold_left flat_map].
    rewrite (IH _ task_id _ (update_task_known ts task_id u t Hin)).
    rewrite apply_update_file_paths.
    destruct (u_file_path u) as [[|c f]|]; cbn [truthy default from_option app];
      rewrite <- ?app_assoc; reflexivity.
Qed.

Lemma recorded_files_in_order_witness :
  get_task_files
    (fold_left (fun r u => update_task r (py "t") u)
       [ {| u_status := None; u_progress := None; u_message := None;
            u_completed_videos := Some 1;
            u_file_path := Some (py "downloads/a.mp3") |};
         {| u_status := None; u_progress := None; u_message := None;
            u_completed_videos := None; u_file_path := Some [] |};
         {| u_status := None; u_progress := None; u_message := None;
            u_completed_videos := Some 2;
            u_file_path := Some (py "downloads/b.mp3") |} ]
       (<[py "t" := fresh_task 2]> ∅)) (py "t")
  = [py "downloads/a.mp3"; py "downloads/b.mp3"].
Proof.
  rewrite (recorded_files_in_order _ (<[py "t" := fresh_task 2]> ∅) (py "t")
             (fresh_task 2) (lookup_insert_eq _ _ _)).
  vm_compute. reflexivity.
Defined.

(** ** The URL validators, continued *)

Section ExtractorFacts.

Implicit Types (alts : list str) (s g : str).

Lemma take_while_class s :
  Forall (fun c => in_class c = true) (take_while in_class s).
Proof.
  induction s as [|c s IH]; [constructor|]. cbn [take_while].
  destruct (in_class c) eqn:E; [now constructor | constructor].
Qed.

Lemma match_here_class alts s g :
  match_here alts s = Some g -> Forall (fun c => in_class c = true) g.
Proof.
  induction alts as [|a alts IH]; [discriminate|]. cbn [match_here].
  destruct (starts_with a s); [|exact IH].
  unfold group1. destruct (take_while in_class _) as [|c g'] eqn:E; [exact IH|].
  intros [= <-]. rewrite <- E. apply take_while_class.
Qed.

Lemma search_class alts s g :
  search alts s = Some g -> Forall (fun c => in_class c = true) g.
Proof.
  induction s as [|c s IH]; cbn [search].
  - destruct (match_here alts []) eqn:E; [|discriminate].
    intros [= <-]. now apply match_here_class in E.
  - destruct (match_here alts (c :: s)) eqn:E; [|exact IH].
    intros [= <-]. now apply match_here_class in E.
Qed.

Lemma first_match_class ps s g :
  first_match ps s = Some g -> Forall (fun c => in_class c = true) g.
Proof.
  induction ps as [|pattern ps IH]; [discriminate|]. cbn [first_match].
  destruct (search pattern s) eqn:E; [|exact IH].
  intros [= <-]. now apply search_class in E.
Qed.

Lemma in_class_terminators c : in_class c = true -> ~ In c terminators.
Proof.
  unfold in_class. intros H Hin.
  assert (E : existsb (N.eqb c) terminators = true).
  { apply existsb_exists. exists c. split; [exact Hin | apply N.eqb_refl]. }
  rewrite E in H. discriminate.
Qed.

(** An alternative that is not at the start of the string is passed over. *)
Lemma match_here_next a alts s :
  starts_with a s = false -> match_here (a :: alts) s = match_here alts s.
Proof. intros H. cbn [match_here]. now rewrite H. Qed.

(** A match of a one-literal pattern needs the literal in the string. *)
Lemma search_contains lit s g :
  search [lit] s = Some g -> contains lit s = true.
Proof.
  induction s as [|c s IH]; cbn [search match_here contains].
  - destruct (starts_with lit []); [reflexivity|discriminate].
  - destruct (starts_with lit (c :: s)); [reflexivity|]. exact IH.
Qed.

(** A match anywhere makes [search] return something. *)
Lemma search_finds alts pre : forall rest g,
  match_here alts rest = Some g -> is_Some (search alts (pre ++ rest)).
Proof.
  induction pre as [|c pre IH]; intros rest g Hm.
  - cbn [app]. rewrite (search_here _ _ _ Hm). eauto.
  - cbn [app search]. destruct (match_here alts (c :: pre ++ rest)); [eauto|].
    now apply (IH rest g).
Qed.

End ExtractorFacts.

(** X6.  An identifier returned by [extract_video_id] or by
    [extract_playlist_id] is never empty and never holds one of the
    characters that end an identifier (ampersand, newline, question mark,
    hash). *)
Theorem extracted_id_clean (url g : str) :
  extract_video_id url = Some g \/ extract_playlist_id url = Some g ->
  g <> [] /\ (forall c, In c g -> ~ In c terminators).
Proof.
  intros [H|H].
  - split; [now apply (extract_video_id_nonempty url)|].
    apply first_match_class in H. rewrite List.Forall_forall in H.
    intros c Hc. now apply in_class_terminators, H.
  - split; [now apply (search_nonempty [py "list="] url)|].
    apply search_class in H. rewrite List.Forall_forall in H.
    intros c Hc. now apply in_class_terminators, H.
Qed.

Lemma extracted_id_clean_witness :
  py "abc123" <> [] /\ (forall c, In c (py "abc123") -> ~ In c terminators).
Proof.
  apply (extracted_id_clean
           (py "https://www.youtube.com/watch?v=abc123&t=10") (py "abc123")).
  left. vm_compute. reflexivity.
Defined.

(** X7.  [extract_playlist_id] returns a value only for a URL that contains
    [list=].  So a valid URL without [list=], which is the one
    [POST /api/info] treats as a single video, always has a video id. *)
Theorem playlist_id_needs_list (url : str) :
  (is_Some (extract_playlist_id url) -> contains (py "list=") url = true)
  /\ (contains (py "list=") url = false ->
      is_valid_youtube_url url = true ->
      is_Some (extract_video_id url)).
Proof.
  assert (H1 : is_Some (extract_playlist_id url) ->
               contains (py "list=") url = true).
  { intros [g Hg]. now apply (search_contains _ _ g). }
  split; [exact H1|].
  intros Hno Hvalid. apply is_valid_iff in Hvalid as [Hv|Hp]; [exact Hv|].
  apply H1 in Hp. congruence.
Qed.

Lemma playlist_id_needs_list_witness :
  is_Some (extract_video_id (py "https://youtu.be/abc123")).
Proof.
  apply (proj2 (playlist_id_needs_list (py "https://youtu.be/abc123")));
    vm_compute; reflexivity.
Defined.

(** X8.  The validator does not look at the host: any string that contains
    [list=] followed by a character other than ampersand, newline, question
    mark and hash is a valid URL for it. *)
Theorem any_host_with_list_is_valid (pre suf : str) (c : N) :
  in_class c = true ->
  is_valid_youtube_url (pre ++ py "list=" ++ c :: suf) = true.
Proof.
  intros Hc. apply is_valid_iff. right. unfold extract_playlist_id.
  apply (search_finds _ pre _ (c :: take_while in_class suf)).
  change (py "list=" ++ c :: suf) with (py "list=" ++ (c :: suf)).
  cbn [match_here]. rewrite starts_with_app, skipn_length_app.
  unfold group1. cbn [take_while]. now rewrite Hc.
Qed.

Lemma any_host_with_list_is_valid_witness :
  is_valid_youtube_url (py "https://example.com/?list=x") = true.
Proof.
  apply (any_host_with_list_is_valid (py "https://example.com/?") [] 120%N).
  vm_compute. reflexivity.
Defined.

(** X9.  Each of the four URL forms yields the identifier that follows it,
    for any identifier: [youtube.com/watch?v=ID] and [youtu.be/ID] when the
    first pattern has no earlier match; [youtube.com/embed/ID] when the first
    pattern has no match at all and the second none earlier;
    [youtube.com/v/ID] when the first two have no match and the third none
    earlier.  [ID] is a non-empty run of characters other than ampersand,
    newline, question mark and hash, followed by the end of the URL or by one
    of these. *)
Theorem extract_video_id_forms (pre g suf : str) :
  g <> [] -> Forall (fun c => in_class c = true) g -> id_ends suf ->
  (no_match_before watch_pattern pre (py "youtube.com/watch?v=" ++ g ++ suf) ->
   extract_video_id (pre ++ py "youtube.com/watch?v=" ++ g ++ suf) = Some g)
  /\ (no_match_before watch_pattern pre (py "youtu.be/" ++ g ++ suf) ->
      extract_video_id (pre ++ py "youtu.be/" ++ g ++ suf) = Some g)
  /\ (search watch_pattern (pre ++ py "youtube.com/embed/" ++ g ++ suf) = None ->
      no_match_before [py "youtube.com/embed/"] pre
        (py "youtube.com/embed/" ++ g ++ suf) ->
      extract_video_id (pre ++ py "youtube.com/embed/" ++ g ++ suf) = Some g)
  /\ (search watch_pattern (pre ++ py "youtube.com/v/" ++ g ++ suf) = None ->
      search [py "youtube.com/embed/"] (pre ++ py "youtube.com/v/" ++ g ++ suf)
      = None ->
      no_match_before [py "youtube.com/v/"] pre
        (py "youtube.com/v/" ++ g ++ suf) ->
      extract_video_id (pre ++ py "youtube.com/v/" ++ g ++ suf) = Some g).
Proof.
  intros Hne Hg Hsuf. unfold extract_video_id, patterns.
  cbn [first_match]. fold watch_pattern. repeat split.
  - intros Hno. rewrite (search_skip _ _ _ Hno). unfold watch_pattern.
    now rewrite (search_here _ _ g) by now apply match_here_id.
  - intros Hno. rewrite (search_skip _ _ _ Hno).
    rewrite (search_here _ _ g); [reflexivity|].
    unfold watch_pattern. rewrite match_here_next by (vm_compute; reflexivity).
    now apply match_here_id.
  - intros Hnone Hno. rewrite Hnone, (search_skip _ _ _ Hno).
    now rewrite (search_here _ _ g) by now apply match_here_id.
  - intros Hnone1 Hnone2 Hno. rewrite Hnone1, Hnone2, (search_skip _ _ _ Hno).
    now rewrite (search_here _ _ g) by now apply match_here_id.
Qed.

Lemma extract_video_id_forms_witness :
  extract_video_id (py "https://youtu.be/dQw4w9WgXcQ?t=42")
  = Some (py "dQw4w9WgXcQ").
Proof.
  apply (proj1 (proj2 (extract_video_id_forms (py "https://")
                         (py "dQw4w9WgXcQ") (py "?t=42")
                         ltac:(discriminate)
                         ltac:(vm_compute; repeat constructor)
                         ltac:(reflexivity)))).
  intros i Hi.
  do 8 (destruct i as [|i]; [vm_compute; reflexivity|]).
  vm_compute in Hi. lia.
Defined.

(** ** Durations *)

Import Durations.

Section DurationFacts.

(** The two characters of a number below sixty. *)
Lemma format_02d_two_digits (n : Z) :
  0 <= n < 60 ->
  format_02d n = [Z.to_N (48 + n / 10); Z.to_N (48 + n mod 10)].
Proof.
  assert (Hnat : forall k : nat, (k < 60)%nat ->
            format_02d (Z.of_nat k)
            = [Z.to_N (48 + Z.of_nat k / 10); Z.to_N (48 + Z.of_nat k mod 10)]).
  { intros k Hk.
    do 60 (destruct k as [|k]; [vm_compute; reflexivity|]). lia. }
  intros Hn. rewrite <- (Z2Nat.id n) by lia. apply Hnat. lia.
Qed.

Lemma py_length (s : string) : length (py s) = String.length s.
Proof.
  unfold py. rewrite length_map.
  induction s as [|a s IH]; [reflexivity|]. simpl. now rewrite IH.
Qed.

Lemma pretty_N_go_length (x : N) : forall s : string,
  (String.length s <= String.length (pretty_N_go x s))%nat.
Proof.
  induction (N.lt_wf_0 x) as [x _ IH]; intros s.
  destruct (N.eq_dec x 0%N) as [->|Hx]; [now rewrite pretty_N_go_0|].
  rewrite pretty_N_go_step by lia.
  etransitivity; [|apply IH; apply N.div_lt; lia]. simpl. lia.
Qed.

(** A positive number has at least one digit, so its padded form has at
    least two characters. *)
Lemma format_02d_length (n : Z) : 0 < n -> (2 <= length (format_02d n))%nat.
Proof.
  intros Hn. unfold format_02d.
  destruct (Nat.ltb_spec (length (str_of_int n)) 2) as [Hlt|Hge]; [|exact Hge].
  rewrite length_app. change (length (py "0")) with 1%nat.
  assert (1 <= length (str_of_int n))%nat; [|lia].
  unfold str_of_int. rewrite py_length.
  destruct n as [|p|p]; try lia.
  unfold pretty, pretty_Z, pretty, pretty_positive, pretty, pretty_N.
  destruct (decide (N.pos p = 0%N)); [discriminate|].
  rewrite pretty_N_go_step by lia.
  etransitivity; [|apply pretty_N_go_length]. simpl. lia.
Qed.

End DurationFacts.

(** X10.  Below one hour [format_duration] gives exactly five characters,
    two digits of minutes, a colon, two digits of seconds; from one hour on
    it gives the hours on at least two digits, a colon, and the five
    characters of the remainder of the hour. *)
Theorem format_duration_shape (seconds : Z) :
  (0 <= seconds < 3600 ->
     format_duration seconds
     = [Z.to_N (48 + seconds / 60 / 10); Z.to_N (48 + seconds / 60 mod 10);
        58%N;
        Z.to_N (48 + seconds mod 60 / 10); Z.to_N (48 + seconds mod 60 mod 10)])
  /\ (3600 <= seconds ->
        format_duration seconds
        = format_02d (seconds / 3600) ++ py ":"
          ++ format_duration (seconds mod 3600)
        /\ (8 <= length (format_duration seconds))%nat).
Proof.
  split.
  - intros Hs. unfold format_duration.
    replace (seconds / 3600) with 0 by (symmetry; apply Z.div_small; lia).
    replace (seconds mod 3600) with seconds by (symmetry; apply Z.mod_small; lia).
    cbn [Z.ltb Z.compare].
    assert (0 <= seconds / 60 < 60)
      by (split; [apply Z.div_pos; lia | apply Z.div_lt_upper_bound; lia]).
    assert (0 <= seconds mod 60 < 60) by (apply Z.mod_pos_bound; lia).
    now rewrite !format_02d_two_digits by assumption.
  - intros Hs.
    assert (Hh : 0 < seconds / 3600) by (apply Z.div_str_pos; lia).
    assert (Hm : 0 <= seconds mod 3600 < 3600) by (apply Z.mod_pos_bound; lia).
    assert (E : format_duration seconds
                = format_02d (seconds / 3600) ++ py ":"
                  ++ format_duration (seconds mod 3600)).
    { unfold format_duration.
      replace (0 <? seconds / 3600) with true by (symmetry; now apply Z.ltb_lt).
      replace (seconds mod 3600 / 3600) with 0
        by (symmetry; apply Z.div_small; lia).
      rewrite (Z.mod_small (seconds mod 3600) 3600) by lia.
      replace (seconds mod 3600 mod 60) with (seconds mod 60); [reflexivity|].
      symmetry. apply Z.mod_mod_divide. exists 60. reflexivity. }
    split; [exact E|]. rewrite E, !length_app.
    pose proof (format_02d_length _ Hh).
    assert (length (format_duration (seconds mod 3600)) = 5%nat); [|simpl; lia].
    unfold format_duration.
    replace (seconds mod 3600 / 3600) with 0
      by (symmetry; apply Z.div_small; lia).
    cbn [Z.ltb Z.compare].
    rewrite (Z.mod_small (seconds mod 3600) 3600) by lia.
    assert (0 <= seconds mod 3600 / 60 < 60)
      by (split; [apply Z.div_pos; lia | apply Z.div_lt_upper_bound; lia]).
    assert (0 <= seconds mod 3600 mod 60 < 60) by (apply Z.mod_pos_bound; lia).
    now rewrite !format_02d_two_digits by assumption.
Qed.

Lemma format_duration_shape_witness :
  format_duration 3661 = py "01:01:01" /\ format_duration 59 = py "00:59".
Proof.
  split.
  - rewrite (proj1 (proj2 (format_duration_shape 3661) ltac:(lia))).
    vm_compute. reflexivity.
  - rewrite (proj1 (format_duration_shape 59) ltac:(lia)).
    vm_compute. reflexivity.
Defined.

(** X11.  [format_duration] never shows a sign or an hour for an input
    below 3600: a negative number of seconds is rendered as the time it
    leaves within the hour, so [-1] reads as 59 minutes 59 seconds. *)
Theorem format_duration_wraps (seconds : Z) :
  seconds < 3600 ->
  format_duration seconds = format_duration (seconds mod 3600)
  /\ length (format_duration seconds) = 5%nat.
Proof.
  intros Hs.
  assert (Hm : 0 <= seconds mod 3600 < 3600) by (apply Z.mod_pos_bound; lia).
  assert (E : format_duration seconds = format_duration (seconds mod 3600)).
  { unfold format_duration.
    replace (0 <? seconds / 3600) with false
      by (symmetry; apply Z.ltb_ge;
          assert (seconds / 3600 < 1) by (apply Z.div_lt_upper_bound; lia); lia).
    replace (seconds mod 3600 / 3600) with 0
      by (symmetry; apply Z.div_small; lia).
    cbn [Z.ltb Z.compare].
    rewrite (Z.mod_small (seconds mod 3600) 3600) by lia.
    replace (seconds mod 3600 mod 60) with (seconds mod 60); [reflexivity|].
    symmetry. apply Z.mod_mod_divide. exists 60. reflexivity. }
  split; [exact E|]. rewrite E.
  now rewrite (proj1 (format_duration_shape (seconds mod 3600)) Hm).
Qed.

Lemma format_duration_wraps_witness :
  format_duration (-1) = py "59:59".
Proof.
  rewrite (proj1 (format_duration_wraps (-1) ltac:(lia))).
  vm_compute. reflexivity.
Defined.

(** X12.  Below one hour different durations read differently. *)
Theorem format_duration_injective (s1 s2 : Z) :
  0 <= s1 < 3600 -> 0 <= s2 < 3600 ->
  format_duration s1 = format_duration s2 -> s1 = s2.
Proof.
  intros H1 H2.
  rewrite (proj1 (format_duration_shape s1) H1),
    (proj1 (format_duration_shape s2) H2).
  intros [= Ea Eb Ec Ed].
  assert (0 <= s1 / 60 < 60 /\ 0 <= s2 / 60 < 60) as [? ?]
    by (split; (split; [apply Z.div_pos; lia | apply Z.div_lt_upper_bound; lia])).
  pose proof (Z.mod_pos_bound s1 60 ltac:(lia)).
  pose proof (Z.mod_pos_bound s2 60 ltac:(lia)).
  apply Z2N.inj in Ea, Eb, Ec, Ed;
    try (apply Z.add_nonneg_nonneg; [lia|]);
    try (apply Z.div_pos; lia); try (apply Z.mod_pos_bound; lia).
  pose proof (Z.div_mod (s1 / 60) 10 ltac:(lia)).
  pose proof (Z.div_mod (s2 / 60) 10 ltac:(lia)).
  pose proof (Z.div_mod (s1 mod 60) 10 ltac:(lia)).
  pose proof (Z.div_mod (s2 mod 60) 10 ltac:(lia)).
  pose proof (Z.div_mod s1 60 ltac:(lia)).
  pose proof (Z.div_mod s2 60 ltac:(lia)).
  lia.
Qed.

Lemma format_duration_injective_witness : 61 = 61.
Proof.
  apply (format_duration_injective 61 61); [lia | lia | reflexivity].
Defined.

(** ** The retention sweep *)

Import Retention.

Section SweepFacts.

Variable current_time : Q.

Lemma sweep_sound retention_seconds entries : forall p,
  In p (sweep current_time retention_seconds entries) ->
  exists e st_mtime,
    In e entries /\ e_path e = p /\ e_is_file e = true
    /\ e_mtime e = Some st_mtime
    /\ (retention_seconds < current_time - st_mtime)%Q
    /\ e_unlink_ok e = true.
Proof.
  induction entries as [|e entries IH]; intros p Hp; [destruct Hp|].
  cbn [sweep] in Hp.
  assert (Hrest : In p (sweep current_time retention_seconds entries) ->
                  exists e0 st_mtime,
                    In e0 (e :: entries) /\ e_path e0 = p /\ e_is_file e0 = true
                    /\ e_mtime e0 = Some st_mtime
                    /\ (retention_seconds < current_time - st_mtime)%Q
                    /\ e_unlink_ok e0 = true).
  { intros H. destruct (IH p H) as (e0 & m & Hin & Hrest).
    exists e0, m. split; [now right | exact Hrest]. }
  destruct (e_is_file e) eqn:Efile; [|now apply Hrest].
  destruct (e_mtime e) as [st_mtime|] eqn:Emtime; [|destruct Hp].
  destruct (Qle_bool (current_time - st_mtime) retention_seconds) eqn:Eage;
    cbn [negb] in Hp; [now apply Hrest|].
  destruct (e_unlink_ok e) eqn:Eunlink; [|destruct Hp].
  destruct Hp as [<-|Hp]; [|now apply Hrest].
  exists e, st_mtime. repeat split; auto; [now left|].
  apply Qnot_le_lt. intros Hle. apply Qle_bool_iff in Hle. congruence.
Qed.

Lemma sweep_complete retention_seconds entries :
  Forall (fun e => e_is_file e = true ->
                   e_mtime e <> None /\ e_unlink_ok e = true) entries ->
  forall e st_mtime,
    In e entries -> e_is_file e = true -> e_mtime e = Some st_mtime ->
    (retention_seconds < current_time - st_mtime)%Q ->
    In (e_path e) (sweep current_time retention_seconds entries).
Proof.
  induction 1 as [|e0 entries Hok Hall IH]; intros e m Hin Hfile Hmtime Hold;
    [destruct Hin|].
  cbn [sweep].
  assert (Hgo : In e entries ->
                In (e_path e) (sweep current_time retention_seconds entries))
    by (intros H; now apply (IH e m)).
  destruct (e_is_file e0) eqn:Efile0.
  - destruct (Hok eq_refl) as [Hm0 Hu0].
    destruct (e_mtime e0) as [m0|] eqn:Emtime0; [|congruence].
    rewrite Hu0.
    destruct (Qle_bool (current_time - m0) retention_seconds) eqn:Eage;
      cbn [negb].
    + destruct Hin as [->|Hin]; [|now apply Hgo].
      exfalso. apply Qle_bool_iff in Eage.
      assert (m0 = m) by congruence. subst m0.
      apply (Qlt_not_le _ _ Hold Eage).
    + destruct Hin as [->|Hin]; [now left | right; now apply Hgo].
  - destruct Hin as [->|Hin]; [congruence | now apply Hgo].
Qed.

End SweepFacts.

(** X13.  [cleanup_old_files] only ever deletes regular files that are older
    than the retention window: a directory, or a file whose age is at most
    3600 seconds, is never deleted.  When no [stat] and no [unlink] fails it
    deletes every regular file that is older. *)
Theorem cleanup_old_files_exact (current_time : Q) (entries : list dir_entry) :
  (forall p, In p (cleanup_old_files current_time entries) ->
     exists e, In e entries /\ e_path e = p /\ expired current_time e)
  /\ (Forall (fun e => e_is_file e = true ->
                       e_mtime e <> None /\ e_unlink_ok e = true) entries ->
      forall e, In e entries -> expired current_time e ->
                In (e_path e) (cleanup_old_files current_time entries)).
Proof.
  unfold cleanup_old_files, expired. split.
  - intros p Hp.
    destruct (sweep_sound current_time _ entries p Hp)
      as (e & m & Hin & Hpath & Hfile & Hm & Hold & _).
    exists e. eauto 10.
  - intros Hok e Hin (Hfile & m & Hm & Hold).
    now apply (sweep_complete current_time _ entries Hok e m).
Qed.

Lemma cleanup_old_files_exact_witness :
  In (py "downloads/old.mp3")
    (cleanup_old_files 10000
       [ {| e_path := py "downloads/new.mp3"; e_is_file := true;
            e_mtime := Some 9000%Q; e_unlink_ok := true |};
         {| e_path := py "downloads/sub"; e_is_file := false;
            e_mtime := Some 0%Q; e_unlink_ok := true |};
         {| e_path := py "downloads/old.mp3"; e_is_file := true;
            e_mtime := Some 100%Q; e_unlink_ok := true |} ]).
Proof.
  refine (proj2 (cleanup_old_files_exact 10000 _) _
            {| e_path := py "downloads/old.mp3"; e_is_file := true;
               e_mtime := Some 100%Q; e_unlink_ok := true |} _ _).
  - repeat (apply List.Forall_cons;
            [intros Hf; simpl in Hf;
             first [discriminate Hf | split; [discriminate | reflexivity]]|]).
    apply List.Forall_nil.
  - right. right. left. reflexivity.
  - split; [reflexivity|]. exists 100%Q. split; [reflexivity|].
    vm_compute. reflexivity.
Defined.

(** ** The metadata lookups *)

Section MetadataFacts.

Import Metadata.

Lemma make_video_info_fields info video :
  make_video_info info = Some video ->
  r_id info = Val (id video) /\ r_title info = Val (title video)
  /\ selected video = true.
Proof.
  unfold make_video_info.
  destruct (r_id info) as [| |i]; try discriminate.
  destruct (r_title info) as [| |t]; try discriminate.
  destruct (get (r_duration info) 0); [|discriminate].
  destruct (get (r_thumbnail info) []); [|discriminate].
  intros [= <-]. auto.
Qed.

Lemma playlist_videos_all entries : forall videos,
  playlist_videos entries = Some videos ->
  Forall2 (fun info video => make_video_info info = Some video)
    (present entries) videos.
Proof.
  induction entries as [|[entry|] entries IH]; intros videos; cbn [playlist_videos present].
  - intros [= <-]. constructor.
  - destruct (make_video_info entry) as [video|] eqn:E; [|discriminate].
    destruct (playlist_videos entries) as [vs|]; [|discriminate].
    intros [= <-]. constructor; [exact E | now apply IH].
  - apply IH.
Qed.

Lemma playlist_videos_malformed entries entry :
  In entry (present entries) -> make_video_info entry = None ->
  playlist_videos entries = None.
Proof.
  induction entries as [|[e|] entries IH]; cbn [playlist_videos present];
    intros Hin Hbad; [destruct Hin| |now apply IH].
  destruct Hin as [->|Hin]; [now rewrite Hbad|].
  destruct (make_video_info e); [|reflexivity].
  now rewrite (IH Hin Hbad).
Qed.

End MetadataFacts.

(** X14.  [get_playlist_info] is all or nothing.  When it returns videos
    there is one per non-empty entry, in the order of the entries, each with
    the entry's id and title and with [selected] true.  When a single
    non-empty entry lacks its id or title, or holds a [None] value, the whole
    playlist comes back as [(None, [])], and [POST /api/info] answers 404
    "Playlist not found or empty" for it. *)
Theorem get_playlist_info_all_or_nothing (extracted : option Metadata.raw_playlist) :
  (forall title videos,
     Metadata.get_playlist_info extracted = (title, videos) ->
     videos <> [] ->
     exists info entries,
       extracted = Some info /\ Metadata.p_entries info = Some entries
       /\ Forall2 (fun e v => Metadata.r_id e = Metadata.Val (id v)
                              /\ Metadata.r_title e = Metadata.Val (Models.title v)
                              /\ selected v = true)
            (Metadata.present entries) videos)
  /\ (forall info entries entry,
        extracted = Some info -> Metadata.p_entries info = Some entries ->
        In entry (Metadata.present entries) ->
        Metadata.make_video_info entry = None ->
        Metadata.get_playlist_info extracted = (None, [])
        /\ forall service_get_video_info request,
             Validators.is_valid_youtube_url (url request) = true ->
             contains (py "list=") (url request) = true ->
             Routes.get_video_info
               (fun _ => Metadata.get_playlist_info extracted)
               service_get_video_info request
             = Routes.HTTPException 404 (py "Playlist not found or empty")).
Proof.
  split.
  - intros title videos Hget Hne. unfold Metadata.get_playlist_info in Hget.
    destruct extracted as [info|]; [|injection Hget as _ <-; congruence].
    destruct (Metadata.p_entries info) as [entries|] eqn:Eentries;
      [|injection Hget as _ <-; congruence].
    destruct (Metadata.playlist_videos entries) as [vs|] eqn:Evs;
      [|injection Hget as _ <-; congruence].
    injection Hget as _ <-. exists info, entries. repeat split; auto.
    apply playlist_videos_all in Evs.
    eapply Forall2_impl; [exact Evs|].
    intros e v Hev. now apply make_video_info_fields.
  - intros info entries entry -> Hentries Hin Hbad.
    assert (E : Metadata.get_playlist_info (Some info) = (None, [])).
    { unfold Metadata.get_playlist_info. rewrite Hentries.
      now rewrite (playlist_videos_malformed entries entry Hin Hbad). }
    split; [exact E|].
    intros vi request Hvalid Hlist. unfold Routes.get_video_info.
    now rewrite Hvalid, Hlist, E.
Qed.

Lemma get_playlist_info_all_or_nothing_witness :
  Metadata.get_playlist_info
    (Some {| Metadata.p_title := Metadata.Val (py "Mix");
             Metadata.p_entries :=
               Some [ Some {| Metadata.r_id := Metadata.Val (py "a");
                              Metadata.r_title := Metadata.Val (py "A");
                              Metadata.r_duration := Metadata.Absent;
                              Metadata.r_thumbnail := Metadata.Absent |};
                      None;
                      Some {| Metadata.r_id := Metadata.Val (py "b");
                              Metadata.r_title := Metadata.Absent;
                              Metadata.r_duration := Metadata.Val 10;
                              Metadata.r_thumbnail := Metadata.Absent |} ] |})
  = (None, []).
Proof.
  set (bad := {| Metadata.r_id := Metadata.Val (py "b");
                 Metadata.r_title := Metadata.Absent;
                 Metadata.r_duration := Metadata.Val 10;
                 Metadata.r_thumbnail := Metadata.Absent |}).
  match goal with
  | |- Metadata.get_playlist_info (Some ?i) = _ => set (info := i)
  end.
  match eval cbv delta [info] in info with
  | {| Metadata.p_entries := Some ?l |} =>
      exact (proj1 (proj2 (get_playlist_info_all_or_nothing (Some info))
                      info l bad eq_refl eq_refl
                      (or_intror (or_introl eq_refl)) eq_refl))
  end.
Defined.

(** ** The progress hook, continued *)

Section HookMoreFacts.

Variable py_float : str -> option Q.
Variable format_0f : Q -> str.

(** With percents from 0 to 100 the hook keeps the progress in the band from
    10 to 80. *)
Lemma hook_updates_band events : forall last_percent,
  Forall (fun l => 0 <= l /\ l <= 100)%Q (levels py_float events) ->
  Forall (fun p => 10 <= p /\ p <= 80)%Q
    (applied_progress (hook_updates py_float format_0f last_percent events)).
Proof.
  induction events as [|d events IH]; intros last_percent Hrange;
    [constructor|].
  cbn [levels hook_updates] in *. unfold level, reported_percent in *.
  unfold progress_hook.
  destruct (h_status d).
  - destruct (py_float _) as [percent|]; [|now apply IH].
    inversion Hrange as [|? ? [Hlo Hhi] Hrange']; subst.
    destruct (Qle_bool 5 (Qabs (percent - last_percent))); [|now apply IH].
    cbn [applied_progress u_progress].
    constructor; [split; lra | now apply IH].
  - inversion Hrange as [|? ? _ Hrange']; subst.
    cbn [applied_progress u_progress].
    constructor; [split; lra | now apply IH].
  - now apply IH.
Qed.


End HookMoreFacts.

(** X15.  The progress hook can neither end a task nor touch its counters or
    files: every update it schedules passes a progress and a non-empty
    message, and no status, no completed count and no file path. *)
Theorem hook_updates_only_progress (py_float : str -> option Q)
  (format_0f : Q -> str) (events : list hook_event) (last_percent : Q) :
  Forall (fun u => u_status u = None /\ u_completed_videos u = None
                   /\ u_file_path u = None
                   /\ is_Some (u_progress u) /\ truthy (u_message u) = true)
    (hook_updates py_float format_0f last_percent events).
Proof.
  revert last_percent.
  induction events as [|d events IH]; intros last_percent; [constructor|].
  cbn [hook_updates]. unfold progress_hook.
  destruct (h_status d).
  - destruct (py_float _) as [percent|]; [|apply IH].
    destruct (Qle_bool _ _); [|apply IH].
    constructor; [|apply IH]. cbn. repeat split; eauto.
  - constructor; [|apply IH]. cbn. repeat split; eauto.
  - apply IH.
Qed.

(** X16.  While yt-dlp reports percents between 0 and 100, every progress
    value the hook applies lies between 10 and 80. *)
Theorem hook_progress_band (py_float : str -> option Q) (format_0f : Q -> str)
  (events : list hook_event) (last_percent : Q) :
  Forall (fun l => 0 <= l /\ l <= 100)%Q (levels py_float events) ->
  Forall (fun p => 10 <= p /\ p <= 80)%Q
    (applied_progress (hook_updates py_float format_0f last_percent events)).
Proof. apply hook_updates_band. Qed.

Lemma hook_progress_band_witness :
  Forall (fun p => 10 <= p /\ p <= 80)%Q
    (applied_progress
       (hook_updates Samples.float_of_decimal Samples.format_0f 0
          [Samples.downloading " 60.0%"; Samples.downloading " 10.0%";
           Samples.finished])).
Proof.
  apply hook_progress_band.
  vm_compute. repeat constructor; discriminate.
Defined.



(** ** The download workflows, continued *)

Import Outcomes.

Section OutcomeFacts.

Implicit Types (ts : tasks) (t : task) (acts : list action) (task_id : str).

(** Updates that pass no status, count or file keep these fields. *)
Lemma run_progress_updates task_id us : forall ts t,
  Forall (fun u => u_status u = None /\ u_completed_videos u = None
                   /\ u_file_path u = None) us ->
  ts !! task_id = Some t ->
  exists t', run ts (List.map (UpdateTask task_id) us) !! task_id = Some t'
    /\ status t' = status t /\ completed_videos t' = completed_videos t
    /\ file_paths t' = file_paths t /\ total_videos t' = total_videos t.
Proof.
  induction us as [|u us IH]; intros ts t Hus Hin; [exists t; auto|].
  inversion Hus as [|? ? (Hs & Hc & Hf) Hus']; subst.
  cbn [List.map]. rewrite run_cons.
  destruct (IH _ _ Hus' (exec_update_known task_id ts u t Hin))
    as (t' & Hrun & Est & Ec & Ef & Etot).
  exists t'. split; [exact Hrun|].
  rewrite Est, Ec, Ef, Etot, apply_update_status, apply_update_completed_videos,
    apply_update_file_paths, apply_update_total_videos, Hs, Hc, Hf.
  auto.
Qed.

(** A workflow whose updates are all for one task leaves the others alone,
    and leaves the whole registry alone when its task is not there. *)
Lemma run_only_for task_id acts : forall ts,
  only_for task_id acts ->
  (forall other, other <> task_id -> run ts acts !! other = ts !! other)
  /\ (ts !! task_id = None -> run ts acts = ts).
Proof.
  induction acts as [|a acts IH]; intros ts Hall; [split; reflexivity|].
  inversion Hall as [|? ? Ha Hall']; subst. rewrite run_cons.
  destruct (IH (exec ts a) Hall') as [IH1 IH2]. split.
  - intros other Hne. rewrite (IH1 other Hne).
    destruct a as [| | |target u]; try reflexivity.
    subst target. now apply update_task_other.
  - intros Hout.
    assert (E : exec ts a = ts).
    { destruct a as [| | |target u]; try reflexivity.
      subst target. now apply update_task_unknown. }
    rewrite E in *. now apply IH2.
Qed.

Lemma only_for_app task_id acts1 acts2 :
  only_for task_id acts1 -> only_for task_id acts2 ->
  only_for task_id (acts1 ++ acts2).
Proof. intros H1 H2. apply Forall_app. now split. Qed.

Lemma only_for_map task_id us : only_for task_id (List.map (UpdateTask task_id) us).
Proof. apply Forall_map, List.Forall_forall. intros u _. reflexivity. Qed.

End OutcomeFacts.

(** X18.  How [download_single_video] leaves its task.  If the metadata was
    fetched, the download returned and the file is there, the task is
    completed with progress 100, the message "Download completed!", one
    completed video, and the file appended to its list.  Otherwise it is
    failed, with the message of the step that failed, and its file list and
    completed count are as before.  The total is never changed. *)
Theorem single_video_outcome (nfkd : str -> str) (py_float : str -> option Q)
  (format_0f : Q -> str) (o : outcome) (url task_id : str)
  (ts : tasks) (t : task) :
  ts !! task_id = Some t ->
  exists t',
    run ts (download_single_video nfkd py_float format_0f o url task_id)
      !! task_id = Some t'
    /\ total_videos t' = total_videos t
    /\ match o_info o, o_error o, o_file_exists o with
       | Some video_info, None, true =>
           status t' = COMPLETED /\ progress t' = 100%Q
           /\ message t' = py "Download completed!"
           /\ completed_videos t' = 1
           /\ file_paths t' = file_paths t ++ [final_file nfkd (title video_info)]
       | None, _, _ =>
           status t' = FAILED
           /\ message t' = py "Failed to fetch video information"
           /\ completed_videos t' = completed_videos t
           /\ file_paths t' = file_paths t
       | Some _, Some e, _ =>
           status t' = FAILED /\ message t' = py "Error: " ++ e
           /\ completed_videos t' = completed_videos t
           /\ file_paths t' = file_paths t
       | Some _, None, false =>
           status t' = FAILED /\ message t' = py "File conversion failed"
           /\ completed_videos t' = completed_videos t
           /\ file_paths t' = file_paths t
       end.
Proof.
  intros Hin. unfold download_single_video. rewrite run_cons.
  match goal with |- context [exec ts (UpdateTask task_id ?u)] =>
    pose proof (exec_update_known task_id ts u t Hin) as Hin1;
    set (t1 := apply_update u t) in *
  end.
  assert (E1 : total_videos t1 = total_videos t
               /\ completed_videos t1 = completed_videos t
               /\ file_paths t1 = file_paths t).
  { subst t1. now rewrite apply_update_total_videos,
      apply_update_completed_videos, apply_update_file_paths. }
  destruct E1 as (Etot1 & Ec1 & Ef1).
  rewrite run_cons. cbn [exec].
  destruct (o_info o) as [video_info|].
  - rewrite run_cons. cbn [exec]. rewrite run_app.
    assert (Hq : Forall (fun u => u_status u = None
                                  /\ u_completed_videos u = None
                                  /\ u_file_path u = None)
                   (hook_updates py_float format_0f 0 (o_events o))).
    { eapply Forall_impl; [apply hook_updates_only_progress|].
      intros u (? & ? & ? & _). auto. }
    destruct (run_progress_updates task_id _ _ t1 Hq Hin1) as
      (t2 & Hin2 & Est2 & Ec2 & Ef2 & Etot2).
    destruct (o_error o) as [e|]; [|destruct (o_file_exists o)].
    + eexists. split; [apply (exec_update_known task_id _ _ _ Hin2)|].
      rewrite apply_update_total_videos, apply_update_status,
        apply_update_message, apply_update_completed_videos,
        apply_update_file_paths, Etot2, Ec2, Ef2, Etot1, Ec1, Ef1.
      repeat split; reflexivity.
    + rewrite run_cons. cbn [exec].
      eexists. split; [apply (exec_update_known task_id _ _ _ Hin2)|].
      rewrite apply_update_total_videos, apply_update_status,
        apply_update_message, apply_update_completed_videos,
        apply_update_file_paths, apply_update_progress, Etot2, Ef2, Etot1, Ef1.
      repeat split; reflexivity.
    + rewrite run_cons. cbn [exec].
      eexists. split; [apply (exec_update_known task_id _ _ _ Hin2)|].
      rewrite apply_update_total_videos, apply_update_status,
        apply_update_message, apply_update_completed_videos,
        apply_update_file_paths, Etot2, Ec2, Ef2, Etot1, Ec1, Ef1.
      repeat split; reflexivity.
  - eexists. split; [apply (exec_update_known task_id _ _ _ Hin1)|].
    rewrite apply_update_total_videos, apply_update_status,
      apply_update_message, apply_update_completed_videos,
      apply_update_file_paths, Etot1, Ec1, Ef1.
    repeat split; reflexivity.
Qed.

Lemma single_video_outcome_witness :
  exists t',
    run (<[py "t" := fresh_task 1]> ∅)
      (download_single_video Samples.nfkd Samples.float_of_decimal
         Samples.format_0f (Samples.success "Song")
         (py "https://youtu.be/abc123") (py "t")) !! py "t" = Some t'
    /\ status t' = COMPLETED
    /\ file_paths t' = [py "downloads/Song.mp3"].
Proof.
  destruct (single_video_outcome Samples.nfkd Samples.float_of_decimal
              Samples.format_0f (Samples.success "Song")
              (py "https://youtu.be/abc123") (py "t")
              (<[py "t" := fresh_task 1]> ∅) (fresh_task 1)
              (lookup_insert_eq _ _ _))
    as (t' & Hrun & _ & Hs & _ & _ & _ & Hf).
  exists t'. split; [exact Hrun|]. split; [exact Hs|].
  rewrite Hf. vm_compute. reflexivity.
Defined.

Section FrameFacts.

Variable nfkd : str -> str.

Lemma download_single_video_only_for py_float format_0f o url task_id :
  only_for task_id
    (download_single_video nfkd py_float format_0f o url task_id).
Proof.
  unfold download_single_video, only_for.
  constructor; [reflexivity|]. constructor; [exact I|].
  destruct (o_info o) as [video_info|]; [|repeat constructor].
  constructor; [exact I|]. apply Forall_app. split; [apply only_for_map|].
  destruct (o_error o); [repeat constructor|].
  destruct (o_file_exists o); repeat constructor.
Qed.

Lemma download_playlist_only_for w video_ids task_id :
  only_for task_id (download_playlist nfkd w video_ids task_id).
Proof.
  unfold download_playlist, only_for.
  pose proof (playlist_loop_updates nfkd w task_id (len video_ids)
                video_ids 0%nat 0) as Hloop.
  destruct (playlist_loop nfkd w task_id (len video_ids) 0 video_ids 0)
    as [acts completed].
  cbn [fst] in Hloop. constructor; [reflexivity|]. apply Forall_app. split.
  - eapply Forall_impl; [exact Hloop|].
    intros [| | |target u]; simpl; auto. now intros (-> & _).
  - constructor; [|constructor]. now destruct (0 <? completed).
Qed.

End FrameFacts.

(** X19.  A workflow only ever writes to its own task: after
    [download_single_video] or [download_playlist] every other task's record
    is what it was, and when the workflow's task is not in the registry (it
    was removed while the work was under way) the whole registry is what it
    was: nothing is raised and nothing is created. *)
Theorem workflows_touch_only_their_task (nfkd : str -> str)
  (py_float : str -> option Q) (format_0f : Q -> str) (ts : tasks)
  (task_id : str) (acts : list action) :
  (exists o url,
     acts = download_single_video nfkd py_float format_0f o url task_id)
  \/ (exists w video_ids, acts = download_playlist nfkd w video_ids task_id) ->
  (forall other, other <> task_id -> run ts acts !! other = ts !! other)
  /\ (ts !! task_id = None -> run ts acts = ts).
Proof.
  intros Hacts. apply run_only_for.
  destruct Hacts as [(o & url & ->)|(w & video_ids & ->)].
  - apply download_single_video_only_for.
  - apply download_playlist_only_for.
Qed.

Lemma workflows_touch_only_their_task_witness :
  run (<[py "a" := fresh_task 1]> ∅)
    (download_playlist Samples.nfkd (fun _ _ => Samples.success "Song")
       [py "x"; py "y"] (py "gone"))
  = <[py "a" := fresh_task 1]> ∅.
Proof.
  apply (proj2 (workflows_touch_only_their_task Samples.nfkd
                  Samples.float_of_decimal Samples.format_0f
                  (<[py "a" := fresh_task 1]> ∅) (py "gone") _
                  (or_intror (ex_intro _ _ (ex_intro _ _ eq_refl))))).
  vm_compute. reflexivity.
Defined.

Section PlaylistFileFacts.

Variable nfkd : str -> str.
Variable w : nat -> str -> outcome.
Variable task_id : str.
Variable total : Z.

Ltac item_split idx video_id :=
  cbn [playlist_loop produced_files successes]; unfold succeeded;
  destruct (o_info (w idx video_id)) as [video_info|];
  [destruct (o_error (w idx video_id)) as [e|];
   [|destruct (o_file_exists (w idx video_id))]|].

Lemma truthy_in_download_dir (name : str) :
  truthy (Some (Config.in_download_dir name)) = true.
Proof. reflexivity. Qed.

(** The loop appends the files of the successful items, in order. *)
Lemma playlist_loop_files video_ids : forall idx completed (ts : tasks) t,
  ts !! task_id = Some t ->
  exists t',
    run ts (fst (playlist_loop nfkd w task_id total idx video_ids completed))
      !! task_id = Some t'
    /\ file_paths t' = file_paths t ++ produced_files nfkd w idx video_ids.
Proof.
  induction video_ids as [|video_id rest IH]; intros idx completed ts t Hin.
  - exists t. cbn [playlist_loop fst run fold_left produced_files].
    now rewrite app_nil_r.
  - item_split idx video_id.
    + match goal with |- context [UpdateTask task_id ?u] =>
        pose proof (exec_update_known task_id ts u t Hin) as Hin1;
        destruct (IH (S idx) completed _ _ Hin1) as (t' & Hrun & Hf)
      end.
      destruct (playlist_loop nfkd w task_id total (S idx) rest completed).
      exists t'. cbn [fst snd run fold_left exec app] in *.
      now rewrite Hrun, Hf, apply_update_file_paths.
    + match goal with |- context [UpdateTask task_id ?u :: YdlDownload _ _ :: _] =>
        pose proof (exec_update_known task_id ts u t Hin) as Hin1
      end.
      match goal with |- context [FileExists _ :: UpdateTask task_id ?u :: _] =>
        pose proof (exec_update_known task_id _ u _ Hin1) as Hin2;
        destruct (IH (S idx) (completed + 1) _ _ Hin2) as (t' & Hrun & Hf)
      end.
      destruct (playlist_loop nfkd w task_id total (S idx) rest (completed + 1)).
      exists t'. cbn [fst snd run fold_left exec app] in *.
      rewrite Hrun, Hf, !apply_update_file_paths.
      split; [reflexivity|]. unfold final_file.
      cbn [u_file_path]. rewrite truthy_in_download_dir.
      cbn [truthy default from_option]. now rewrite <- app_assoc.
    + match goal with |- context [UpdateTask task_id ?u] =>
        pose proof (exec_update_known task_id ts u t Hin) as Hin1;
        destruct (IH (S idx) completed _ _ Hin1) as (t' & Hrun & Hf)
      end.
      destruct (playlist_loop nfkd w task_id total (S idx) rest completed).
      exists t'. cbn [fst snd run fold_left exec app] in *.
      now rewrite Hrun, Hf, apply_update_file_paths.
    + destruct (IH (S idx) completed _ _ Hin) as (t' & Hrun & Hf).
      destruct (playlist_loop nfkd w task_id total (S idx) rest completed).
      exists t'. cbn [fst snd run fold_left exec app] in *.
      now rewrite Hrun.
Qed.

Lemma produced_files_length video_ids : forall idx,
  Z.of_nat (length (produced_files nfkd w idx video_ids))
  = successes w idx video_ids.
Proof.
  induction video_ids as [|video_id rest IH]; intros idx; [reflexivity|].
  item_split idx video_id; cbn [length]; rewrite <- (IH (S idx)); lia.
Qed.

End PlaylistFileFacts.

(** X20.  After [download_playlist] the file list of the task is the list it
    had followed by the files of the successful items, in the order of the
    playlist; started on a new task, the list therefore has exactly as many
    files as the task counts completed videos. *)
Theorem playlist_files (nfkd : str -> str) (w : nat -> str -> outcome)
  (video_ids : list str) (task_id : str) (ts : tasks) (t : task) :
  ts !! task_id = Some t ->
  exists t',
    run ts (download_playlist nfkd w video_ids task_id) !! task_id = Some t'
    /\ file_paths t' = file_paths t ++ produced_files nfkd w 0 video_ids
    /\ len (produced_files nfkd w 0 video_ids) = successes w 0 video_ids
    /\ (file_paths t = [] -> completed_videos t = 0 ->
        len (file_paths t') = completed_videos t').
Proof.
  intros Hin. unfold download_playlist.
  match goal with |- context [UpdateTask task_id ?u :: _ ++ _] =>
    pose proof (exec_update_known task_id ts u t Hin) as Hin1
  end.
  destruct (playlist_loop_files nfkd w task_id (len video_ids) video_ids
              0%nat 0 _ _ Hin1) as (t2 & Hrun2 & Hf2).
  destruct (playlist_loop_effect nfkd w task_id (len video_ids) video_ids
              0%nat 0 _ _ Hin1) as (t2' & Hrun2' & _ & Hc2).
  assert (t2' = t2) by congruence. subst t2'.
  pose proof (produced_files_length nfkd w video_ids 0%nat) as Hlen.
  destruct (playlist_loop nfkd w task_id (len video_ids) 0 video_ids 0)
    as [loop completed].
  cbn [fst] in *. rewrite run_cons, run_app. cbn [run fold_left] in *.
  rewrite apply_update_file_paths, apply_update_completed_videos in *.
  cbn [u_file_path u_completed_videos truthy default from_option] in *.
  assert (Hend : forall t',
            file_paths t' = file_paths t2 ->
            completed_videos t' = completed_videos t2 ->
            file_paths t' = file_paths t ++ produced_files nfkd w 0 video_ids
            /\ len (produced_files nfkd w 0 video_ids) = successes w 0 video_ids
            /\ (file_paths t = [] -> completed_videos t = 0 ->
                len (file_paths t') = completed_videos t')).
  { intros t' Hf3 Hc3. rewrite Hf3, Hf2.
    split; [reflexivity|]. split; [exact Hlen|].
    intros Hnil Hzero. rewrite Hc3, Hc2, Hnil, Hzero. cbn [app].
    unfold len in *. rewrite Hlen.
    destruct (successes w 0 video_ids =? 0) eqn:E0; [|lia].
    apply Z.eqb_eq in E0. lia. }
  destruct (0 <? completed);
    (eexists; split; [apply (exec_update_known task_id _ _ _ Hrun2)|];
     apply Hend;
     [now rewrite apply_update_file_paths
     | now rewrite apply_update_completed_videos]).
Qed.

Lemma playlist_files_witness :
  exists t',
    run (<[py "t" := fresh_task 3]> ∅)
      (download_playlist Samples.nfkd
         (fun idx _ => if Nat.eqb idx 1 then Samples.unavailable
                       else if Nat.eqb idx 0 then Samples.success "One"
                       else Samples.success "Three")
         [py "a"; py "b"; py "c"] (py "t")) !! py "t" = Some t'
    /\ file_paths t' = [py "downloads/One.mp3"; py "downloads/Three.mp3"].
Proof.
  destruct (playlist_files Samples.nfkd
              (fun idx _ => if Nat.eqb idx 1 then Samples.unavailable
                            else if Nat.eqb idx 0 then Samples.success "One"
                            else Samples.success "Three")
              [py "a"; py "b"; py "c"] (py "t")
              (<[py "t" := fresh_task 3]> ∅) (fresh_task 3)
              (lookup_insert_eq _ _ _)) as (t' & Hrun & Hf & _).
  exists t'. split; [exact Hrun|]. rewrite Hf. vm_compute. reflexivity.
Defined.

Section PlaylistProgressFacts.

Variable nfkd : str -> str.
Variable w : nat -> str -> outcome.
Variable task_id : str.
Variable total : Z.
Hypothesis total_pos : 0 < total.

Lemma ratio_mono (a b : Z) :
  a <= b ->
  (inject_Z a / inject_Z total * 100 <= inject_Z b / inject_Z total * 100)%Q.
Proof.
  intros Hab. unfold Qdiv.
  apply Qmult_le_compat_r; [|discriminate].
  apply Qmult_le_compat_r; [now rewrite <- Zle_Qle|].
  apply Qinv_le_0_compat. change 0%Q with (inject_Z 0). rewrite <- Zle_Qle. lia.
Qed.

Lemma ratio_full : (inject_Z total / inject_Z total * 100 == 100)%Q.
Proof.
  assert (H : ~ (inject_Z total == 0)%Q).
  { change 0%Q with (inject_Z 0). rewrite inject_Z_injective. lia. }
  field. exact H.
Qed.

Lemma ratio_zero : (inject_Z 0 / inject_Z total * 100 == 0)%Q.
Proof.
  assert (H : ~ (inject_Z total == 0)%Q).
  { change 0%Q with (inject_Z 0). rewrite inject_Z_injective. lia. }
  change (inject_Z 0) with 0%Q. field. exact H.
Qed.

Ltac item_split' idx video_id :=
  cbn [playlist_loop]; 
  destruct (o_info (w idx video_id)) as [video_info|];
  [destruct (o_error (w idx video_id)) as [e|];
   [|destruct (o_file_exists (w idx video_id))]|].

(** The progress values the loop passes go up, from the value for the counter
    at entry to at most 100. *)
Lemma playlist_loop_progress video_ids : forall idx completed,
  0 <= completed -> completed + Z.of_nat (length video_ids) <= total ->
  let ps := applied_progress
              (updates_of
                 (fst (playlist_loop nfkd w task_id total idx video_ids
                         completed))) in
  StronglySorted Qle ps
  /\ Forall (fun p => inject_Z completed / inject_Z total * 100 <= p
                      /\ p <= 100)%Q ps.
Proof.
  induction video_ids as [|video_id rest IH]; intros idx completed Hc Htot ps;
    subst ps.
  - split; constructor.
  - cbn [length] in Htot. item_split' idx video_id.
    + destruct (IH (S idx) completed Hc ltac:(lia)) as [Hs Hb].
      destruct (playlist_loop nfkd w task_id total (S idx) rest completed).
      cbn [fst app updates_of applied_progress u_progress] in *. now split.
    + destruct (IH (S idx) (completed + 1) ltac:(lia) ltac:(lia)) as [Hs Hb].
      destruct (playlist_loop nfkd w task_id total (S idx) rest (completed + 1)).
      cbn [fst app updates_of applied_progress u_progress] in *.
      pose proof (ratio_mono completed (completed + 1) ltac:(lia)) as Hup.
      pose proof (ratio_mono (completed + 1) total ltac:(lia)) as Hmax.
      rewrite ratio_full in Hmax. split.
      * constructor; [exact Hs|].
        eapply Forall_impl; [exact Hb|]. intros p [Hp _]. exact Hp.
      * constructor; [split; assumption|].
        eapply Forall_impl; [exact Hb|]. intros p [Hp Hp']. split; [|exact Hp'].
        eapply Qle_trans; [exact Hup | exact Hp].
    + destruct (IH (S idx) completed Hc ltac:(lia)) as [Hs Hb].
      destruct (playlist_loop nfkd w task_id total (S idx) rest completed).
      cbn [fst app updates_of applied_progress u_progress] in *. now split.
    + destruct (IH (S idx) completed Hc ltac:(lia)) as [Hs Hb].
      destruct (playlist_loop nfkd w task_id total (S idx) rest completed).
      cbn [fst app updates_of applied_progress u_progress] in *. now split.
Qed.

End PlaylistProgressFacts.

Lemma updates_of_app (acts1 acts2 : list action) :
  updates_of (acts1 ++ acts2) = updates_of acts1 ++ updates_of acts2.
Proof.
  induction acts1 as [|a acts1 IH]; [reflexivity|].
  destruct a; cbn [app updates_of]; now rewrite IH.
Qed.

Lemma applied_progress_app (us1 us2 : list update) :
  applied_progress (us1 ++ us2) = applied_progress us1 ++ applied_progress us2.
Proof.
  induction us1 as [|u us1 IH]; [reflexivity|].
  cbn [app applied_progress]. destruct (u_progress u); now rewrite IH.
Qed.

Lemma StronglySorted_snoc (ps : list Q) (top : Q) :
  StronglySorted Qle ps -> Forall (fun p => p <= top)%Q ps ->
  StronglySorted Qle (ps ++ [top]).
Proof.
  induction 1 as [|p ps Hs IH Hall]; intros Hle; [repeat constructor|].
  inversion Hle as [|? ? Hp Hle']; subst.
  cbn [app]. constructor; [now apply IH|].
  apply Forall_app. split; [exact Hall | now constructor].
Qed.

(** X21.  The progress of a playlist download only goes up: the progress
    values [download_playlist] passes, starting from the 0 of a new task,
    never decrease and never exceed 100. *)
Theorem playlist_progress_monotone (nfkd : str -> str)
  (w : nat -> str -> outcome) (video_ids : list str) (task_id : str) :
  video_ids <> [] ->
  let ps := applied_progress
              (updates_of (download_playlist nfkd w video_ids task_id)) in
  nondecreasing (0%Q :: ps) /\ Forall (fun p => 0 <= p /\ p <= 100)%Q ps.
Proof.
  intros Hne ps. subst ps. unfold download_playlist.
  assert (Htotal : 0 < len video_ids)
    by (unfold len; destruct video_ids; [congruence | simpl; lia]).
  destruct (playlist_loop_progress nfkd w task_id (len video_ids) Htotal
              video_ids 0%nat 0 ltac:(lia) ltac:(unfold len; lia)) as [Hs Hb].
  destruct (playlist_loop nfkd w task_id (len video_ids) 0 video_ids 0)
    as [loop completed].
  cbn [fst updates_of applied_progress u_progress] in *.
  rewrite updates_of_app, applied_progress_app.
  assert (Hb0 : Forall (fun p => 0 <= p /\ p <= 100)%Q
                  (applied_progress (updates_of loop))).
  { eapply Forall_impl; [exact Hb|]. intros p [Hlo Hhi]. split; [|exact Hhi].
    rewrite (ratio_zero (len video_ids) Htotal) in Hlo. exact Hlo. }
  assert (Hloop : StronglySorted Qle (0%Q :: applied_progress (updates_of loop))).
  { constructor; [exact Hs|].
    eapply Forall_impl; [exact Hb0|]. now intros p [Hlo _]. }
  unfold nondecreasing.
  destruct (0 <? completed); cbn [updates_of applied_progress u_progress].
  - split.
    + apply StronglySorted_Sorted.
      change (0%Q :: applied_progress (updates_of loop) ++ [100%Q])
        with ((0%Q :: applied_progress (updates_of loop)) ++ [100%Q]).
      apply StronglySorted_snoc; [exact Hloop|].
      constructor; [discriminate|].
      eapply Forall_impl; [exact Hb0|]. now intros p [_ Hhi].
    + apply Forall_app. split; [exact Hb0|].
      constructor; [split; discriminate | constructor].
  - rewrite app_nil_r. split; [now apply StronglySorted_Sorted | exact Hb0].
Qed.

Lemma playlist_progress_monotone_witness :
  nondecreasing
    (0%Q :: applied_progress
              (updates_of
                 (download_playlist Samples.nfkd
                    (fun idx _ => if Nat.eqb idx 1 then Samples.unavailable
                                  else Samples.success "Song")
                    [py "a"; py "b"; py "c"] (py "t")))).
Proof.
  apply (playlist_progress_monotone Samples.nfkd
           (fun idx _ => if Nat.eqb idx 1 then Samples.unavailable
                         else Samples.success "Song")
           [py "a"; py "b"; py "c"] (py "t")).
  discriminate.
Defined.

(** ** The HTTP handlers, continued *)

(** X22.  [POST /api/info] answers a URL that contains [list=] from the
    playlist lookup alone, also when the URL names a video: the single-video
    lookup has no influence, an empty playlist gives 404 "Playlist not found
    or empty", and otherwise the answer carries the playlist's title and
    videos.  A valid URL without [list=] is answered from the single-video
    lookup alone, with exactly one video and no title. *)
Theorem info_branches
  (service_get_playlist_info : str -> option str * list VideoInfo)
  (service_get_video_info : str -> option VideoInfo)
  (request : DownloadRequest) :
  Validators.is_valid_youtube_url (url request) = true ->
  let answer := Routes.get_video_info service_get_playlist_info
                  service_get_video_info request in
  (contains (py "list=") (url request) = true ->
     (forall other_video_lookup,
        Routes.get_video_info service_get_playlist_info other_video_lookup
          request = answer)
     /\ (snd (service_get_playlist_info (url request)) = [] ->
         answer = Routes.HTTPException 404 (py "Playlist not found or empty"))
     /\ (snd (service_get_playlist_info (url request)) <> [] ->
         answer = Routes.Ok
                    {| resp_is_playlist := true;
                       videos := snd (service_get_playlist_info (url request));
                       playlist_title :=
                         fst (service_get_playlist_info (url request)) |}))
  /\ (contains (py "list=") (url request) = false ->
      (forall other_playlist_lookup,
         Routes.get_video_info other_playlist_lookup service_get_video_info
           request = answer)
      /\ answer = match service_get_video_info (url request) with
                  | None => Routes.HTTPException 404 (py "Video not found")
                  | Some video =>
                      Routes.Ok {| resp_is_playlist := false;
                                   videos := [video];
                                   playlist_title := None |}
                  end).
Proof.
  intros Hvalid answer. subst answer. unfold Routes.get_video_info.
  rewrite Hvalid. cbn [negb]. split; intros Hlist; rewrite Hlist.
  - split; [reflexivity|].
    destruct (service_get_playlist_info (url request)) as [pt [|v vs]];
      cbn [fst snd]; split; intros H; congruence.
  - split; reflexivity.
Qed.

Lemma info_branches_witness :
  Routes.get_video_info (fun _ => (Some (py "Mix"), []))
    (fun _ => Some (Samples.video "abc123" "Song"))
    {| url := py "https://www.youtube.com/watch?v=abc123&list=PL123";
       is_playlist := false |}
  = Routes.HTTPException 404 (py "Playlist not found or empty").
Proof.
  apply (proj1 (proj2 (proj1
           (info_branches (fun _ => (Some (py "Mix"), []))
              (fun _ => Some (Samples.video "abc123" "Song"))
              {| url := py "https://www.youtube.com/watch?v=abc123&list=PL123";
                 is_playlist := false |}
              ltac:(vm_compute; reflexivity))
           ltac:(vm_compute; reflexivity)))).
  reflexivity.
Defined.

(** X23.  A request the download handlers reject changes nothing: with an
    invalid URL [POST /api/download], and with an empty selection
    [POST /api/download-playlist], answer 400, leave the registry as it was
    and schedule no work.  A request they accept creates exactly the task
    [uuid], schedules exactly one workflow for it, and is answered with that
    task as pending, its total being 1 or the number of selected ids. *)
Theorem download_handlers_submit (ts : tasks) (uuid : str) :
  (forall request,
     Validators.is_valid_youtube_url (url request) = false ->
     Routes.download_video ts uuid request
     = (ts, [], Routes.HTTPException 400 (py "Invalid YouTube URL")))
  /\ (forall request,
        video_ids request = [] ->
        Routes.download_playlist ts uuid request
        = (ts, [], Routes.HTTPException 400 (py "No videos selected")))
  /\ (forall request,
        Validators.is_valid_youtube_url (url request) = true ->
        exists ts',
          Routes.download_video ts uuid request
          = (ts', [Routes.BgDownloadSingleVideo (url request) uuid],
             Routes.Ok {| Models.task_id := uuid; Models.status := PENDING;
                          Models.message := py "Task created";
                          Models.progress := 0; Models.total_videos := 1;
                          Models.completed_videos := 0 |})
          /\ dom ts' = {[uuid]} ∪ dom ts
          /\ forall other, other <> uuid -> ts' !! other = ts !! other)
  /\ (forall request,
        video_ids request <> [] ->
        exists ts',
          Routes.download_playlist ts uuid request
          = (ts', [Routes.BgDownloadPlaylist (video_ids request) uuid],
             Routes.Ok {| Models.task_id := uuid; Models.status := PENDING;
                          Models.message := py "Task created";
                          Models.progress := 0;
                          Models.total_videos := len (video_ids request);
                          Models.completed_videos := 0 |})
          /\ dom ts' = {[uuid]} ∪ dom ts
          /\ forall other, other <> uuid -> ts' !! other = ts !! other).
Proof.
  split; [|split; [|split]].
  - intros request Hbad. unfold Routes.download_video. now rewrite Hbad.
  - intros request Hnil. unfold Routes.download_playlist. now rewrite Hnil.
  - intros request Hok. unfold Routes.download_video. rewrite Hok.
    cbn [negb create_task]. eexists. split; [|split].
    + unfold get_task. now rewrite lookup_insert_eq.
    + apply dom_insert_L.
    + intros other Hne. apply lookup_insert_ne. congruence.
  - intros request Hne. unfold Routes.download_playlist.
    destruct (video_ids request) as [|v vs] eqn:E; [congruence|].
    cbn [create_task]. eexists. split; [|split].
    + unfold get_task. now rewrite lookup_insert_eq.
    + apply dom_insert_L.
    + intros other Hne'. apply lookup_insert_ne. congruence.
Qed.

Lemma download_handlers_submit_witness :
  Routes.download_video (<[py "a" := fresh_task 1]> ∅) (py "b")
    {| url := py "https://example.com/video"; is_playlist := false |}
  = (<[py "a" := fresh_task 1]> ∅, [],
     Routes.HTTPException 400 (py "Invalid YouTube URL")).
Proof.
  apply (proj1 (download_handlers_submit (<[py "a" := fresh_task 1]> ∅)
                  (py "b"))).
  vm_compute. reflexivity.
Defined.

Section ServingFacts.

Implicit Types (ts : tasks) (task_id : str).

Lemma completed_matches :
  Routes.str_eqb (value COMPLETED) (py "completed") = true.
Proof. vm_compute. reflexivity. Qed.

Lemma get_task_status ts task_id t :
  ts !! task_id = Some t -> Models.status (get_task ts task_id) = status t.
Proof. intros H. unfold get_task. now rewrite H. Qed.

Lemma get_task_files_known ts task_id t :
  ts !! task_id = Some t -> get_task_files ts task_id = file_paths t.
Proof. intros H. unfold get_task_files. now rewrite H. Qed.

(** The items of the page: the existing files with their positions. *)
Lemma page_items_spec (exists_ : str -> bool) files : forall start idx p,
  In (idx, p) (Downloads.page_items exists_ start files)
  <-> exists_ p = true /\ start <= idx
      /\ nth_error files (Z.to_nat (idx - start)) = Some p.
Proof.
  induction files as [|f files IH]; intros start idx p;
    cbn [Downloads.page_items].
  - split; [intros [] | intros (_ & _ & H)].
    now destruct (Z.to_nat (idx - start)).
  - assert (Hrest : In (idx, p) (Downloads.page_items exists_ (start + 1) files)
                    <-> exists_ p = true /\ start + 1 <= idx
                        /\ nth_error (f :: files) (Z.to_nat (idx - start))
                           = Some p).
    { rewrite IH. split; intros (He & Hle & Hn); repeat split; auto.
      - replace (Z.to_nat (idx - start))
          with (S (Z.to_nat (idx - (start + 1)))) by lia. exact Hn.
      - replace (Z.to_nat (idx - start))
          with (S (Z.to_nat (idx - (start + 1)))) in Hn by lia. exact Hn. }
    assert (Hhead : forall q, (idx, p) = (start, q) \/ start + 1 <= idx
                              <-> start <= idx /\ (idx = start -> p = q)).
    { intros q. split.
      - intros [[= -> ->]|H]; split; auto; lia.
      - intros [Hle Heq]. destruct (Z.eq_dec idx start) as [->|Hne];
          [left; now rewrite (Heq eq_refl) | right; lia]. }
    destruct (exists_ f) eqn:Ef.
    + cbn [In]. rewrite Hrest. split.
      * intros [[= <- <-]|(He & Hle & Hn)].
        -- rewrite Z.sub_diag. repeat split; auto. lia.
        -- repeat split; auto. lia.
      * intros (He & Hle & Hn).
        destruct (Z.eq_dec idx start) as [->|Hne].
        -- rewrite Z.sub_diag in Hn. injection Hn as <-. now left.
        -- right. repeat split; auto. lia.
    + rewrite Hrest. split.
      * intros (He & Hle & Hn). repeat split; auto. lia.
      * intros (He & Hle & Hn).
        destruct (Z.eq_dec idx start) as [->|Hne].
        -- rewrite Z.sub_diag in Hn. injection Hn as <-. congruence.
        -- repeat split; auto. lia.
Qed.

End ServingFacts.

(** X24.  The page of [GET /api/download-file/{task_id}] is only returned
    for a completed task with at least two recorded files, and schedules no
    deletion.  It lists the recorded files that exist on disk, each with its
    position counted from one, and every link of the page works: for the item
    numbered [idx], [GET /api/download-single/{task_id}/{idx-1}] returns that
    very file as [audio/mpeg]. *)
Theorem download_page_links (ts : tasks) (exists_ : str -> bool)
  (task_id page_task : str) (n_files : Z) (items : list (Z * str))
  (bg : list Routes.background) :
  Downloads.download_file ts exists_ task_id
  = Routes.Ok (Downloads.Page n_files page_task items, bg) ->
  bg = [] /\ page_task = task_id
  /\ Models.status (get_task ts task_id) = COMPLETED
  /\ n_files = len (get_task_files ts task_id) /\ 2 <= n_files
  /\ (forall idx p,
        In (idx, p) items
        <-> exists_ p = true /\ 1 <= idx
            /\ nth_error (get_task_files ts task_id) (Z.to_nat (idx - 1))
               = Some p)
  /\ (forall idx p,
        In (idx, p) items ->
        exists name,
          Routes.download_single_from_playlist ts exists_ task_id (idx - 1)
          = Routes.Ok ({| Routes.path := p; Routes.filename := name;
                          Routes.media_type := py "audio/mpeg" |},
                       [Routes.BgCleanupFile p 30])).
Proof.
  unfold Downloads.download_file. intros H.
  assert (Hst : Models.status (get_task ts task_id) = COMPLETED).
  { destruct (Models.status (get_task ts task_id)); try reflexivity;
      vm_compute in H; discriminate H. }
  rewrite Hst, completed_matches in H. cbn [negb] in H.
  destruct (get_task_files ts task_id) as [|f1 [|f2 files]] eqn:Efiles;
    [discriminate| |].
  { destruct (exists_ f1); discriminate. }
  injection H as <- <- <- <-.
  assert (Hitems : forall idx p,
            In (idx, p) (Downloads.page_items exists_ 1 (f1 :: f2 :: files))
            <-> exists_ p = true /\ 1 <= idx
                /\ nth_error (f1 :: f2 :: files) (Z.to_nat (idx - 1)) = Some p)
    by (intros idx p; apply page_items_spec).
  split; [reflexivity|]. split; [reflexivity|]. split; [exact Hst|].
  split; [reflexivity|]. split; [unfold len; cbn [length]; lia|].
  split; [exact Hitems|].
  intros idx p Hin. apply Hitems in Hin as (He & Hle & Hn).
  destruct (download_single_from_playlist_nonnegative ts exists_ task_id
              (idx - 1) ltac:(lia)) as (_ & _ & Hserve).
  rewrite Efiles in Hserve.
  destruct (Hserve p Hst Hn) as [_ Hok]. exact (Hok He).
Qed.

Lemma download_page_links_witness :
  let ts : tasks :=
    <[py "t" := {| status := COMPLETED; progress := 100;
                   message := py "Completed! Downloaded 2/2 videos";
                   total_videos := 2; completed_videos := 2;
                   file_paths := [py "downloads/a.mp3"; py "downloads/b.mp3"] |}]>
      ∅ in
  let exists_ := fun p : str => Routes.str_eqb p (py "downloads/b.mp3") in
  exists name,
    Routes.download_single_from_playlist ts exists_ (py "t") (2 - 1)
    = Routes.Ok ({| Routes.path := py "downloads/b.mp3";
                    Routes.filename := name;
                    Routes.media_type := py "audio/mpeg" |},
                 [Routes.BgCleanupFile (py "downloads/b.mp3") 30]).
Proof.
  intros ts exists_.
  refine (proj2 (proj2 (proj2 (proj2 (proj2 (proj2
            (download_page_links ts exists_ (py "t") (py "t") 2
               [(2, py "downloads/b.mp3")] [] _)))))) 2 _ _).
  - vm_compute. reflexivity.
  - left. reflexivity.
Defined.

(** X25.  From request to file, single video.  While the task created by
    [POST /api/download] is still pending, [GET /api/download-file] answers
    400 "Task not completed".  Once [download_single_video] has succeeded the
    task holds exactly the one file [downloads/<sanitized title>.mp3];
    [GET /api/download-file] then returns that file as [audio/mpeg] and
    schedules its deletion after 10 seconds, or answers 404 when the file is
    no longer on disk. *)
Theorem single_video_end_to_end (nfkd : str -> str)
  (py_float : str -> option Q) (format_0f : Q -> str) (ts : tasks)
  (uuid : str) (request : DownloadRequest) (o : outcome)
  (video_info : VideoInfo) (exists_ : str -> bool) :
  Validators.is_valid_youtube_url (url request) = true ->
  o_info o = Some video_info -> o_error o = None -> o_file_exists o = true ->
  let ts1 := fst (fst (Routes.download_video ts uuid request)) in
  let ts2 := run ts1 (download_single_video nfkd py_float format_0f o
                        (url request) uuid) in
  let p := final_file nfkd (title video_info) in
  Downloads.download_file ts1 exists_ uuid
  = Routes.HTTPException 400 (py "Task not completed")
  /\ get_task_files ts2 uuid = [p]
  /\ (exists_ p = true ->
      exists name,
        Downloads.download_file ts2 exists_ uuid
        = Routes.Ok (Downloads.Stream
                       {| Routes.path := p; Routes.filename := name;
                          Routes.media_type := py "audio/mpeg" |},
                     [Routes.BgCleanupFile p 10]))
  /\ (exists_ p = false ->
      Downloads.download_file ts2 exists_ uuid
      = Routes.HTTPException 404
          (py "File not found: " ++ Routes.path_name p)).
Proof.
  intros Hvalid Hinfo Herr Hfile ts1 ts2 p.
  assert (Hin1 : ts1 !! uuid = Some (fresh_task 1)).
  { subst ts1. unfold Routes.download_video. rewrite Hvalid.
    cbn [negb create_task fst]. apply lookup_insert_eq. }
  destruct (single_video_outcome nfkd py_float format_0f o (url request) uuid
              ts1 (fresh_task 1) Hin1) as (t' & Hrun & _ & Hout).
  rewrite Hinfo, Herr, Hfile in Hout.
  destruct Hout as (Hst & _ & _ & _ & Hfiles). cbn [file_paths fresh_task app] in Hfiles.
  fold ts2 in Hrun. fold p in Hfiles.
  assert (Hfiles2 : get_task_files ts2 uuid = [p])
    by (now rewrite (get_task_files_known _ _ _ Hrun)).
  assert (Hst2 : Models.status (get_task ts2 uuid) = COMPLETED)
    by (now rewrite (get_task_status _ _ _ Hrun)).
  split; [|split; [exact Hfiles2|split]].
  - unfold Downloads.download_file.
    now rewrite (get_task_status _ _ _ Hin1).
  - intros He. unfold Downloads.download_file.
    rewrite Hst2, completed_matches, Hfiles2, He. cbn [negb]. eauto.
  - intros He. unfold Downloads.download_file.
    now rewrite Hst2, completed_matches, Hfiles2, He.
Qed.

Lemma single_video_end_to_end_witness :
  get_task_files
    (run (fst (fst (Routes.download_video ∅ (py "t")
                      {| url := py "https://youtu.be/abc123";
                         is_playlist := false |})))
       (download_single_video Samples.nfkd Samples.float_of_decimal
          Samples.format_0f (Samples.success "Song")
          (py "https://youtu.be/abc123") (py "t"))) (py "t")
  = [py "downloads/Song.mp3"].
Proof.
  apply (proj1 (proj2
    (single_video_end_to_end Samples.nfkd Samples.float_of_decimal
       Samples.format_0f ∅ (py "t")
       {| url := py "https://youtu.be/abc123"; is_playlist := false |}
       (Samples.success "Song") (Samples.video "abc123" "Song")
       (fun _ => true)
       ltac:(vm_compute; reflexivity) eq_refl eq_refl eq_refl))).
Defined.

Section PlaylistServingFacts.

Variable nfkd : str -> str.
Variable w : nat -> str -> outcome.

(** The record a playlist download leaves: its files and its status. *)
Lemma playlist_final_record (video_ids : list str) (task_id : str)
  (ts : tasks) (t : task) :
  ts !! task_id = Some t ->
  exists t',
    run ts (download_playlist nfkd w video_ids task_id) !! task_id = Some t'
    /\ file_paths t' = file_paths t ++ produced_files nfkd w 0 video_ids
    /\ status t' = if 0 <? successes w 0 video_ids then COMPLETED else FAILED.
Proof.
  intros Hin. unfold download_playlist.
  match goal with |- context [UpdateTask task_id ?u :: _ ++ _] =>
    pose proof (exec_update_known task_id ts u t Hin) as Hin1
  end.
  destruct (playlist_loop_files nfkd w task_id (len video_ids) video_ids
              0%nat 0 _ _ Hin1) as (t2 & Hrun2 & Hf2).
  pose proof (playlist_loop_completed nfkd w task_id (len video_ids)
                video_ids 0%nat 0) as Hcount.
  destruct (playlist_loop nfkd w task_id (len video_ids) 0 video_ids 0)
    as [loop completed].
  cbn [fst snd] in *. rewrite Z.add_0_l in Hcount. subst completed.
  rewrite run_cons, run_app. cbn [run fold_left] in *.
  rewrite apply_update_file_paths in Hf2.
  cbn [u_file_path truthy] in Hf2.
  destruct (0 <? successes w 0 video_ids);
    (eexists; split; [apply (exec_update_known task_id _ _ _ Hrun2)|];
     rewrite apply_update_file_paths, apply_update_status;
     split; [exact Hf2 | reflexivity]).
Qed.

End PlaylistServingFacts.

(** X26.  From request to files, playlist.  After the download started by
    [POST /api/download-playlist] has run, the task is completed exactly when
    at least one item succeeded, and then each index from 0 up to the number
    of successful items selects, through
    [GET /api/download-single/{task_id}/{index}], the file of the matching
    successful item in playlist order (404 once that file is gone), and
    [GET /api/download-file] never answers "No files found".  When no item
    succeeded both endpoints answer 400 "Task not completed". *)
Theorem playlist_end_to_end (nfkd : str -> str) (w : nat -> str -> outcome)
  (ts : tasks) (uuid : str) (request : PlaylistRequest)
  (exists_ : str -> bool) :
  video_ids request <> [] ->
  let ts1 := fst (fst (Routes.download_playlist ts uuid request)) in
  let ts2 := run ts1 (download_playlist nfkd w (video_ids request) uuid) in
  let files := produced_files nfkd w 0 (video_ids request) in
  get_task_files ts2 uuid = files
  /\ (files <> [] ->
      Models.status (get_task ts2 uuid) = COMPLETED
      /\ Downloads.download_file ts2 exists_ uuid
         <> Routes.HTTPException 404 (py "No files found")
      /\ forall (i : nat) p,
           nth_error files i = Some p ->
           (exists_ p = true ->
            exists name,
              Routes.download_single_from_playlist ts2 exists_ uuid
                (Z.of_nat i)
              = Routes.Ok ({| Routes.path := p; Routes.filename := name;
                              Routes.media_type := py "audio/mpeg" |},
                           [Routes.BgCleanupFile p 30]))
           /\ (exists_ p = false ->
               Routes.download_single_from_playlist ts2 exists_ uuid
                 (Z.of_nat i)
               = Routes.HTTPException 404 (py "File not found")))
  /\ (files = [] ->
      forall i,
        Routes.download_single_from_playlist ts2 exists_ uuid i
        = Routes.HTTPException 400 (py "Task not completed")
        /\ Downloads.download_file ts2 exists_ uuid
           = Routes.HTTPException 400 (py "Task not completed")).
Proof.
  intros Hne ts1 ts2 files.
  assert (Hin1 : ts1 !! uuid = Some (fresh_task (len (video_ids request)))).
  { subst ts1. unfold Routes.download_playlist.
    destruct (video_ids request) as [|v vs] eqn:E; [congruence|].
    cbn [create_task fst]. apply lookup_insert_eq. }
  destruct (playlist_final_record nfkd w (video_ids request) uuid ts1 _ Hin1)
    as (t' & Hrun & Hf & Hst).
  cbn [file_paths fresh_task app] in Hf. fold ts2 in Hrun. fold files in Hf.
  pose proof (produced_files_length nfkd w (video_ids request) 0%nat) as Hlen.
  fold files in Hlen.
  assert (Hfiles : get_task_files ts2 uuid = files)
    by (now rewrite (get_task_files_known _ _ _ Hrun)).
  assert (Hstatus : Models.status (get_task ts2 uuid) = status t')
    by (apply (get_task_status _ _ _ Hrun)).
  split; [exact Hfiles|]. split.
  - intros Hsome.
    assert (Hk : 0 < successes w 0 (video_ids request)).
    { rewrite <- Hlen. destruct files; [congruence | simpl; lia]. }
    replace (0 <? successes w 0 (video_ids request)) with true in Hst
      by (symmetry; now apply Z.ltb_lt).
    rewrite Hst in Hstatus. split; [exact Hstatus|]. split.
    + unfold Downloads.download_file.
      rewrite Hstatus, completed_matches, Hfiles. cbn [negb].
      destruct files as [|f1 [|f2 fs]]; [congruence| |discriminate].
      destruct (exists_ f1); discriminate.
    + intros i p Hnth.
      destruct (download_single_from_playlist_nonnegative ts2 exists_ uuid
                  (Z.of_nat i) ltac:(lia)) as (_ & _ & Hserve).
      rewrite Hfiles, Nat2Z.id in Hserve.
      destruct (Hserve p Hstatus Hnth) as [Hgone Hthere]. now split.
  - intros Hnone i.
    assert (Hk : successes w 0 (video_ids request) = 0)
      by (rewrite <- Hlen, Hnone; reflexivity).
    rewrite Hk in Hst. cbn [Z.ltb Z.compare] in Hst. rewrite Hst in Hstatus.
    unfold Routes.download_single_from_playlist, Downloads.download_file.
    rewrite Hstatus. split; reflexivity.
Qed.

Lemma playlist_end_to_end_witness :
  get_task_files
    (run (fst (fst (Routes.download_playlist ∅ (py "t")
                      {| pl_url := py "https://www.youtube.com/playlist?list=PL1";
                         video_ids := [py "a"; py "b"] |})))
       (download_playlist Samples.nfkd
          (fun idx _ => if Nat.eqb idx 0 then Samples.unavailable
                        else Samples.success "Two")
          [py "a"; py "b"] (py "t"))) (py "t")
  = [py "downloads/Two.mp3"].
Proof.
  apply (proj1
    (playlist_end_to_end Samples.nfkd
       (fun idx _ => if Nat.eqb idx 0 then Samples.unavailable
                     else Samples.success "Two")
       ∅ (py "t")
       {| pl_url := py "https://www.youtube.com/playlist?list=PL1";
          video_ids := [py "a"; py "b"] |}
       (fun _ => true) ltac:(discriminate))).
Defined.
